(** * Paint-by-number client: palette ids, colour sampling, image
    normalisation and the generation request

  A shallow embedding of the client-side logic of the application:

  - [PaintLab.tsx]: the palette operations of the component
    ([scanColor], [addManualColor], [removeColor], [updateColorNote],
    [updateColorRgb]);
  - utils.ts, version 2.0 (module [UtilsV2]): [compressImage],
    [extractColorFromImage], [formatPaletteForAPI], [generatePaintByNumber]
    with the complexity slider, [rgbToHex], [hexToRgb], [generateColorId];
    (module [Api]): [analyzeImage], [downloadSVGTemplate],
    [checkAPIHealth];
  - utils.ts, first version (module [UtilsV1]): [extractColorFromImage],
    [compressImage], [rgbToHex] and [generatePaintByNumber] with the
    progress callback.

  Not embedded: [getLuminance] and [getContrastTextColor] (a power with
  the exponent 2.4 on floating-point numbers), [downloadImage] (DOM
  only) and the state of the [Workbench] component.

  Conventions of the embedding.  JavaScript numbers that hold pixel
  counts, channel values, HTTP statuses and slider positions are integers
  ([Z] or [nat]).  The arithmetic of [compressImage] is that of IEEE 754
  binary64 (module [Double]): a quotient or a product is the exact
  rational rounded to the nearest number, and [Math.round] is
  [floor (x + 1/2)] on the value of that number.  The means of
  [extractColorFromImage] and the percentages of the upload are exact
  rationals ([Q]).
  Objects that the source shares by reference (the palette array, its
  colour objects and their [rgb] arrays) live in an explicit heap.  What
  the browser or the network decides (whether a file decodes, whether a
  canvas context exists, what the server answers, which upload progress
  events fire, the value of [Math.random]) is an argument of the function
  that depends on it. *)

From Stdlib Require Import ZArith QArith Qround Qminmax Qabs Qpower String Ascii List Sorted Lia Lqa.
From Stdlib Require Import SpecFloat.
From Stdlib Require Import DecimalString DecimalNat HexadecimalString HexadecimalZ.
From stdpp Require Import gmap strings list sorting.

Set Warnings "-register-all".

Local Open Scope string_scope.
Local Open Scope list_scope.
Local Open Scope Z_scope.

(** ** JavaScript primitives used by the source *)

Module JS.

(** [n.toString()] for a non-negative integer. *)
Definition nat_toString (n : nat) : string :=
  DecimalString.NilEmpty.string_of_uint (Nat.to_uint n).

(** [n.toString()] and the template literal [`${n}`] for an integer below
    2^53 in absolute value: its decimal numeral.  (Beyond that a number
    prints the shortest digits that identify it, and from 10^21 on in
    exponent notation.) *)
Definition int_toString (n : Z) : string :=
  DecimalString.NilZero.string_of_int (Z.to_int n).

(** [n.toString(16)] for an integer: lower-case digits, no prefix. *)
Definition int_toString16 (n : Z) : string :=
  HexadecimalString.NilZero.string_of_int (Z.to_hex_int n).

(** [s.padStart(targetLength, fill)] with a one-character [fill]. *)
Definition padStart (targetLength : nat) (fill : ascii) (s : string) : string :=
  string_of_list_ascii (repeat fill (targetLength - String.length s)) +:+ s.

(** A number that [parseInt] returns. *)
Inductive Number : Type :=
| Int (n : Z)
| NaN.

(** [arr.includes(x)] on an array of strings. *)
Definition includes (arr : list string) (x : string) : bool :=
  existsb (String.eqb x) arr.

(** [Math.round]: the nearest integer, halves go up. *)
Definition Math_round (x : Q) : Z := Qfloor (x + (1 # 2)).

(** Values that come out of [JSON.parse] and go into [JSON.stringify];
    [JUndefined] is what reading an absent property gives. *)
Inductive Json : Type :=
| JUndefined
| JNull
| JBool (b : bool)
| JNum (n : Z)
| JStr (s : string)
| JArr (items : list Json)
| JObj (fields : list (string * Json)).

(** [ToBoolean]. *)
Definition truthy (v : Json) : bool :=
  match v with
  | JUndefined | JNull => false
  | JBool b => b
  | JNum n => negb (n =? 0)
  | JStr s => negb (String.eqb s "")
  | JArr _ | JObj _ => true
  end.

(** [a || b]. *)
Definition or_else (a b : Json) : Json := if truthy a then a else b.

(** [obj.key] on a parsed object: [undefined] when the key is absent. *)
Definition prop (obj : gmap string Json) (key : string) : Json :=
  default JUndefined (obj !! key).

(** [s || d] on an optional string: absent and empty are both falsy. *)
Definition str_or_else (s : option string) (d : string) : string :=
  match s with
  | Some t => if String.eqb t "" then d else t
  | None => d
  end.

(** [ToInt32]: an integer as a signed 32-bit integer. *)
Definition to_int32 (x : Z) : Z :=
  let m := x mod 2 ^ 32 in
  if m <? 2 ^ 31 then m else m - 2 ^ 32.

(** [x << n] on integers. *)
Definition shift_left (x n : Z) : Z :=
  to_int32 (Z.shiftl (to_int32 x) (n mod 32)).

(** [s.slice(start, stop)] and [s.slice(start)] for indices that are not
    negative. *)
Definition slice (start stop : nat) (s : string) : string :=
  substring start (stop - start) s.

Definition slice_from (start : nat) (s : string) : string :=
  substring start (String.length s - start) s.

End JS.

(** ** Numbers in arithmetic: IEEE 754 binary64

    A finite number is given by its value, a rational; the sign of a zero
    is not kept (no operation below depends on it: the divisors are the
    dimensions of an image, which are not negative). *)

Module Double.

Inductive number : Type :=
| Finite (q : Q)
| Infinite (positive : bool)   (* Infinity, -Infinity *)
| NaN.

(** The integer nearest to [x], the even one of two that are equally
    near. *)
Definition round_half_even (x : Q) : Z :=
  let f := Qfloor x in
  match Qcompare (x - inject_Z f) (1 # 2) with
  | Lt => f
  | Gt => f + 1
  | Eq => if Z.even f then f else f + 1
  end.

(** The integer [k] with [2^k <= x < 2^(k+1)], for a positive [x]. *)
Definition floor_log2 (x : Q) : Z :=
  let k := Z.log2 (Qnum x) - Z.log2 (Z.pos (Qden x)) in
  if Qle_bool (2 ^ k) x then k else k - 1.

(** The number nearest to the rational [x] (round to nearest, ties to
    even): a significand of 53 bits, the least exponent -1074 for the
    last bit (gradual underflow), Infinity from 2^1024 on. *)
Definition fl (x : Q) : number :=
  if Qeq_bool x 0 then Finite 0
  else
    let e := Z.max (floor_log2 (Qabs x) - 52) (-1074) in
    let r := Qred (inject_Z (round_half_even (x / 2 ^ e)) * 2 ^ e) in
    if Qle_bool (2 ^ 1024) (Qabs r) then Infinite (Qle_bool 0 r)
    else Finite r.

(** An integer that a number holds exactly, as a number. *)
Definition of_Z (n : Z) : number := Finite (inject_Z n).

(** [a * b]. *)
Definition mul (a b : number) : number :=
  match a, b with
  | Finite x, Finite y => fl (x * y)
  | Infinite p, Infinite q => Infinite (Bool.eqb p q)
  | Infinite p, Finite y | Finite y, Infinite p =>
      match Qcompare y 0 with
      | Eq => NaN
      | Gt => Infinite p
      | Lt => Infinite (negb p)
      end
  | _, _ => NaN
  end.

(** [a / b], for a divisor that is not negative. *)
Definition div (a b : number) : number :=
  match a, b with
  | Finite x, Finite y =>
      if Qeq_bool y 0 then
        match Qcompare x 0 with
        | Eq => NaN
        | Gt => Infinite true
        | Lt => Infinite false
        end
      else fl (x / y)
  | Finite _, Infinite _ => Finite 0
  | Infinite p, Finite _ => Infinite p
  | _, _ => NaN
  end.

(** [a > b]. *)
Definition gt (a b : number) : bool :=
  match a, b with
  | Finite x, Finite y => negb (Qle_bool x y)
  | Infinite true, Finite _ | Infinite true, Infinite false
  | Finite _, Infinite false => true
  | _, _ => false
  end.

(** [Math.min(a, b)]. *)
Definition min (a b : number) : number :=
  match a, b with
  | NaN, _ | _, NaN => NaN
  | Infinite false, _ | _, Infinite false => Infinite false
  | Infinite true, c | c, Infinite true => c
  | Finite x, Finite y => Finite (Qmin x y)
  end.

(** [Math.round(a)]. *)
Definition round (a : number) : number :=
  match a with
  | Finite x => of_Z (JS.Math_round x)
  | _ => a
  end.

End Double.

(** ** The data model ([types.ts]) *)

(** [rgb: [number, number, number]]. *)
Definition Rgb : Type := (Z * Z * Z)%type.

(** [PaletteColor] as a value: [note] is optional in version 2.0 of
  [types.ts] and a plain string in the first version. *)
Record PaletteColor : Type := mkColor {
  id : string;
  rgb : Rgb;
  note : option string
}.

Definition ids (palette : list PaletteColor) : list string := map id palette.

(** ** Images, files and the browser *)

(** One pixel of a canvas: red, green, blue, alpha, each an 8-bit value. *)
Definition Rgba : Type := (Z * Z * Z * Z)%type.

(** A decoded image ([img] after [img.onload]): its size and its pixels,
    [img_pixel x y] for [0 <= x < img_width] and [0 <= y < img_height]. *)
Record Raster : Type := mkRaster {
  img_width : Z;
  img_height : Z;
  img_pixel : Z -> Z -> Rgba
}.

(** What [FileReader] and [Image] make of the bytes of a file. *)
Inductive FileBody : Type :=
| Unreadable               (* reader.onerror *)
| NotAnImage               (* img.onerror *)
| Picture (img : Raster).  (* img.onload *)

Record File : Type := mkFile {
  file_name : string;
  file_body : FileBody
}.

(** The two things the browser may refuse: a 2d context for a canvas
    ([canvas.getContext('2d')] is [null]) and an encoding of a canvas
    that has pixels ([canvas.toBlob] gives [null]; for a canvas without
    pixels it always does). *)
Record Browser : Type := mkBrowser {
  context2d : bool;
  encodes : bool
}.

(** How a promise built with [new Promise((resolve, reject) => ...)] ends.
    An exception thrown inside an event handler settles nothing. *)
Inductive Settled (A : Type) : Type :=
| Resolved (a : A)
| Rejected (message : string)
| NeverSettles.
Arguments Resolved {A} a.
Arguments Rejected {A} message.
Arguments NeverSettles {A}.

Module Canvas.

(** The canvas after [ctx.drawImage(img, 0, 0)] on a canvas of the size of
    the image: the pixels of the image inside, transparent black outside. *)
Definition inside (img : Raster) (x y : Z) : bool :=
  (0 <=? x) && (x <? img_width img) && (0 <=? y) && (y <? img_height img).

Definition pixel_at (img : Raster) (x y : Z) : Rgba :=
  if inside img x y then img_pixel img x y else (0, 0, 0, 0).

(** [0, 1, ..., n-1]. *)
Definition range (n : Z) : list Z := map Z.of_nat (seq 0 (Z.to_nat n)).

(** The coordinates that [ctx.getImageData(sx, sy, sw, sh)] reads, row by
    row; a negative extent selects the rectangle on the other side. *)
Definition rect (sx sy sw sh : Z) : list (Z * Z) :=
  let x0 := if sw <? 0 then sx + sw else sx in
  let y0 := if sh <? 0 then sy + sh else sy in
  flat_map (fun j => map (fun i => (x0 + i, y0 + j)) (range (Z.abs sw)))
           (range (Z.abs sh)).

Definition bytes_of (p : Rgba) : list Z :=
  let '(r, g, b, a) := p in [r; g; b; a].

(** [ctx.getImageData(sx, sy, sw, sh).data]: the RGBA bytes of the
    rectangle; [None] is the [IndexSizeError] of an empty rectangle. *)
Definition getImageData (img : Raster) (sx sy sw sh : Z) : option (list Z) :=
  if (sw =? 0) || (sh =? 0) then None
  else Some (flat_map (fun xy => bytes_of (pixel_at img (fst xy) (snd xy)))
                      (rect sx sy sw sh)).

(** [canvas.width = v] (and [canvas.height = v]): what the canvas keeps
    of the number [v].  The attribute is an unsigned long: [NaN] and the
    infinities become 0, any other number loses its fraction and is taken
    modulo 2^32; a value from 2^31 on is replaced by the default of the
    attribute (300 for the width, 150 for the height). *)
Definition dimension (v : Double.number) (default_ : Z) : Z :=
  match v with
  | Double.Finite x =>
      let t := if Qle_bool 0 x then Qfloor x else Qceiling x in
      let u := t mod 2 ^ 32 in
      if u <? 2 ^ 31 then u else default_
  | _ => 0
  end.

End Canvas.

(** [canvas.toBlob(..., 'image/jpeg', quality)] of the first version of
    utils.ts: the encoding of [blob_source] drawn on a canvas of
    [blob_width] by [blob_height]. *)
Record Blob : Type := mkBlob {
  blob_width : Z;
  blob_height : Z;
  blob_quality : Q;
  blob_source : Raster
}.

(** ** Shared objects

    The caller's palette is an array of references to colour objects, and
    each colour object refers to its [rgb] array.  [formatPaletteForAPI]
    builds new objects that share the [rgb] arrays of the caller. *)

Definition loc : Type := positive.

Inductive HeapObj : Type :=
| NumArray (elems : list Z)                                      (* [r, g, b] *)
| ColorObj (color_id : string) (color_rgb : loc) (color_note : option string)
| RefArray (elems : list loc).                              (* PaletteColor[] *)

Abbreviation Heap := (gmap loc HeapObj).

(** ** Exceptions, requests and what an attempt lets the outside see *)

(** [error.response]: the status and the [detail] of the body, if any. *)
Record ErrResponse : Type := mkErrResponse {
  status : Z;
  detail : option string
}.

(** An error for which [axios.isAxiosError] holds. *)
Record AxiosError : Type := mkAxiosError {
  response : option ErrResponse;
  request : bool
}.

Inductive Exception : Type :=
| Error (message : string)     (* new Error(message) *)
| Axios (e : AxiosError)
| TypeError                    (* a property read on a value of the wrong shape *)
| Foreign (what : string).     (* anything else that was thrown *)

(** How a call ends: with a value, with an exception, or never (it awaits
    a promise that nothing settles). *)
Inductive Outcome (A : Type) : Type :=
| Returned (a : A)
| Thrown (e : Exception)
| Pending.
Arguments Returned {A} a.
Arguments Thrown {A} e.
Arguments Pending {A}.

(** The first argument of [formData.append('file', ...)]. *)
Inductive Upload : Type :=
| FileUpload (f : File)
| BlobUpload (b : Blob) (filename : string).

(** The multipart form posted to [/generate].  [form_palette] is the
    document that the text produced by [JSON.stringify] denotes. *)
Record FormData : Type := mkFormData {
  form_file : Upload;
  form_palette : JS.Json;
  form_threshold : string
}.

(** What [axios.post] comes back with. *)
Inductive PostResult : Type :=
| Posted (data : gmap string JS.Json)    (* a 2xx response and its body *)
| PostFailed (e : Exception).

(** One [progressEvent] of the upload. *)
Record ProgressEvent : Type := mkProgressEvent {
  loaded : Z;
  total : option Z
}.

(** The remote service and the transport, as seen from the client. *)
Record Server : Type := mkServer {
  upload_events : FormData -> list ProgressEvent;
  answer : FormData -> PostResult
}.

(** What can be observed of one attempt, in order of occurrence. *)
Inductive Event : Type :=
| Requested (form : FormData)     (* the request leaves *)
| Answered                        (* a success response has arrived *)
| Progress (percent : Q).         (* onProgress(percent) *)

Record World : Type := mkWorld {
  heap : Heap;
  trace : list Event
}.

(** ** Computations that read and allocate shared objects, emit events and
    may throw *)

Module Eff.

Definition Js (A : Type) : Type := World -> Outcome A * World.


Definition ret {A} (a : A) : Js A := fun w => (Returned a, w).

Definition throw {A} (e : Exception) : Js A := fun w => (Thrown e, w).

Definition bind {A B} (m : Js A) (k : A -> Js B) : Js B :=
  fun w =>
    match m w with
    | (Returned a, w') => k a w'
    | (Thrown e, w') => (Thrown e, w')
    | (Pending, w') => (Pending, w')
    end.

(** [try { m } catch (error) { handler(error) }]. *)
Definition try_catch {A} (m : Js A) (handler : Exception -> Js A) : Js A :=
  fun w =>
    match m w with
    | (Returned a, w') => (Returned a, w')
    | (Thrown e, w') => handler e w'
    | (Pending, w') => (Pending, w')
    end.

(** [await p]. *)
Definition await {A} (p : Settled A) : Js A :=
  fun w =>
    match p with
    | Resolved a => (Returned a, w)
    | Rejected message => (Thrown (Error message), w)
    | NeverSettles => (Pending, w)
    end.

Definition emit (e : Event) : Js unit :=
  fun w => (Returned tt, mkWorld (heap w) (trace w ++ [e])).

(** Reading a reference. *)
Definition deref (l : loc) : Js HeapObj :=
  fun w =>
    match heap w !! l with
    | Some o => (Returned o, w)
    | None => (Thrown TypeError, w)
    end.

(** A new object: an object or array literal, or the array of [map]. *)
Definition alloc (o : HeapObj) : Js loc :=
  fun w =>
    let l := fresh (dom (heap w)) in
    (Returned l, mkWorld (<[l := o]> (heap w)) (trace w)).

End Eff.

Notation "x <- m ;; k" := (Eff.bind m (fun x => k))
  (at level 100, m at next level, right associativity).
Notation "m ;;; k" := (Eff.bind m (fun _ => k))
  (at level 100, right associativity).

Module Store.

Fixpoint mapM {A B} (f : A -> Eff.Js B) (l : list A) : Eff.Js (list B) :=
  match l with
  | [] => Eff.ret []
  | a :: rest => b <- f a ;; bs <- mapM f rest ;; Eff.ret (b :: bs)
  end.

(** [palette] as an array of colour objects. *)
Definition read_array (arr : loc) : Eff.Js (list loc) :=
  o <- Eff.deref arr ;;
  match o with
  | RefArray elems => Eff.ret elems
  | _ => Eff.throw TypeError
  end.

(** The fields of one colour object. *)
Definition read_color (c : loc) : Eff.Js (string * loc * option string) :=
  o <- Eff.deref c ;;
  match o with
  | ColorObj i r n => Eff.ret (i, r, n)
  | _ => Eff.throw TypeError
  end.

Definition read_numbers (arr : loc) : Eff.Js (list Z) :=
  o <- Eff.deref arr ;;
  match o with
  | NumArray ns => Eff.ret ns
  | _ => Eff.throw TypeError
  end.

(** [JSON.stringify] of one colour object: its own properties in the
    order of creation; a property whose value is [undefined] is left out. *)
Definition stringify_color (c : loc) : Eff.Js JS.Json :=
  fields <- read_color c ;;
  let '(i, r, n) := fields in
  ns <- read_numbers r ;;
  Eff.ret (JS.JObj ([("id", JS.JStr i); ("rgb", JS.JArr (map JS.JNum ns))]
                    ++ match n with
                       | Some t => [("note", JS.JStr t)]
                       | None => []
                       end)).

(** [JSON.stringify] of an array of colour objects. *)
Definition stringify (arr : loc) : Eff.Js JS.Json :=
  elems <- read_array arr ;;
  items <- mapM stringify_color elems ;;
  Eff.ret (JS.JArr items).

(** [axios.post(url, formData, { onUploadProgress })]: the request leaves,
    the upload progress events are delivered to the callback, if there is
    one, and the call returns the body of a 2xx response or throws. *)
Definition axios_post (server : Server) (formData : FormData)
    (onUploadProgress : option (ProgressEvent -> Eff.Js unit))
  : Eff.Js (gmap string JS.Json) :=
  Eff.emit (Requested formData) ;;;
  match onUploadProgress with
  | Some callback => mapM callback (upload_events server formData)
  | None => Eff.ret []
  end ;;;
  match answer server formData with
  | Posted data => Eff.emit Answered ;;; Eff.ret data
  | PostFailed e => Eff.throw e
  end.

End Store.

(** ** utils.ts, version 2.0 *)

Module UtilsV2.

(** [CompressionOptions]: finite numbers; an absent option takes its
    default. *)
Record CompressionOptions : Type := mkOptions {
  maxWidth : option Q;
  maxHeight : option Q;
  quality : option Q
}.

Definition no_options : CompressionOptions := mkOptions None None None.

(** The result of [compressImage]: the JPEG encoding, at [out_quality], of
    [out_source] drawn on a canvas of [out_width] by [out_height]. *)
Record CompressedFile : Type := mkCompressedFile {
  out_name : string;
  out_width : Z;
  out_height : Z;
  out_quality : Q;
  out_source : Raster
}.

(** "Calculate new dimensions" in [img.onload] of [compressImage]: the
    values of [width] and [height] afterwards.  ([img.width] and
    [img.height] are unsigned longs, which a number holds exactly.) *)
Definition new_dimensions (maxWidth maxHeight : Q) (img_w img_h : Z)
  : Double.number * Double.number :=
  let width := Double.of_Z img_w in
  let height := Double.of_Z img_h in
  if Double.gt width (Double.Finite maxWidth)
     || Double.gt height (Double.Finite maxHeight) then
    let ratio := Double.min (Double.div (Double.Finite maxWidth) width)
                            (Double.div (Double.Finite maxHeight) height) in
    (Double.round (Double.mul width ratio),
     Double.round (Double.mul height ratio))
  else (width, height).

Definition has_dot (s : string) : bool :=
  existsb (Ascii.eqb ".") (list_ascii_of_string s).

(** [name.replace(/\.[^.]+$/, '.jpg')]: the last dot and what follows it,
    when something follows it, become [.jpg]. *)
Fixpoint replace_extension (name : string) : string :=
  match name with
  | EmptyString => EmptyString
  | String c rest =>
      if Ascii.eqb c "." && negb (String.eqb rest "") && negb (has_dot rest)
      then ".jpg"
      else String c (replace_extension rest)
  end.

(** [compressImage(file, options)]. *)
Definition compressImage (browser : Browser) (file : File)
    (options : CompressionOptions) : Settled CompressedFile :=
  let maxW := default 1200%Q (maxWidth options) in
  let maxH := default 1200%Q (maxHeight options) in
  let q := default (85 # 100)%Q (quality options) in
  match file_body file with
  | Unreadable => Rejected "Could not read file"
  | NotAnImage => Rejected "Could not load image"
  | Picture img =>
      let '(width, height) :=
        new_dimensions maxW maxH (img_width img) (img_height img) in
      let canvas_width := Canvas.dimension width 300 in
      let canvas_height := Canvas.dimension height 150 in
      if negb (context2d browser) then Rejected "Could not get canvas context"
      else if negb (encodes browser)
              || (canvas_width =? 0) || (canvas_height =? 0)
      then Rejected "Could not compress image"
      else Resolved (mkCompressedFile (replace_extension (file_name file))
                                      canvas_width canvas_height q img)
  end.

(** The averaging loop of [extractColorFromImage]:
    [for (i = 0; i < data.length; i += 4)] adds up red, green and blue and
    counts the pixels. *)
Fixpoint sum_pixels (data : list Z) (acc : Z * Z * Z * Z) : Z * Z * Z * Z :=
  match data with
  | r' :: g' :: b' :: _ :: rest =>
      let '(r, g, b, count) := acc in
      sum_pixels rest (r + r', g + g', b + b', count + 1)
  | _ => acc
  end.

(** [Math.round(total / count)]. *)
Definition average (total count : Z) : Z :=
  JS.Math_round (inject_Z total / inject_Z count).

(** The rectangle passed to [getImageData]: [(startX, startY, endX, endY)]. *)
Definition sample_window (img : Raster) (centerX centerY sampleSize : Z)
  : Z * Z * Z * Z :=
  let halfSample := sampleSize / 2 in
  (Z.max 0 (centerX - halfSample),
   Z.max 0 (centerY - halfSample),
   Z.min (img_width img) (centerX + halfSample),
   Z.min (img_height img) (centerY + halfSample)).

(** [extractColorFromImage(file, x, y, sampleSize)]; [sampleSize] is 10
    when the caller leaves it out. *)
Definition extractColorFromImage (browser : Browser) (file : File)
    (x y : option Z) (sampleSize : Z) : Settled Rgb :=
  match file_body file with
  | Unreadable => Rejected "Could not read file"
  | NotAnImage => Rejected "Could not load image"
  | Picture img =>
      if negb (context2d browser) then Rejected "Could not get canvas context"
      else
        let centerX := default (img_width img / 2) x in
        let centerY := default (img_height img / 2) y in
        let '(startX, startY, endX, endY) :=
          sample_window img centerX centerY sampleSize in
        match Canvas.getImageData img startX startY
                                  (endX - startX) (endY - startY) with
        | None => NeverSettles
        | Some data =>
            let '(r, g, b, count) := sum_pixels data (0, 0, 0, 0) in
            Resolved (average r count, average g count, average b count)
        end
  end.

(** [formatPaletteForAPI(palette)]: [palette.map] builds one new object per
    colour, with [note] defaulted to the empty string, and
    [JSON.stringify] reads the new array. *)
Definition formatPaletteForAPI (palette : loc) : Eff.Js JS.Json :=
  elems <- Store.read_array palette ;;
  formatted <- Store.mapM
      (fun color =>
         fields <- Store.read_color color ;;
         let '(i, r, n) := fields in
         Eff.alloc (ColorObj i r (Some (JS.str_or_else n ""))))
      elems ;;
  arr <- Eff.alloc (RefArray formatted) ;;
  Store.stringify arr.

(** [GenerationResult] as [generatePaintByNumber] builds it. *)
Record GenerationResult : Type := mkResult {
  success : JS.Json;
  preview : JS.Json;
  template : JS.Json;
  templateSvg : JS.Json;
  colorKey : JS.Json;
  dimensions : JS.Json;
  regionCount : JS.Json;
  colorsUsed : JS.Json
}.

(** "Map response to our interface": the object literal returned after a
    successful post. *)
Definition map_response (data : gmap string JS.Json) : GenerationResult :=
  {| success := JS.prop data "success";
     preview := JS.prop data "preview";
     template := JS.prop data "template";
     templateSvg :=
       JS.or_else (JS.prop data "template_svg") (JS.prop data "templateSvg");
     colorKey :=
       JS.or_else (JS.prop data "color_key") (JS.prop data "colorKey");
     dimensions := JS.prop data "dimensions";
     regionCount :=
       JS.or_else (JS.prop data "region_count")
                  (JS.or_else (JS.prop data "regionCount") (JS.JNum 0));
     colorsUsed :=
       JS.or_else (JS.prop data "colors_used")
                  (JS.or_else (JS.prop data "colorsUsed") (JS.JNum 0)) |}.

(** The [catch] block: what is thrown in place of [error]. *)
Definition map_error (error : Exception) : Exception :=
  match error with
  | Axios axiosError =>
      match response axiosError with
      | Some r =>
          let detail := JS.str_or_else (detail r) "Unknown error" in
          if status r =? 400 then Error ("Invalid request: " +:+ detail)
          else if status r =? 413 then
            Error "Image file is too large. Maximum size is 10MB."
          else if status r =? 415 then
            Error "Unsupported file type. Use PNG, JPEG, or WEBP."
          else if status r =? 500 then Error ("Server error: " +:+ detail)
          else Error ("Request failed (" +:+ JS.int_toString (status r)
                      +:+ "): " +:+ detail)
      | None =>
          if request axiosError then
            Error "Could not connect to server. Please check your internet connection."
          else error
      end
  | _ => error
  end.

(** [generatePaintByNumber(file, palette, complexity)]; [file] is [None]
    for a falsy argument, [complexity] is 50 when the caller leaves it out. *)
Definition generatePaintByNumber (server : Server) (file : option File)
    (palette : loc) (complexity : Z) : Eff.Js GenerationResult :=
  match file with
  | None => Eff.throw (Error "No image file provided")
  | Some f =>
      elems <- Store.read_array palette ;;
      if (Z.of_nat (length elems) <? 2) then
        Eff.throw (Error "Palette must have at least 2 colors")
      else if (complexity <? 1) || (complexity >? 100) then
        Eff.throw (Error "Complexity must be between 1 and 100")
      else
        json <- formatPaletteForAPI palette ;;
        let formData :=
          mkFormData (FileUpload f) json (JS.int_toString complexity) in
        Eff.try_catch
          (data <- Store.axios_post server formData None ;;
           Eff.ret (map_response data))
          (fun error => Eff.throw (map_error error))
  end.

(** [rgbToHex(rgb)]. *)
Definition rgbToHex (rgb : Rgb) : string :=
  let '(r, g, b) := rgb in
  "#" +:+ String.concat ""
            (map (fun c => JS.padStart 2 "0" (JS.int_toString16 c)) [r; g; b]).

(** The class [[a-f\d]] under the flag [i]. *)
Definition is_hex_digit (c : ascii) : bool :=
  let n := N_of_ascii c in
  ((48 <=? n) && (n <=? 57) || (97 <=? n) && (n <=? 102)
   || (65 <=? n) && (n <=? 70))%N.

Definition hex_value (c : ascii) : Z :=
  let n := Z.of_N (N_of_ascii c) in
  if n <=? 57 then n - 48 else if n <=? 70 then n - 55 else n - 87.

(** [/^#?([a-f\d]{2})([a-f\d]{2})([a-f\d]{2})$/i.exec(hex)]: the three
    groups, or [None] for [null]. *)
Definition hex_pattern_exec (hex : string) : option (string * string * string) :=
  let digits :=
    match hex with
    | String "#"%char rest => rest
    | _ => hex
    end in
  match list_ascii_of_string digits with
  | [a; b; c; d; e; f] =>
      if forallb is_hex_digit [a; b; c; d; e; f]
      then Some (string_of_list_ascii [a; b],
                 string_of_list_ascii [c; d],
                 string_of_list_ascii [e; f])
      else None
  | _ => None
  end.

(** [parseInt(s, 16)] on a string that starts with a digit or a letter:
    the value of the longest prefix of hexadecimal digits, [NaN] when that
    prefix is empty.  (The groups of [hex_pattern_exec] never start with
    white space, a sign or [0x].) *)
Fixpoint parse_hex_prefix (s : string) (acc : JS.Number) : JS.Number :=
  match s with
  | String c rest =>
      if is_hex_digit c then
        parse_hex_prefix rest
          (JS.Int (16 * match acc with JS.Int n => n | JS.NaN => 0 end
                   + hex_value c))
      else acc
  | EmptyString => acc
  end.

Definition parseInt16 (s : string) : JS.Number := parse_hex_prefix s JS.NaN.

(** [hexToRgb(hex)]. *)
Definition hexToRgb (hex : string)
  : Outcome (JS.Number * JS.Number * JS.Number) :=
  match hex_pattern_exec hex with
  | None => Thrown (Error "Invalid hex color")
  | Some (g1, g2, g3) => Returned (parseInt16 g1, parseInt16 g2, parseInt16 g3)
  end.

(** The candidates of the first loop of [generateColorId],
    [i.toString()] for [i = 1..99]. *)
Definition numerals : list string := map JS.nat_toString (seq 1 99).

(** The candidates of the second loop, the characters of
    ['ABCDEFGHIJKLMNOPQRSTUVWXYZ'] in order. *)
Definition letters : list string :=
  map (fun c => String c EmptyString)
      (list_ascii_of_string "ABCDEFGHIJKLMNOPQRSTUVWXYZ").

(** One [for] loop of [generateColorId]: return the first candidate that
    [existingIds] does not include, or fall through. *)
Definition first_free (existingIds candidates : list string) : option string :=
  find (fun candidate => negb (JS.includes existingIds candidate)) candidates.

(** [generateColorId(existingIds)].  [random_token] is the value of
    [Math.random().toString(36).substring(2, 5).toUpperCase()], which the
    source evaluates on its last line only. *)
Definition generateColorId (random_token : string) (existingIds : list string)
  : string :=
  match first_free existingIds numerals with
  | Some numeral => numeral
  | None =>
      match first_free existingIds letters with
      | Some letter => letter
      | None => random_token
      end
  end.

End UtilsV2.

(** ** utils.ts, first version *)

Module UtilsV1.

(** The points that the two nested loops of [extractColorFromImage] read:
    for [dy] and [dx] from [-halfSize] to [halfSize], both included, the
    point [(sampleX + dx, sampleY + dy)] moved onto the image. *)
Definition offsets (halfSize : Z) : list Z :=
  map (fun k => k - halfSize) (Canvas.range (2 * halfSize + 1)).

Definition sample_points (img : Raster) (sampleX sampleY halfSize : Z)
  : list (Z * Z) :=
  flat_map
    (fun dy =>
       map (fun dx =>
              (Z.max 0 (Z.min (sampleX + dx) (img_width img - 1)),
               Z.max 0 (Z.min (sampleY + dy) (img_height img - 1))))
           (offsets halfSize))
    (offsets halfSize).

(** One turn of the inner loop: read one pixel and add it to the totals. *)
Definition add_sample (img : Raster) (acc : Z * Z * Z * Z) (p : Z * Z)
  : Z * Z * Z * Z :=
  let '(totalR, totalG, totalB, count) := acc in
  match Canvas.getImageData img (fst p) (snd p) 1 1 with
  | Some (r :: g :: b :: _) => (totalR + r, totalG + g, totalB + b, count + 1)
  | _ => acc
  end.

(** [extractColorFromImage(imageFile, x, y)]. *)
Definition extractColorFromImage (browser : Browser) (imageFile : File)
    (x y : option Z) : Settled Rgb :=
  match file_body imageFile with
  | Unreadable => Rejected "Failed to read file"
  | NotAnImage => Rejected "Failed to load image"
  | Picture img =>
      if negb (context2d browser) then Rejected "Canvas context not available"
      else
        let sampleX := default (img_width img / 2) x in
        let sampleY := default (img_height img / 2) y in
        let sampleSize := 10 in
        let halfSize := sampleSize / 2 in
        let '(totalR, totalG, totalB, count) :=
          fold_left (add_sample img)
                    (sample_points img sampleX sampleY halfSize) (0, 0, 0, 0) in
        Resolved (UtilsV2.average totalR count,
                  UtilsV2.average totalG count,
                  UtilsV2.average totalB count)
  end.

(** "Calculate new dimensions" in [compressImage]: the values assigned to
    [canvas.width] and [canvas.height]. *)
Definition new_dimensions (maxDimension : Q) (img_w img_h : Z)
  : Double.number * Double.number :=
  let width := Double.of_Z img_w in
  let height := Double.of_Z img_h in
  let bound := Double.Finite maxDimension in
  if Double.gt width height && Double.gt width bound then
    (bound, Double.mul (Double.div height width) bound)
  else if Double.gt height bound then
    (Double.mul (Double.div width height) bound, bound)
  else (width, height).

(** [compressImage(file, maxDimension, quality)]; [maxDimension] is a
    finite number; the defaults are 1200 and 0.8. *)
Definition compressImage (browser : Browser) (file : File)
    (maxDimension : Q) (quality : Q) : Settled Blob :=
  match file_body file with
  | Unreadable => Rejected "Failed to read file"
  | NotAnImage => Rejected "Failed to load image"
  | Picture img =>
      if negb (context2d browser) then Rejected "Canvas context not available"
      else
        let '(width, height) :=
          new_dimensions maxDimension (img_width img) (img_height img) in
        let canvas_width := Canvas.dimension width 300 in
        let canvas_height := Canvas.dimension height 150 in
        if encodes browser && negb (canvas_width =? 0)
           && negb (canvas_height =? 0)
        then Resolved (mkBlob canvas_width canvas_height quality img)
        else Rejected "Compression failed"
  end.

(** [onProgress?.(percent)]. *)
Definition report (onProgress : bool) (percent : Q) : Eff.Js unit :=
  if onProgress then Eff.emit (Progress percent) else Eff.ret tt.

(** The [onUploadProgress] callback of [generatePaintByNumber]. *)
Definition onUploadProgress (onProgress : bool) (progressEvent : ProgressEvent)
  : Eff.Js unit :=
  match total progressEvent with
  | Some t =>
      if t =? 0 then Eff.ret tt
      else report onProgress
             (30 + (inject_Z (loaded progressEvent) / inject_Z t) * 40)%Q
  | None => Eff.ret tt
  end.

(** [generatePaintByNumber(imageFile, palette, threshold, onProgress)];
    [onProgress] tells whether the caller passed a callback, and a callback
    records the value it is given. *)
Definition generatePaintByNumber (browser : Browser) (server : Server)
    (imageFile : File) (palette : loc) (threshold : Z) (onProgress : bool)
  : Eff.Js (gmap string JS.Json) :=
  Eff.try_catch
    (report onProgress 10 ;;;
     compressedImage <- Eff.await (compressImage browser imageFile 1200 (8 # 10)) ;;
     report onProgress 20 ;;;
     json <- Store.stringify palette ;;
     let formData :=
       mkFormData (BlobUpload compressedImage (file_name imageFile)) json
                  (JS.int_toString threshold) in
     report onProgress 30 ;;;
     data <- Store.axios_post server formData
               (Some (onUploadProgress onProgress)) ;;
     report onProgress 100 ;;;
     Eff.ret data)
    (fun error =>
       match error with
       | Axios e =>
           Eff.throw
             (Error (JS.str_or_else
                       (match response e with
                        | Some r => detail r
                        | None => None
                        end)
                       "Failed to generate paint-by-number"))
       | _ => Eff.throw error
       end).

(** [rgbToHex(rgb)]. *)
Definition rgbToHex (rgb : Rgb) : string :=
  let '(r, g, b) := rgb in
  "#" +:+ JS.slice_from 1
            (JS.int_toString16
               (JS.shift_left 1 24 + JS.shift_left r 16 + JS.shift_left g 8 + b)).

End UtilsV1.

(** ** PaintLab.tsx: the palette of the component

    The component never changes a palette in place: every handler builds a
    new array and hands it to [onPaletteChange], so a palette is a value
    here and a handler maps the current palette to the next one. *)

Module PaintLab.

(** The palette after [scanColor].  [photo] is the captured image as a
    file, [None] when the camera gives none; a failure is caught and
    leaves the palette as it is.  The colour comes from
    [extractColorFromImage(file)] of the first utils.ts, the one whose
    exports the component imports; the id does not depend on it. *)
Definition scanColor (browser : Browser) (photo : option File)
    (palette : list PaletteColor) : list PaletteColor :=
  match photo with
  | None => palette
  | Some file =>
      match UtilsV1.extractColorFromImage browser file None None with
      | Resolved rgb =>
          let newColor :=
            mkColor (JS.nat_toString (length palette + 1)) rgb (Some "") in
          palette ++ [newColor]
      | _ => palette
      end
  end.

(** The palette after [addManualColor]. *)
Definition addManualColor (palette : list PaletteColor) : list PaletteColor :=
  let newColor :=
    mkColor (JS.nat_toString (length palette + 1)) (128, 128, 128) (Some "") in
  palette ++ [newColor].

(** The palette after [removeColor(id)]. *)
Definition removeColor (id0 : string) (palette : list PaletteColor)
  : list PaletteColor :=
  List.filter (fun c => negb (String.eqb (id c) id0)) palette.

(** The palette after [updateColorNote(id, note)]. *)
Definition updateColorNote (id0 note0 : string) (palette : list PaletteColor)
  : list PaletteColor :=
  map (fun c => if String.eqb (id c) id0
                then mkColor (id c) (rgb c) (Some note0) else c)
      palette.

(** White space and line terminators among the 8-bit characters: TAB, LF,
    VT, FF, CR, SP and NBSP. *)
Definition is_white_space (c : ascii) : bool :=
  let n := N_of_ascii c in
  ((9 <=? n) && (n <=? 13) || (n =? 32) || (n =? 160))%N.

Fixpoint trim_start (s : string) : string :=
  match s with
  | String c rest => if is_white_space c then trim_start rest else s
  | EmptyString => s
  end.

(** [parseInt(s, 16)] on any string: leading white space is skipped, then
    a sign and a prefix [0x] or [0X] are taken off, and the longest prefix
    of hexadecimal digits of what is left is read; [NaN] when that prefix
    is empty. *)
Definition parseInt16 (s : string) : JS.Number :=
  let s1 := trim_start s in
  let '(negative, s2) :=
    match s1 with
    | String "-"%char rest => (true, rest)
    | String "+"%char rest => (false, rest)
    | _ => (false, s1)
    end in
  let s3 :=
    match s2 with
    | String "0"%char (String "x"%char rest) => rest
    | String "0"%char (String "X"%char rest) => rest
    | _ => s2
    end in
  match UtilsV2.parse_hex_prefix s3 JS.NaN with
  | JS.Int n => JS.Int (if negative then - n else n)
  | JS.NaN => JS.NaN
  end.

(** The palette after [updateColorRgb(id, hex)].  [None] stands for the
    outcome in which one of the three channels read from [hex] is [NaN],
    a value that [Rgb] does not hold. *)
Definition updateColorRgb (id0 hex : string) (palette : list PaletteColor)
  : option (list PaletteColor) :=
  match parseInt16 (JS.slice 1 3 hex), parseInt16 (JS.slice 3 5 hex),
        parseInt16 (JS.slice 5 7 hex) with
  | JS.Int r, JS.Int g, JS.Int b =>
      Some (map (fun c => if String.eqb (id c) id0
                          then mkColor (id c) (r, g, b) (note c) else c)
                palette)
  | _, _, _ => None
  end.

End PaintLab.

(** ** utils.ts, version 2.0: the other endpoints *)

Module Api.

(** The form posted to [/analyze]. *)
Record AnalyzeForm : Type := mkAnalyzeForm {
  analyze_file : File;
  analyze_palette : JS.Json
}.

(** The form posted to [/generate/svg]. *)
Record SvgForm : Type := mkSvgForm {
  svg_file : File;
  svg_palette : JS.Json;
  svg_threshold : string;
  svg_show_numbers : string;
  svg_fill_regions : string
}.

(** What [axios.post] with [responseType: 'blob'] comes back with; the
    blob is given by its text. *)
Inductive BlobResult : Type :=
| BlobPosted (svg : string)
| BlobFailed (e : Exception).

(** The other endpoints of the service, as seen from the client.  (The
    trace of a [World] records the traffic of [/generate] only; what is
    posted to these endpoints is the argument of the functions.) *)
Record Endpoints : Type := mkEndpoints {
  analyze : AnalyzeForm -> PostResult;      (* POST /analyze *)
  generate_svg : SvgForm -> BlobResult;     (* POST /generate/svg *)
  health : PostResult                       (* GET / *)
}.

(** [v?.key] for a key that no array, string, number or boolean has:
    the field of an object, [undefined] for everything else.  (The fields
    of a parsed object have distinct keys.) *)
Definition optional_member (v : JS.Json) (key : string) : JS.Json :=
  match v with
  | JS.JObj fields =>
      match List.find (fun kv => String.eqb (fst kv) key) fields with
      | Some kv => snd kv
      | None => JS.JUndefined
      end
  | _ => JS.JUndefined
  end.

Record QualityMetrics : Type := mkQualityMetrics {
  averageColorDistance : JS.Json;
  maxColorDistance : JS.Json;
  paletteFitScore : JS.Json
}.

Record AnalysisResult : Type := mkAnalysisResult {
  success : JS.Json;
  imageDimensions : JS.Json;
  paletteCoverage : JS.Json;
  qualityMetrics : QualityMetrics;
  recommendations : JS.Json
}.

(** The object literal that [analyzeImage] returns for [response.data]. *)
Definition map_analysis (data : gmap string JS.Json) : AnalysisResult :=
  let quality_metrics := JS.prop data "quality_metrics" in
  mkAnalysisResult
    (JS.prop data "success")
    (JS.prop data "image_dimensions")
    (JS.prop data "palette_coverage")
    (mkQualityMetrics
       (optional_member quality_metrics "average_color_distance")
       (optional_member quality_metrics "max_color_distance")
       (optional_member quality_metrics "palette_fit_score"))
    (JS.or_else (JS.prop data "recommendations") (JS.JArr [])).

(** [(error.response?.data as any)?.detail || 'Analysis failed']. *)
Definition analysis_detail (e : AxiosError) : string :=
  JS.str_or_else
    (match response e with
     | Some r => detail r
     | None => None
     end)
    "Analysis failed".

(** [analyzeImage(file, palette)]; [file] is [None] for a falsy
    argument. *)
Definition analyzeImage (api : Endpoints) (file : option File) (palette : loc)
  : Eff.Js AnalysisResult :=
  match file with
  | None => Eff.throw (Error "No image file provided")
  | Some f =>
      elems <- Store.read_array palette ;;
      if (Z.of_nat (length elems) <? 2) then
        Eff.throw (Error "Palette must have at least 2 colors")
      else
        json <- UtilsV2.formatPaletteForAPI palette ;;
        let formData := mkAnalyzeForm f json in
        Eff.try_catch
          (match analyze api formData with
           | Posted data => Eff.ret (map_analysis data)
           | PostFailed e => Eff.throw e
           end)
          (fun error =>
             match error with
             | Axios e => Eff.throw (Error (analysis_detail e))
             | _ => Eff.throw error
             end)
  end.

(** [b.toString()] for a boolean. *)
Definition bool_toString (b : bool) : string :=
  if b then "true" else "false".

(** [downloadSVGTemplate(file, palette, complexity, showNumbers,
    fillRegions)]; an argument that the caller leaves out is [None]. *)
Definition downloadSVGTemplate (api : Endpoints) (file : File) (palette : loc)
    (complexity : option Z) (showNumbers fillRegions : option bool)
  : Eff.Js string :=
  json <- UtilsV2.formatPaletteForAPI palette ;;
  let formData :=
    mkSvgForm file json
      (JS.int_toString (default 50 complexity))
      (bool_toString (default true showNumbers))
      (bool_toString (default false fillRegions)) in
  Eff.try_catch
    (match generate_svg api formData with
     | BlobPosted svg => Eff.ret svg
     | BlobFailed e => Eff.throw e
     end)
    (fun error =>
       match error with
       | Axios _ => Eff.throw (Error "SVG generation failed")
       | _ => Eff.throw error
       end).

(** [checkAPIHealth()]. *)
Definition checkAPIHealth (api : Endpoints) : Eff.Js (gmap string JS.Json) :=
  Eff.try_catch
    (match health api with
     | Posted data => Eff.ret data
     | PostFailed e => Eff.throw e
     end)
    (fun _ => Eff.throw (Error "API is not available")).

End Api.

(** ** Vocabulary of the statements *)

(** The decimal numeral of [i] and the [k]-th upper-case letter, as the
    identifiers the palette uses. *)
Definition numeral (i : nat) : string := JS.nat_toString i.

Definition letter (k : nat) : string :=
  String (ascii_of_nat (65 + k)) EmptyString.

(** Every numeral from 1 to [n] is in [l]. *)
Definition numerals_taken (n : nat) (l : list string) : Prop :=
  forall i, (1 <= i <= n)%nat -> In (numeral i) l.

(** Every letter before the [n]-th is in [l]. *)
Definition letters_taken (n : nat) (l : list string) : Prop :=
  forall k, (k < n)%nat -> In (letter k) l.

(** [l] holds the numerals from 1 to [n] and nothing else. *)
Definition exactly_numerals (n : nat) (l : list string) : Prop :=
  forall s, In s l <-> exists i, (1 <= i <= n)%nat /\ s = numeral i.

(** The requests that a trace shows, and the percentages it reports. *)
Definition requests (t : list Event) : list FormData :=
  flat_map (fun e => match e with Requested form => [form] | _ => [] end) t.

Definition reported (t : list Event) : list Q :=
  flat_map (fun e => match e with Progress p => [p] | _ => [] end) t.

(** The heap [h] holds the colour [c] at [l]: an object with the [id] and
    the [note] of [c] whose [rgb] field refers to the array of its three
    channels. *)
Definition color_at (h : Heap) (l : loc) (c : PaletteColor) : Prop :=
  exists r, h !! l = Some (ColorObj (id c) r (note c))
            /\ h !! r = Some (NumArray (let '(cr, cg, cb) := rgb c in [cr; cg; cb])).

(** The heap [h] holds at [palette] an array of the colours [colors], in
    this order. *)
Definition palette_at (h : Heap) (palette : loc) (colors : list PaletteColor)
  : Prop :=
  exists elems, h !! palette = Some (RefArray elems)
                /\ Forall2 (color_at h) elems colors.

(** The wire form of one colour, [{id, rgb, note}], without the [note]
    when the colour has none. *)
Definition color_json (c : PaletteColor) : JS.Json :=
  let '(cr, cg, cb) := rgb c in
  JS.JObj ([("id", JS.JStr (id c));
            ("rgb", JS.JArr [JS.JNum cr; JS.JNum cg; JS.JNum cb])]
           ++ match note c with
              | Some t => [("note", JS.JStr t)]
              | None => []
              end).

Definition palette_json (colors : list PaletteColor) : JS.Json :=
  JS.JArr (map color_json colors).

(** A colour with its [note] defaulted to the empty string. *)
Definition with_note (c : PaletteColor) : PaletteColor :=
  mkColor (id c) (rgb c) (Some (default "" (note c))).

(** The form that the complexity-slider flow posts for [file], a palette
    of [colors] and [complexity]. *)
Definition slider_form (file : File) (colors : list PaletteColor)
    (complexity : Z) : FormData :=
  mkFormData (FileUpload file) (palette_json (map with_note colors))
             (JS.int_toString complexity).

(** The computation [m] keeps every object that exists when it starts, and
    only adds events at the end of the trace. *)
Definition grows {A} (m : Eff.Js A) : Prop :=
  forall w, heap w ⊆ heap (snd (m w))
            /\ exists evs, trace (snd (m w)) = trace w ++ evs.

(** The text that an error message shows for the [detail] of an error
    response: the [detail] itself when the server sent a non-empty one, the
    given fallback otherwise. *)
Definition shown_detail (r : ErrResponse) (fallback text : string) : Prop :=
  (detail r = Some text /\ text <> "")
  \/ ((detail r = None \/ detail r = Some "") /\ text = fallback).

(** The percentages that the upload events stand for: 30 plus 40 times
    the fraction transferred, for every event that knows a non-zero total. *)
Definition upload_percents (evs : list ProgressEvent) : list Q :=
  flat_map
    (fun ev =>
       match total ev with
       | Some t =>
           if t =? 0 then []
           else [(30 + (inject_Z (loaded ev) / inject_Z t) * 40)%Q]
       | None => []
       end)
    evs.

(** The events of a list of percentages, for a caller that listens. *)
Definition progress_events (onProgress : bool) (percents : list Q) : list Event :=
  if onProgress then map Progress percents else [].

(** The progress events of one upload as the transport delivers them: the
    byte counts never decrease, every event names the same total, and no
    count is outside [0, total]. *)
Definition orderly_upload (evs : list ProgressEvent) : Prop :=
  StronglySorted (fun a b => loaded a <= loaded b /\ total a = total b) evs
  /\ Forall (fun ev => match total ev with
                       | Some t => 0 <= loaded ev <= t
                       | None => True
                       end) evs.

(** The form that the progress-reporting flow posts. *)
Definition progress_form (blob : Blob) (imageFile : File)
    (colors : list PaletteColor) (threshold : Z) : FormData :=
  mkFormData (BlobUpload blob (file_name imageFile)) (palette_json colors)
             (JS.int_toString threshold).

(** A hexadecimal digit, in either case. *)
Definition hexadecimal (c : ascii) : Prop :=
  In c (list_ascii_of_string "0123456789abcdefABCDEF").

(** A colour in hexadecimal notation: an optional [#] followed by exactly
    six hexadecimal digits. *)
Definition hex_color (s : string) : Prop :=
  exists body,
    (s = body \/ s = String "#" body)
    /\ String.length body = 6%nat
    /\ Forall hexadecimal (list_ascii_of_string body).

(** The two characters that [rgbToHex] writes for the channel value [c]
    are hexadecimal digits, and [parseInt] reads [c] back from them. *)
Definition channel_roundtrips (c : Z) : bool :=
  match list_ascii_of_string (JS.padStart 2 "0" (JS.int_toString16 c)) with
  | [a; b] =>
      UtilsV2.is_hex_digit a && UtilsV2.is_hex_digit b
      && match UtilsV2.parseInt16 (string_of_list_ascii [a; b]) with
         | JS.Int n => n =? c
         | JS.NaN => false
         end
  | _ => false
  end.

(** All 256 characters. *)
Definition all_ascii : list ascii := map ascii_of_nat (seq 0 256).

(** The channels of a pixel. *)
Definition chan_r (p : Rgba) : Z := let '(r, _, _, _) := p in r.
Definition chan_g (p : Rgba) : Z := let '(_, g, _, _) := p in g.
Definition chan_b (p : Rgba) : Z := let '(_, _, b, _) := p in b.

(** The sum of one channel of [img] over the points [pts]. *)
Definition channel_sum (chan : Rgba -> Z) (img : Raster) (pts : list (Z * Z)) : Z :=
  fold_right Z.add 0 (map (fun p => chan (img_pixel img (fst p) (snd p))) pts).

(** The arithmetic mean of each channel of [img] over [pts], rounded to the
    nearest integer. *)
Definition mean_color (img : Raster) (pts : list (Z * Z)) : Rgb :=
  let n := inject_Z (Z.of_nat (length pts)) in
  (JS.Math_round (inject_Z (channel_sum chan_r img pts) / n),
   JS.Math_round (inject_Z (channel_sum chan_g img pts) / n),
   JS.Math_round (inject_Z (channel_sum chan_b img pts) / n)).

(** The point [p] lies in the square of side [2 * half] around
    [(cx, cy)], from [cx - half] to [cx + half - 1], and in the image. *)
Definition in_window (img : Raster) (cx cy half : Z) (p : Z * Z) : Prop :=
  (Z.max 0 (cx - half) <= fst p < Z.min (img_width img) (cx + half))
  /\ (Z.max 0 (cy - half) <= snd p < Z.min (img_height img) (cy + half)).

(** The points of the square of side [side] whose first corner is
    [(x0, y0)]. *)
Definition square (x0 y0 side : Z) : list (Z * Z) :=
  flat_map (fun j => map (fun i => (x0 + i, y0 + j)) (Canvas.range side))
           (Canvas.range side).

(** The uniform scale factor of the image normaliser,
    [min(1, maxWidth / w, maxHeight / h)]. *)
Definition scale_of (maxWidth maxHeight w h : Q) : Q :=
  Qmin 1 (Qmin (maxWidth / w) (maxHeight / h)).

Definition scale (maxWidth maxHeight w h : Z) : Q :=
  scale_of (inject_Z maxWidth) (inject_Z maxHeight) (inject_Z w) (inject_Z h).

(** The integer [n] is a nearest integer of [x]. *)
Definition nearest (n : Z) (x : Q) : Prop :=
  (x - (1 # 2) <= inject_Z n /\ inject_Z n <= x + (1 # 2))%Q.

(** The string [s] has no dot. *)
Definition dotless (s : string) : Prop :=
  ~ In "."%char (list_ascii_of_string s).

(** Every channel of every pixel of [img] lies between [lo] and [hi]. *)
Definition channels_within (lo hi : Z) (img : Raster) : Prop :=
  forall x y,
    Canvas.inside img x y = true ->
    lo <= chan_r (img_pixel img x y) <= hi
    /\ lo <= chan_g (img_pixel img x y) <= hi
    /\ lo <= chan_b (img_pixel img x y) <= hi.

(** Every pixel of [img] has the colour [(r, g, b)]. *)
Definition uniform (r g b : Z) (img : Raster) : Prop :=
  forall x y,
    Canvas.inside img x y = true ->
    chan_r (img_pixel img x y) = r
    /\ chan_g (img_pixel img x y) = g
    /\ chan_b (img_pixel img x y) = b.

(** Each channel of [c] lies between [lo] and [hi]. *)
Definition rgb_within (lo hi : Z) (c : Rgb) : Prop :=
  let '(r, g, b) := c in lo <= r <= hi /\ lo <= g <= hi /\ lo <= b <= hi.

(** The lower-case form of a character and of a string. *)
Definition lower_case (c : ascii) : ascii :=
  let n := N_of_ascii c in
  if ((65 <=? n) && (n <=? 90))%N then ascii_of_N (n + 32) else c.

Fixpoint lower_case_string (s : string) : string :=
  match s with
  | EmptyString => EmptyString
  | String c rest => String (lower_case c) (lower_case_string rest)
  end.

(** The two hexadecimal digits [a], [b] read as a byte, and [rgbToHex]
    writes that byte as the lower-case forms of [a] and [b]. *)
Definition pair_normalizes (a b : ascii) : bool :=
  match UtilsV2.parseInt16 (String a (String b EmptyString)) with
  | JS.Int n =>
      (0 <=? n) && (n <=? 255)
      && String.eqb (JS.padStart 2 "0" (JS.int_toString16 n))
           (String (lower_case a) (String (lower_case b) EmptyString))
  | JS.NaN => false
  end.

(** Every colour of the palette has a note. *)
Definition noted (colors : list PaletteColor) : Prop :=
  Forall (fun c => exists t, note c = Some t) colors.

(** The hexadecimal digit of value [k] in front of [rest]. *)
Definition hex_digit (k : nat) (rest : Hexadecimal.uint) : Hexadecimal.uint :=
  match k with
  | 0%nat => Hexadecimal.D0 rest | 1%nat => Hexadecimal.D1 rest
  | 2%nat => Hexadecimal.D2 rest | 3%nat => Hexadecimal.D3 rest
  | 4%nat => Hexadecimal.D4 rest | 5%nat => Hexadecimal.D5 rest
  | 6%nat => Hexadecimal.D6 rest | 7%nat => Hexadecimal.D7 rest
  | 8%nat => Hexadecimal.D8 rest | 9%nat => Hexadecimal.D9 rest
  | 10%nat => Hexadecimal.Da rest | 11%nat => Hexadecimal.Db rest
  | 12%nat => Hexadecimal.Dc rest | 13%nat => Hexadecimal.Dd rest
  | 14%nat => Hexadecimal.De rest | _ => Hexadecimal.Df rest
  end.

(** The two digits of the byte [c]. *)
Definition byte_digits (c : Z) (rest : Hexadecimal.uint) : Hexadecimal.uint :=
  hex_digit (Z.to_nat (c / 16)) (hex_digit (Z.to_nat (c mod 16)) rest).

(** [rgbToHex] of utils.ts 2.0 writes the byte [c] as its two digits. *)
Definition byte_text_ok (c : Z) : bool :=
  String.eqb (JS.padStart 2 "0" (JS.int_toString16 c))
    (HexadecimalString.NilEmpty.string_of_uint (byte_digits c Hexadecimal.Nil)).

(** The two ways of reading two characters as a number agree. *)
Definition pair_parses_alike (a b : ascii) : bool :=
  match PaintLab.parseInt16 (String a (String b EmptyString)),
        UtilsV2.parseInt16 (String a (String b EmptyString)) with
  | JS.Int n, JS.Int m => n =? m
  | JS.NaN, JS.NaN => true
  | _, _ => false
  end.

(** Half the distance from 1 to the next number: 2^-53. *)
Definition unit_roundoff : Q := 1 # 9007199254740992.

(** The value of a binary64 datum of the Standard Library's description
    of IEEE 754 ([SpecFloat]), and the integer [n] as such a datum. *)
Definition ieee_value (f : spec_float) : Double.number :=
  match f with
  | S754_zero _ => Double.Finite 0
  | S754_infinity negative => Double.Infinite (negb negative)
  | S754_nan => Double.NaN
  | S754_finite negative m e =>
      Double.Finite ((if negative then - inject_Z (Z.pos m) else inject_Z (Z.pos m))
                     * 2 ^ e)%Q
  end.

Definition ieee_of_Z (n : Z) : spec_float := binary_normalize 53 1024 n 0 false.

(** Two numbers are the same number. *)
Definition same_number (a b : Double.number) : bool :=
  match a, b with
  | Double.Finite x, Double.Finite y => Qeq_bool x y
  | Double.Infinite p, Double.Infinite q => Bool.eqb p q
  | Double.NaN, Double.NaN => true
  | _, _ => false
  end.

(** [(a / b) * c] and [a * (b / c)] on integers, by [Double] and by
    [SpecFloat], give the same number. *)
Definition ieee_agrees (abc : Z * Z * Z) : bool :=
  let '(a, b, c) := abc in
  same_number
    (Double.mul (Double.div (Double.of_Z a) (Double.of_Z b)) (Double.of_Z c))
    (ieee_value (SFmul 53 1024 (SFdiv 53 1024 (ieee_of_Z a) (ieee_of_Z b))
                       (ieee_of_Z c)))
  && same_number
       (Double.mul (Double.of_Z a) (Double.div (Double.of_Z b) (Double.of_Z c)))
       (ieee_value (SFmul 53 1024 (ieee_of_Z a)
                          (SFdiv 53 1024 (ieee_of_Z b) (ieee_of_Z c)))).

(** The options with the integer bounds [maxWidth] and [maxHeight], where
    given. *)
Definition integer_options (maxWidth maxHeight : option Z) (quality : option Q)
  : UtilsV2.CompressionOptions :=
  UtilsV2.mkOptions (option_map inject_Z maxWidth) (option_map inject_Z maxHeight)
                    quality.

(** ** Concrete inputs for the examples *)

Module Sample.

Definition red : PaletteColor := mkColor "1" (255, 0, 0) None.
Definition blue : PaletteColor := mkColor "2" (0, 0, 255) (Some "sky").

(** A heap that holds the palette [[red; blue]] at location 5. *)
Definition heap2 : Heap :=
  <[5%positive := RefArray [2%positive; 4%positive]]>
    (<[4%positive := ColorObj "2" 3%positive (Some "sky")]>
       (<[3%positive := NumArray [0; 0; 255]]>
          (<[2%positive := ColorObj "1" 1%positive None]>
             (<[1%positive := NumArray [255; 0; 0]]> ∅)))).

Definition world2 : World := mkWorld heap2 [].

(** A heap that holds an empty palette at location 1. *)
Definition world0 : World := mkWorld (<[1%positive := RefArray []]> ∅) [].

(** A 2000 by 1000 picture of one colour. *)
Definition picture : Raster := mkRaster 2000 1000 (fun _ _ => (10, 20, 30, 255)).

Definition photo : File := mkFile "photo.png" (Picture picture).

Definition browser : Browser := mkBrowser true true.

(** A 20 by 20 picture, black except for two red columns, 5 and 15. *)
Definition striped : Raster :=
  mkRaster 20 20
    (fun x _ => if (x =? 5) || (x =? 15) then (121, 0, 0, 255) else (0, 0, 0, 255)).

Definition swatch : File := mkFile "color-sample.jpg" (Picture striped).

(** A 1001 by 2000 picture of one colour. *)
Definition tall : Raster := mkRaster 1001 2000 (fun _ _ => (10, 20, 30, 255)).

Definition portrait : File := mkFile "portrait.jpg" (Picture tall).

(** Three upload events of a body of 100 bytes. *)
Definition upload : list ProgressEvent :=
  [mkProgressEvent 0 (Some 100); mkProgressEvent 50 (Some 100);
   mkProgressEvent 100 (Some 100)].

(** A server that answers every request with [result], after the given
    upload events. *)
Definition server (events : list ProgressEvent) (result : PostResult) : Server :=
  mkServer (fun _ => events) (fun _ => result).

Definition refusal (code : Z) (text : string) : PostResult :=
  PostFailed (Axios (mkAxiosError (Some (mkErrResponse code (Some text))) true)).

(** A picture of one colour, [w] by [h]. *)
Definition plain (w h : Z) : File :=
  mkFile "plain.png" (Picture (mkRaster w h (fun _ _ => (10, 20, 30, 255)))).

(** Endpoints that give the same answers to every request. *)
Definition endpoints (analysis : PostResult) (svg : Api.BlobResult)
    (status : PostResult) : Api.Endpoints :=
  Api.mkEndpoints (fun _ => analysis) (fun _ => svg) status.

(** The failure of a request that got no response. *)
Definition unreachable : Exception := Axios (mkAxiosError None true).

End Sample.

(** How a counter of the result follows from the two spellings of its
    field in the response [data]: the value of whichever spelling is
    present; 0 when neither is; and when both are, the snake-case value
    unless it is 0, in which case the camel-case value. *)
Definition counter_rule (data : gmap string JS.Json) (snake camel : string)
    (value : JS.Json) : Prop :=
  (forall n, data !! snake = Some (JS.JNum n) -> data !! camel = None ->
             value = JS.JNum n)
  /\ (forall n, data !! snake = None -> data !! camel = Some (JS.JNum n) ->
                value = JS.JNum n)
  /\ (data !! snake = None -> data !! camel = None -> value = JS.JNum 0)
  /\ (forall n m, data !! snake = Some (JS.JNum n) ->
                  data !! camel = Some (JS.JNum m) ->
                  value = JS.JNum (if n =? 0 then m else n)).

(** * Identifier allocation *)

Section IdAllocation.

Import UtilsV2.

Lemma includes_In (l : list string) (x : string) :
  JS.includes l x = true <-> In x l.
Proof.
  unfold JS.includes. rewrite existsb_exists. split.
  - intros (y & Hy & Heq). apply String.eqb_eq in Heq. now subst.
  - intros H. exists x. split; [assumption | apply String.eqb_refl].
Qed.

Lemma includes_false (l : list string) (x : string) :
  JS.includes l x = false <-> ~ In x l.
Proof.
  rewrite <- includes_In. destruct (JS.includes l x); split; intros H;
    try reflexivity; try discriminate; try (intros ?; discriminate).
  exfalso. now apply H.
Qed.

(** The loop returns the candidate at position [n] when that one is free
    and all the earlier ones are taken. *)
Lemma first_free_at (taken : list string) (cands : list string) (n : nat) (c : string) :
  nth_error cands n = Some c ->
  ~ In c taken ->
  (forall m c', (m < n)%nat -> nth_error cands m = Some c' -> In c' taken) ->
  first_free taken cands = Some c.
Proof.
  unfold first_free. revert n. induction cands as [| c0 cands IH]; intros n Hn Hfree Hbefore.
  - destruct n; discriminate.
  - destruct n as [| n]; simpl in *.
    + injection Hn as ->. apply includes_false in Hfree. now rewrite Hfree.
    + assert (Hc0 : In c0 taken) by (apply (Hbefore 0%nat); [lia | reflexivity]).
      apply includes_In in Hc0. rewrite Hc0. simpl.
      apply (IH n); try assumption.
      intros m c' Hm Hc'. apply (Hbefore (S m)); [lia | exact Hc'].
Qed.

(** The loop falls through exactly when every candidate is taken. *)
Lemma first_free_none (taken cands : list string) :
  first_free taken cands = None <-> (forall c, In c cands -> In c taken).
Proof.
  unfold first_free. split.
  - intros H c Hc. pose proof (find_none _ _ H c Hc) as Hn.
    simpl in Hn. apply includes_In.
    destruct (JS.includes taken c); [reflexivity | discriminate Hn].
  - intros H. induction cands as [| c0 cands IH]; [reflexivity |].
    simpl. assert (Hc0 : In c0 taken) by (apply H; now left).
    apply includes_In in Hc0. rewrite Hc0. simpl.
    apply IH. intros c Hc. apply H. now right.
Qed.

Lemma first_free_sound (taken cands : list string) (c : string) :
  first_free taken cands = Some c -> In c cands /\ ~ In c taken.
Proof.
  unfold first_free. intros H. apply find_some in H as [Hin Hf].
  split; [assumption |]. simpl in Hf. apply includes_false.
  destruct (JS.includes taken c); [discriminate Hf | reflexivity].
Qed.

Lemma numerals_nth (i : nat) :
  (1 <= i <= 99)%nat -> nth_error numerals (i - 1) = Some (numeral i).
Proof.
  intros Hi. unfold numerals, numeral.
  rewrite nth_error_map, nth_error_seq.
  destruct (Nat.ltb_spec (i - 1) 99) as [_ | Hge]; [| lia].
  simpl. f_equal. f_equal. lia.
Qed.

Lemma numerals_nth_inv (m : nat) (c : string) :
  nth_error numerals m = Some c -> c = numeral (S m) /\ (m < 99)%nat.
Proof.
  intros H. assert (Hm : (m < 99)%nat).
  { assert (Hl : (m < length numerals)%nat) by (apply nth_error_Some; congruence).
    unfold numerals in Hl. now rewrite length_map, length_seq in Hl. }
  split; [| assumption].
  pose proof (numerals_nth (S m) ltac:(lia)) as E.
  replace (S m - 1)%nat with m in E by lia. congruence.
Qed.

Lemma letters_nth (k : nat) :
  (k < 26)%nat -> nth_error letters k = Some (letter k).
Proof.
  intros Hk. do 26 (destruct k as [| k]; [reflexivity |]). lia.
Qed.

Lemma letters_nth_inv (m : nat) (c : string) :
  nth_error letters m = Some c -> c = letter m /\ (m < 26)%nat.
Proof.
  intros H. assert (Hm : (m < 26)%nat).
  { change 26%nat with (length letters). apply nth_error_Some. congruence. }
  split; [| assumption]. rewrite (letters_nth m Hm) in H. congruence.
Qed.

Lemma In_numerals (c : string) :
  In c numerals <-> exists i, (1 <= i <= 99)%nat /\ c = numeral i.
Proof.
  unfold numerals, numeral. rewrite in_map_iff. split.
  - intros (i & <- & Hi). apply in_seq in Hi. exists i. split; [lia | reflexivity].
  - intros (i & Hi & ->). exists i. split; [reflexivity | apply in_seq; lia].
Qed.

Lemma In_letters (c : string) :
  In c letters <-> exists k, (k < 26)%nat /\ c = letter k.
Proof.
  split.
  - intros H. apply In_nth_error in H as [m Hm].
    apply letters_nth_inv in Hm as [-> Hlt]. now exists m.
  - intros (k & Hk & ->). eapply nth_error_In. now apply letters_nth.
Qed.

Lemma numeral_inj (i j : nat) : numeral i = numeral j -> i = j.
Proof.
  unfold numeral, JS.nat_toString. intros H.
  apply DecimalNat.Unsigned.to_uint_inj.
  assert (E : Some (Nat.to_uint i) = Some (Nat.to_uint j)).
  { rewrite <- !DecimalString.NilEmpty.usu. now rewrite H. }
  now injection E.
Qed.

Lemma numerals_all_taken (l : list string) :
  numerals_taken 99 l <-> (forall c, In c numerals -> In c l).
Proof.
  unfold numerals_taken. split.
  - intros H c Hc. apply In_numerals in Hc as (i & Hi & ->). now apply H.
  - intros H i Hi. apply H. apply In_numerals. now exists i.
Qed.

Lemma letters_all_taken (l : list string) :
  letters_taken 26 l <-> (forall c, In c letters -> In c l).
Proof.
  unfold letters_taken. split.
  - intros H c Hc. apply In_letters in Hc as (k & Hk & ->). now apply H.
  - intros H k Hk. apply H. apply In_letters. now exists k.
Qed.

(** First tier: the smallest free numeral is returned. *)
Lemma generateColorId_numeral (token : string) (l : list string) (i : nat) :
  (1 <= i <= 99)%nat -> ~ In (numeral i) l -> numerals_taken (i - 1) l ->
  generateColorId token l = numeral i.
Proof.
  intros Hi Hfree Hbefore. unfold generateColorId.
  rewrite (first_free_at l numerals (i - 1) (numeral i)); try reflexivity.
  - now apply numerals_nth.
  - assumption.
  - intros m c' Hm Hc'. apply numerals_nth_inv in Hc' as [-> _].
    apply Hbefore. lia.
Qed.

(** Second tier: with the 99 numerals taken, the first free letter is
    returned. *)
Lemma generateColorId_letter (token : string) (l : list string) (k : nat) :
  numerals_taken 99 l ->
  (k < 26)%nat -> ~ In (letter k) l -> letters_taken k l ->
  generateColorId token l = letter k.
Proof.
  intros Hnum Hk Hfree Hbefore. unfold generateColorId.
  rewrite (proj2 (first_free_none l numerals) (proj1 (numerals_all_taken l) Hnum)).
  rewrite (first_free_at l letters k (letter k)); try reflexivity.
  - now apply letters_nth.
  - assumption.
  - intros m c' Hm Hc'. apply letters_nth_inv in Hc' as [-> _]. now apply Hbefore.
Qed.

(** Third tier: the token is returned when nothing else is free. *)
Lemma generateColorId_random (token : string) (l : list string) :
  numerals_taken 99 l -> letters_taken 26 l -> generateColorId token l = token.
Proof.
  intros Hnum Hlet. unfold generateColorId.
  rewrite (proj2 (first_free_none l numerals) (proj1 (numerals_all_taken l) Hnum)).
  now rewrite (proj2 (first_free_none l letters) (proj1 (letters_all_taken l) Hlet)).
Qed.

(** The random token is consulted only in the third tier. *)
Lemma generateColorId_deterministic (token token' : string) (l : list string) :
  ~ (numerals_taken 99 l /\ letters_taken 26 l) ->
  generateColorId token l = generateColorId token' l.
Proof.
  intros Hfree. unfold generateColorId.
  destruct (first_free l numerals) eqn:E1; [reflexivity |].
  destruct (first_free l letters) eqn:E2; [reflexivity |].
  exfalso. apply Hfree. split.
  - apply numerals_all_taken. now apply first_free_none.
  - apply letters_all_taken. now apply first_free_none.
Qed.

Lemma letter_not_numeral (k i : nat) :
  (k < 26)%nat -> (1 <= i <= 99)%nat -> letter k <> numeral i.
Proof.
  intros Hk Hi E.
  assert (Hin : In (letter k) numerals) by (apply In_numerals; now exists i).
  apply includes_In in Hin. revert Hin. clear E.
  do 26 (destruct k as [| k]; [vm_compute; discriminate |]). lia.
Qed.

(** C2. [generateColorId] returns the smallest numeral among "1".."99"
    that is not in use; with all 99 in use, the first letter among
    "A".."Z" that is not in use; in both tiers the identifier returned is not
    in use.  With exactly "1".."50" in use it returns "51", with exactly
    "1".."99" in use it returns "A".  The random token is the result when
    all 99 numerals and all 26 letters are in use, and only then does the
    result depend on it. *)
Theorem generateColorId_allocation (token : string) (existingIds : list string) :
  (forall i, (1 <= i <= 99)%nat ->
     ~ In (numeral i) existingIds -> numerals_taken (i - 1) existingIds ->
     generateColorId token existingIds = numeral i
     /\ ~ In (generateColorId token existingIds) existingIds)
  /\ (numerals_taken 99 existingIds ->
      forall k, (k < 26)%nat ->
        ~ In (letter k) existingIds -> letters_taken k existingIds ->
        generateColorId token existingIds = letter k
        /\ ~ In (generateColorId token existingIds) existingIds)
  /\ (exactly_numerals 50 existingIds ->
      generateColorId token existingIds = "51")
  /\ (exactly_numerals 99 existingIds ->
      generateColorId token existingIds = "A")
  /\ (numerals_taken 99 existingIds -> letters_taken 26 existingIds ->
      generateColorId token existingIds = token)
  /\ (~ (numerals_taken 99 existingIds /\ letters_taken 26 existingIds) ->
      forall token', generateColorId token' existingIds
                     = generateColorId token existingIds).
Proof.
  repeat split.
  - now apply generateColorId_numeral.
  - rewrite (generateColorId_numeral token existingIds i); assumption.
  - now apply generateColorId_letter.
  - rewrite (generateColorId_letter token existingIds k); assumption.
  - intros Hex. apply (generateColorId_numeral token existingIds 51); [lia | |].
    + intros Hin. apply Hex in Hin as (i & Hi & E).
      apply numeral_inj in E. lia.
    + intros i Hi. apply Hex. exists i. split; [lia | reflexivity].
  - intros Hex. apply (generateColorId_letter token existingIds 0); [| lia | |].
    + intros i Hi. apply Hex. now exists i.
    + intros Hin. apply Hex in Hin as (i & Hi & E).
      now apply (letter_not_numeral 0 i ltac:(lia) Hi).
    + intros k Hk. lia.
  - now apply generateColorId_random.
  - intros Hfree token'. now apply generateColorId_deterministic.
Qed.

(** The two palettes of the examples, and a palette with a gap. *)
Lemma generateColorId_allocation_witness :
  generateColorId "X7Q" (map numeral (seq 1 50)) = "51"
  /\ generateColorId "X7Q" (map numeral (seq 1 99)) = "A"
  /\ generateColorId "X7Q" ["1"; "2"; "4"] = "3".
Proof.
  assert (Hex : forall n, exactly_numerals n (map numeral (seq 1 n))).
  { intros n s. rewrite in_map_iff. split.
    - intros (i & <- & Hi). apply in_seq in Hi. exists i. split; [lia | reflexivity].
    - intros (i & Hi & ->). exists i. split; [reflexivity | apply in_seq; lia]. }
  split; [| split].
  - exact (proj1 (proj2 (proj2 (generateColorId_allocation "X7Q" _))) (Hex 50%nat)).
  - exact (proj1 (proj2 (proj2 (proj2 (generateColorId_allocation "X7Q" _)))) (Hex 99%nat)).
  - refine (proj1 (proj1 (generateColorId_allocation "X7Q" ["1"; "2"; "4"]) 3%nat _ _ _)).
    + lia.
    + intros [H | [H | [H | []]]]; discriminate H.
    + intros i Hi. assert (i = 1 \/ i = 2)%nat as [-> | ->] by lia; simpl; tauto.
Defined.

End IdAllocation.

(** * Effects: what a computation leaves of the heap and of the trace *)

Section Frames.

Lemma grows_ret {A} (a : A) : grows (Eff.ret a).
Proof. intros w. split; [reflexivity | exists []; now rewrite app_nil_r]. Qed.

Lemma grows_throw {A} (e : Exception) : grows (@Eff.throw A e).
Proof. intros w. split; [reflexivity | exists []; now rewrite app_nil_r]. Qed.

Lemma grows_await {A} (p : Settled A) : grows (Eff.await p).
Proof.
  intros w. unfold Eff.await.
  destruct p; (split; [reflexivity | exists []; now rewrite app_nil_r]).
Qed.

Lemma grows_emit (e : Event) : grows (Eff.emit e).
Proof. intros w. split; [reflexivity | now exists [e]]. Qed.

Lemma grows_deref (l : loc) : grows (Eff.deref l).
Proof.
  intros w. unfold Eff.deref.
  destruct (heap w !! l); (split; [reflexivity | exists []; now rewrite app_nil_r]).
Qed.

Lemma fresh_unused (h : Heap) : h !! fresh (dom h) = None.
Proof. apply not_elem_of_dom. apply is_fresh. Qed.

Lemma grows_alloc (o : HeapObj) : grows (Eff.alloc o).
Proof.
  intros w. unfold Eff.alloc. simpl. split.
  - apply insert_subseteq. apply fresh_unused.
  - exists []. now rewrite app_nil_r.
Qed.

Lemma grows_bind {A B} (m : Eff.Js A) (k : A -> Eff.Js B) :
  grows m -> (forall a, grows (k a)) -> grows (Eff.bind m k).
Proof.
  intros Hm Hk w. unfold Eff.bind.
  destruct (Hm w) as [Hh [evs Ht]].
  destruct (m w) as [[a | e |] w1]; simpl in *.
  - destruct (Hk a w1) as [Hh' [evs' Ht']]. split.
    + now transitivity (heap w1).
    + exists (evs ++ evs'). now rewrite Ht', Ht, app_assoc.
  - split; [assumption | now exists evs].
  - split; [assumption | now exists evs].
Qed.

Lemma grows_try_catch {A} (m : Eff.Js A) (handler : Exception -> Eff.Js A) :
  grows m -> (forall e, grows (handler e)) -> grows (Eff.try_catch m handler).
Proof.
  intros Hm Hk w. unfold Eff.try_catch.
  destruct (Hm w) as [Hh [evs Ht]].
  destruct (m w) as [[a | e |] w1]; simpl in *.
  - split; [assumption | now exists evs].
  - destruct (Hk e w1) as [Hh' [evs' Ht']]. split.
    + now transitivity (heap w1).
    + exists (evs ++ evs'). now rewrite Ht', Ht, app_assoc.
  - split; [assumption | now exists evs].
Qed.

Lemma grows_mapM {A B} (f : A -> Eff.Js B) (l : list A) :
  (forall a, grows (f a)) -> grows (Store.mapM f l).
Proof.
  intros Hf. induction l as [| a l IH]; simpl.
  - apply grows_ret.
  - apply grows_bind; [apply Hf |]. intros b.
    apply grows_bind; [apply IH |]. intros bs. apply grows_ret.
Qed.

End Frames.

Create HintDb frames.

#[local] Hint Resolve grows_ret grows_throw grows_await grows_emit grows_deref
  grows_alloc grows_mapM : frames.

Ltac frame :=
  repeat first
    [ progress intros
    | apply grows_bind
    | apply grows_try_catch
    | apply grows_mapM
    | solve [auto with frames]
    | match goal with
      | |- grows (match ?x with _ => _ end) => destruct x
      | |- grows (if ?b then _ else _) => destruct b
      | |- grows (let '(_, _) := ?x in _) => destruct x
      end ].

Section StoreFrames.

Lemma grows_read_array (arr : loc) : grows (Store.read_array arr).
Proof. unfold Store.read_array. frame. Qed.

Lemma grows_read_color (c : loc) : grows (Store.read_color c).
Proof. unfold Store.read_color. frame. Qed.

Lemma grows_read_numbers (arr : loc) : grows (Store.read_numbers arr).
Proof. unfold Store.read_numbers. frame. Qed.

Lemma grows_stringify_color (c : loc) : grows (Store.stringify_color c).
Proof.
  unfold Store.stringify_color.
  apply grows_bind; [apply grows_read_color |]. intros [[i r] n].
  apply grows_bind; [apply grows_read_numbers |]. frame.
Qed.

Lemma grows_stringify (arr : loc) : grows (Store.stringify arr).
Proof.
  unfold Store.stringify.
  apply grows_bind; [apply grows_read_array |]. intros elems.
  apply grows_bind; [apply grows_mapM, grows_stringify_color |]. frame.
Qed.

Lemma grows_axios_post (server : Server) (formData : FormData)
    (callback : option (ProgressEvent -> Eff.Js unit)) :
  (forall f ev, callback = Some f -> grows (f ev)) ->
  grows (Store.axios_post server formData callback).
Proof.
  intros Hcb. unfold Store.axios_post.
  apply grows_bind; [apply grows_emit |]. intros _.
  apply grows_bind.
  - destruct callback as [f |]; [| apply grows_ret].
    apply grows_mapM. intros ev. now apply Hcb.
  - intros _. frame.
Qed.

Lemma grows_formatPaletteForAPI (palette : loc) :
  grows (UtilsV2.formatPaletteForAPI palette).
Proof.
  unfold UtilsV2.formatPaletteForAPI.
  apply grows_bind; [apply grows_read_array |]. intros elems.
  apply grows_bind.
  - apply grows_mapM. intros c.
    apply grows_bind; [apply grows_read_color |]. intros [[i r] n]. frame.
  - intros formatted. apply grows_bind; [apply grows_alloc |].
    intros arr. apply grows_stringify.
Qed.

Lemma grows_generate_v2 (server : Server) (file : option File) (palette : loc)
    (complexity : Z) :
  grows (UtilsV2.generatePaintByNumber server file palette complexity).
Proof.
  unfold UtilsV2.generatePaintByNumber.
  destruct file as [f |]; [| apply grows_throw].
  apply grows_bind; [apply grows_read_array |]. intros elems.
  destruct (Z.of_nat (length elems) <? 2); [apply grows_throw |].
  destruct ((complexity <? 1) || (complexity >? 100)); [apply grows_throw |].
  apply grows_bind; [apply grows_formatPaletteForAPI |]. intros json.
  apply grows_try_catch.
  - apply grows_bind; [apply grows_axios_post; discriminate |]. frame.
  - frame.
Qed.

Lemma grows_report (onProgress : bool) (p : Q) :
  grows (UtilsV1.report onProgress p).
Proof. unfold UtilsV1.report. frame. Qed.

Lemma grows_onUploadProgress (onProgress : bool) (ev : ProgressEvent) :
  grows (UtilsV1.onUploadProgress onProgress ev).
Proof.
  unfold UtilsV1.onUploadProgress.
  destruct (total ev) as [t |]; [| apply grows_ret].
  destruct (t =? 0); [apply grows_ret | apply grows_report].
Qed.

Lemma grows_generate_v1 (browser : Browser) (server : Server) (imageFile : File)
    (palette : loc) (threshold : Z) (onProgress : bool) :
  grows (UtilsV1.generatePaintByNumber browser server imageFile palette
                                       threshold onProgress).
Proof.
  unfold UtilsV1.generatePaintByNumber.
  apply grows_try_catch.
  - apply grows_bind; [apply grows_report |]. intros _.
    apply grows_bind; [apply grows_await |]. intros blob.
    apply grows_bind; [apply grows_report |]. intros _.
    apply grows_bind; [apply grows_stringify |]. intros json.
    apply grows_bind; [apply grows_report |]. intros _.
    apply grows_bind.
    + apply grows_axios_post. intros f ev [= <-]. apply grows_onUploadProgress.
    + intros data. apply grows_bind; [apply grows_report |]. frame.
  - intros e. destruct e; apply grows_throw.
Qed.

End StoreFrames.

(** * Reading and serialising a palette that the heap holds *)

Section PaletteReads.

Lemma color_at_mono (h h' : Heap) (l : loc) (c : PaletteColor) :
  h ⊆ h' -> color_at h l c -> color_at h' l c.
Proof.
  intros Hsub (r & Hl & Hr). exists r.
  split; eapply lookup_weaken; eassumption.
Qed.

Lemma colors_at_mono (h h' : Heap) (elems : list loc) (colors : list PaletteColor) :
  h ⊆ h' -> Forall2 (color_at h) elems colors -> Forall2 (color_at h') elems colors.
Proof.
  intros Hsub H. induction H; constructor; eauto using color_at_mono.
Qed.

Lemma palette_at_mono (h h' : Heap) (palette : loc) (colors : list PaletteColor) :
  h ⊆ h' -> palette_at h palette colors -> palette_at h' palette colors.
Proof.
  intros Hsub (elems & Hp & Hc). exists elems. split.
  - eapply lookup_weaken; eassumption.
  - eapply colors_at_mono; eassumption.
Qed.

Lemma bind_returned {A B} (m : Eff.Js A) (k : A -> Eff.Js B) (w w' : World) (a : A) :
  m w = (Returned a, w') -> Eff.bind m k w = k a w'.
Proof. intros H. unfold Eff.bind. now rewrite H. Qed.

Lemma read_color_at (w : World) (l r : loc) (i : string) (n : option string) :
  heap w !! l = Some (ColorObj i r n) ->
  Store.read_color l w = (Returned (i, r, n), w).
Proof.
  intros H. unfold Store.read_color, Eff.bind, Eff.deref. now rewrite H.
Qed.

Lemma read_array_at (w : World) (arr : loc) (elems : list loc) :
  heap w !! arr = Some (RefArray elems) ->
  Store.read_array arr w = (Returned elems, w).
Proof.
  intros H. unfold Store.read_array, Eff.bind, Eff.deref. now rewrite H.
Qed.

Lemma stringify_color_at (w : World) (l : loc) (c : PaletteColor) :
  color_at (heap w) l c ->
  Store.stringify_color l w = (Returned (color_json c), w).
Proof.
  intros (r & Hl & Hr).
  unfold Store.stringify_color, Store.read_color, Store.read_numbers,
    Eff.bind, Eff.deref.
  rewrite Hl. simpl. rewrite Hr. simpl.
  unfold color_json. now destruct (rgb c) as [[cr cg] cb].
Qed.

Lemma mapM_stringify_at (w : World) (elems : list loc) (colors : list PaletteColor) :
  Forall2 (color_at (heap w)) elems colors ->
  Store.mapM Store.stringify_color elems w
  = (Returned (map color_json colors), w).
Proof.
  intros H. induction H as [| l c elems colors Hc _ IH]; [reflexivity |].
  simpl. erewrite bind_returned by (apply stringify_color_at; exact Hc).
  erewrite bind_returned by exact IH. reflexivity.
Qed.

Lemma stringify_at (w : World) (arr : loc) (colors : list PaletteColor) :
  palette_at (heap w) arr colors ->
  Store.stringify arr w = (Returned (palette_json colors), w).
Proof.
  intros (elems & Hp & Hc). unfold Store.stringify.
  erewrite bind_returned by (apply read_array_at; exact Hp).
  erewrite bind_returned by (apply mapM_stringify_at; exact Hc). reflexivity.
Qed.

Lemma str_or_else_default (n : option string) :
  JS.str_or_else n "" = default "" n.
Proof.
  destruct n as [t |]; [| reflexivity]. simpl.
  destruct (String.eqb_spec t ""); congruence.
Qed.

(** [palette.map(color => ({...}))]: one new object per colour, each with
    the fields of [with_note]; nothing that existed is changed. *)
Lemma format_objects_at (w : World) (elems : list loc) (colors : list PaletteColor) :
  Forall2 (color_at (heap w)) elems colors ->
  exists formatted h',
    Store.mapM
      (fun color =>
         fields <- Store.read_color color ;;
         let '(i, r, n) := fields in
         Eff.alloc (ColorObj i r (Some (JS.str_or_else n ""))))
      elems w
    = (Returned formatted, mkWorld h' (trace w))
    /\ heap w ⊆ h'
    /\ Forall2 (color_at h') formatted (map with_note colors).
Proof.
  revert colors w.
  induction elems as [| l elems IH]; intros colors w H;
    inversion H as [| ? c ? colors' Hc Hrest]; subst.
  - exists [], (heap w). destruct w as [h t]. simpl.
    split; [reflexivity | split; [reflexivity | constructor]].
  - destruct Hc as (r & Hl & Hr).
    set (o := ColorObj (id c) r (Some (JS.str_or_else (note c) ""))).
    set (l' := fresh (dom (heap w))).
    set (w1 := mkWorld (<[l' := o]> (heap w)) (trace w)).
    assert (Hsub : heap w ⊆ heap w1).
    { apply insert_subseteq, fresh_unused. }
    destruct (IH colors' w1 (colors_at_mono _ _ _ _ Hsub Hrest))
      as (formatted & h' & Hrun & Hsub' & Hall).
    exists (l' :: formatted), h'. split; [| split].
    + simpl.
      erewrite bind_returned; cycle 1.
      { erewrite bind_returned by (eapply read_color_at; exact Hl).
        unfold Eff.alloc. fold l'. fold o. fold w1. reflexivity. }
      erewrite bind_returned by exact Hrun. reflexivity.
    + now transitivity (heap w1).
    + simpl. constructor; [| assumption].
      exists r. simpl. split.
      * apply (lookup_weaken (heap w1)); [| assumption].
        unfold w1, o. simpl. rewrite str_or_else_default. apply lookup_insert_eq.
      * apply (lookup_weaken (heap w)); [assumption |]. now transitivity (heap w1).
Qed.

Lemma formatPaletteForAPI_at (w : World) (palette : loc) (colors : list PaletteColor) :
  palette_at (heap w) palette colors ->
  exists h',
    UtilsV2.formatPaletteForAPI palette w
    = (Returned (palette_json (map with_note colors)), mkWorld h' (trace w))
    /\ heap w ⊆ h'.
Proof.
  intros (elems & Hp & Hc). unfold UtilsV2.formatPaletteForAPI.
  destruct (format_objects_at w elems colors Hc) as (formatted & h1 & Hrun & Hsub & Hall).
  set (w1 := mkWorld h1 (trace w)) in *.
  set (arr := fresh (dom h1)).
  set (w2 := mkWorld (<[arr := RefArray formatted]> h1) (trace w)).
  assert (Hsub2 : h1 ⊆ heap w2) by apply insert_subseteq, fresh_unused.
  exists (heap w2). split; [| now transitivity h1].
  erewrite bind_returned by (apply read_array_at; exact Hp).
  erewrite bind_returned by exact Hrun.
  erewrite bind_returned; cycle 1.
  { unfold Eff.alloc. simpl. fold arr. fold w2. reflexivity. }
  apply stringify_at. exists formatted. split.
  - apply lookup_insert_eq.
  - eapply colors_at_mono; eassumption.
Qed.

Lemma palette_at_length (h : Heap) (palette : loc) (elems : list loc)
    (colors : list PaletteColor) :
  palette_at h palette colors -> h !! palette = Some (RefArray elems) ->
  length elems = length colors.
Proof.
  intros (elems' & Hp & Hc) Hp'. rewrite Hp in Hp'. injection Hp' as ->.
  eapply Forall2_length; eassumption.
Qed.

(** One attempt of the complexity-slider flow on arguments that pass the
    validation: one request, then the mapped response or the mapped
    error. *)
Lemma generate_v2_run (server : Server) (w : World) (f : File) (palette : loc)
    (colors : list PaletteColor) (complexity : Z) :
  palette_at (heap w) palette colors ->
  (2 <= length colors)%nat -> 1 <= complexity <= 100 ->
  exists h', heap w ⊆ h' /\
    UtilsV2.generatePaintByNumber server (Some f) palette complexity w
    = match answer server (slider_form f colors complexity) with
      | Posted data =>
          (Returned (UtilsV2.map_response data),
           mkWorld h' (trace w ++ [Requested (slider_form f colors complexity);
                                   Answered]))
      | PostFailed e =>
          (Thrown (UtilsV2.map_error e),
           mkWorld h' (trace w ++ [Requested (slider_form f colors complexity)]))
      end.
Proof.
  intros Hpal Hlen Hcx.
  destruct (formatPaletteForAPI_at w palette colors Hpal) as (h' & Hfmt & Hsub).
  exists h'. split; [assumption |].
  destruct Hpal as (elems & Hp & Hc).
  unfold UtilsV2.generatePaintByNumber.
  erewrite bind_returned by (apply read_array_at; exact Hp).
  assert (Hl : length elems = length colors) by (eapply Forall2_length; eassumption).
  destruct (Z.ltb_spec (Z.of_nat (length elems)) 2) as [Hlt | _]; [lia |].
  destruct (Z.ltb_spec complexity 1) as [Hlt | _]; [lia |].
  destruct (Z.gtb_spec complexity 100) as [Hgt | _]; [lia |]. simpl.
  erewrite bind_returned by exact Hfmt.
  fold (slider_form f colors complexity).
  unfold Eff.try_catch, Store.axios_post, Eff.bind, Eff.emit, Eff.ret, Eff.throw.
  simpl. destruct (answer server (slider_form f colors complexity));
    simpl; [rewrite <- app_assoc |]; reflexivity.
Qed.

End PaletteReads.

(** * The complexity-slider flow ([generatePaintByNumber], utils.ts 2.0) *)

Section SliderFlow.

Import UtilsV2.

Lemma sample_palette_at : palette_at Sample.heap2 5%positive [Sample.red; Sample.blue].
Proof.
  exists [2%positive; 4%positive]. split; [reflexivity |].
  constructor; [| constructor; [| constructor]].
  - exists 1%positive. split; reflexivity.
  - exists 3%positive. split; reflexivity.
Qed.

(** The three checks at the head of the function: each one throws before
    anything else happens. *)
Lemma generate_v2_rejects (server : Server) (w : World) (file : option File)
    (palette : loc) (elems : list loc) (complexity : Z) :
  heap w !! palette = Some (RefArray elems) ->
  generatePaintByNumber server file palette complexity w
  = match file with
    | None => (Thrown (Error "No image file provided"), w)
    | Some f =>
        if (length elems <? 2)%nat
        then (Thrown (Error "Palette must have at least 2 colors"), w)
        else if (complexity <? 1) || (complexity >? 100)
             then (Thrown (Error "Complexity must be between 1 and 100"), w)
             else generatePaintByNumber server file palette complexity w
    end.
Proof.
  intros Hp. destruct file as [f |]; [| reflexivity].
  destruct (Nat.ltb_spec (length elems) 2) as [Hlt | Hge].
  - unfold generatePaintByNumber.
    erewrite bind_returned by (apply read_array_at; exact Hp).
    destruct (Z.ltb_spec (Z.of_nat (length elems)) 2); [reflexivity | lia].
  - destruct ((complexity <? 1) || (complexity >? 100)) eqn:Hc; [| reflexivity].
    unfold generatePaintByNumber.
    erewrite bind_returned by (apply read_array_at; exact Hp).
    destruct (Z.ltb_spec (Z.of_nat (length elems)) 2); [lia |].
    now rewrite Hc.
Qed.

(** C3. The complexity-slider flow fails fast.  Without a file, with a
    palette of fewer than two entries, or with a complexity below 1 or above
    100, the call throws the error of that check and leaves the world as it
    was: no request is issued.  The three messages differ from one
    another. *)
Theorem generatePaintByNumber_fails_fast (server : Server) (w : World)
    (file : option File) (palette : loc) (elems : list loc) (complexity : Z) :
  heap w !! palette = Some (RefArray elems) ->
  let run := generatePaintByNumber server file palette complexity w in
  (file = None -> run = (Thrown (Error "No image file provided"), w))
  /\ (file <> None -> (length elems < 2)%nat ->
      run = (Thrown (Error "Palette must have at least 2 colors"), w))
  /\ (file <> None -> (2 <= length elems)%nat ->
      complexity < 1 \/ complexity > 100 ->
      run = (Thrown (Error "Complexity must be between 1 and 100"), w))
  /\ (file = None \/ (length elems < 2)%nat \/ complexity < 1 \/ complexity > 100 ->
      requests (trace (snd run)) = requests (trace w)
      /\ exists message, fst run = Thrown (Error message))
  /\ "No image file provided" <> "Palette must have at least 2 colors"
  /\ "No image file provided" <> "Complexity must be between 1 and 100"
  /\ "Palette must have at least 2 colors" <> "Complexity must be between 1 and 100".
Proof.
  intros Hp run.
  pose proof (generate_v2_rejects server w file palette elems complexity Hp) as Hrun.
  fold run in Hrun.
  assert (H1 : file = None -> run = (Thrown (Error "No image file provided"), w)).
  { intros ->. exact Hrun. }
  assert (H2 : file <> None -> (length elems < 2)%nat ->
               run = (Thrown (Error "Palette must have at least 2 colors"), w)).
  { intros Hf Hlt. destruct file as [f |]; [| congruence].
    destruct (Nat.ltb_spec (length elems) 2); [exact Hrun | lia]. }
  assert (H3 : file <> None -> (2 <= length elems)%nat ->
               complexity < 1 \/ complexity > 100 ->
               run = (Thrown (Error "Complexity must be between 1 and 100"), w)).
  { intros Hf Hge Hc. destruct file as [f |]; [| congruence].
    destruct (Nat.ltb_spec (length elems) 2); [lia |].
    replace ((complexity <? 1) || (complexity >? 100)) with true in Hrun; [exact Hrun |].
    symmetry. apply orb_true_iff. destruct Hc; [left | right]; lia. }
  repeat split; try assumption; try discriminate.
  - destruct file as [f |]; [| now rewrite H1].
    destruct (Nat.ltb_spec (length elems) 2) as [Hlt | Hge].
    + now rewrite (H2 ltac:(discriminate) Hlt).
    + destruct H as [H | [H | H]]; [discriminate | lia |].
      now rewrite (H3 ltac:(discriminate) Hge H).
  - destruct file as [f |]; [| rewrite H1; eauto].
    destruct (Nat.ltb_spec (length elems) 2) as [Hlt | Hge].
    + rewrite (H2 ltac:(discriminate) Hlt). eauto.
    + destruct H as [H | [H | H]]; [discriminate | lia |].
      rewrite (H3 ltac:(discriminate) Hge H). eauto.
Qed.

(** The palette of two colours, no file, and a complexity of 101. *)
Lemma generatePaintByNumber_fails_fast_witness :
  generatePaintByNumber (Sample.server [] (Posted ∅)) None 5%positive 101
                        Sample.world2
  = (Thrown (Error "No image file provided"), Sample.world2)
  /\ generatePaintByNumber (Sample.server [] (Posted ∅)) (Some Sample.photo)
                           5%positive 101 Sample.world2
     = (Thrown (Error "Complexity must be between 1 and 100"), Sample.world2).
Proof.
  pose proof (generatePaintByNumber_fails_fast (Sample.server [] (Posted ∅))
                Sample.world2 None 5%positive [2%positive; 4%positive] 101
                eq_refl) as H0.
  pose proof (generatePaintByNumber_fails_fast (Sample.server [] (Posted ∅))
                Sample.world2 (Some Sample.photo) 5%positive
                [2%positive; 4%positive] 101 eq_refl) as H1.
  split.
  - exact (proj1 H0 eq_refl).
  - apply (proj1 (proj2 (proj2 H1))); [discriminate | simpl; lia | right; lia].
Defined.

Lemma shown_detail_text (r : ErrResponse) (fallback text : string) :
  shown_detail r fallback text -> JS.str_or_else (detail r) fallback = text.
Proof.
  intros [[Hd Hne] | [[Hd | Hd] ->]]; rewrite Hd; simpl; try reflexivity.
  destruct (String.eqb_spec text ""); congruence.
Qed.

(** C7. When the request of the complexity-slider flow fails, the call
    throws one error chosen by the status of the response: 400 gives
    "Invalid request" with the detail of the server, 413 and 415 give their
    fixed messages, 500 gives "Server error" with the detail, every other
    status gives "Request failed" with the status and the detail; without a
    response to a request that was sent, the fixed connectivity message.
    The detail shown is the one the server sent, or "Unknown error" when it
    sent none. *)
Theorem generatePaintByNumber_error_mapping (server : Server) (w : World)
    (f : File) (palette : loc) (colors : list PaletteColor) (complexity : Z)
    (e : AxiosError) :
  palette_at (heap w) palette colors ->
  (2 <= length colors)%nat -> 1 <= complexity <= 100 ->
  answer server (slider_form f colors complexity) = PostFailed (Axios e) ->
  let thrown := fst (generatePaintByNumber server (Some f) palette complexity w) in
  (forall r text,
     response e = Some r -> shown_detail r "Unknown error" text ->
     (status r = 400 -> thrown = Thrown (Error ("Invalid request: " +:+ text)))
     /\ (status r = 413 ->
         thrown = Thrown (Error "Image file is too large. Maximum size is 10MB."))
     /\ (status r = 415 ->
         thrown = Thrown (Error "Unsupported file type. Use PNG, JPEG, or WEBP."))
     /\ (status r = 500 -> thrown = Thrown (Error ("Server error: " +:+ text)))
     /\ (status r <> 400 -> status r <> 413 -> status r <> 415 ->
         status r <> 500 ->
         thrown = Thrown (Error ("Request failed (" +:+ JS.int_toString (status r)
                                 +:+ "): " +:+ text))))
  /\ (response e = None -> request e = true ->
      thrown = Thrown (Error
        "Could not connect to server. Please check your internet connection.")).
Proof.
  intros Hpal Hlen Hcx Hans thrown.
  destruct (generate_v2_run server w f palette colors complexity Hpal Hlen Hcx)
    as (h' & _ & Hrun).
  rewrite Hans in Hrun.
  assert (Hthrown : thrown = Thrown (map_error (Axios e))).
  { unfold thrown. now rewrite Hrun. }
  rewrite Hthrown. unfold map_error. split.
  - intros r text Hr Hshown. rewrite Hr.
    rewrite (shown_detail_text r _ text Hshown).
    repeat split.
    + intros ->. reflexivity.
    + intros ->. reflexivity.
    + intros ->. reflexivity.
    + intros ->. reflexivity.
    + intros H400 H413 H415 H500.
      destruct (Z.eqb_spec (status r) 400); [contradiction |].
      destruct (Z.eqb_spec (status r) 413); [contradiction |].
      destruct (Z.eqb_spec (status r) 415); [contradiction |].
      destruct (Z.eqb_spec (status r) 500); [contradiction |].
      reflexivity.
  - intros Hr Hreq. now rewrite Hr, Hreq.
Qed.

(** A 404 with the detail "Not Found". *)
Lemma generatePaintByNumber_error_mapping_witness :
  fst (generatePaintByNumber (Sample.server [] (Sample.refusal 404 "Not Found"))
                             (Some Sample.photo) 5%positive 50 Sample.world2)
  = Thrown (Error "Request failed (404): Not Found").
Proof.
  refine (proj2 (proj2 (proj2 (proj2
            (proj1 (generatePaintByNumber_error_mapping
                      (Sample.server [] (Sample.refusal 404 "Not Found"))
                      Sample.world2 Sample.photo 5%positive
                      [Sample.red; Sample.blue] 50 _
                      sample_palette_at _ _ eq_refl)
                   (mkErrResponse 404 (Some "Not Found")) "Not Found" eq_refl _))))
            _ _ _ _); simpl; try lia; try discriminate.
  left. split; [reflexivity | discriminate].
Defined.

Lemma map_response_counter (data : gmap string JS.Json) (snake camel : string) :
  counter_rule data snake camel
    (JS.or_else (JS.prop data snake)
                (JS.or_else (JS.prop data camel) (JS.JNum 0))).
Proof.
  unfold counter_rule, JS.prop, JS.or_else. repeat split.
  - intros n Hs Hc. rewrite Hs, Hc. simpl.
    destruct (Z.eqb_spec n 0); simpl; congruence.
  - intros n Hs Hc. rewrite Hs, Hc. simpl.
    destruct (Z.eqb_spec n 0); simpl; congruence.
  - intros Hs Hc. now rewrite Hs, Hc.
  - intros n m Hs Hc. rewrite Hs, Hc. simpl.
    destruct (Z.eqb_spec n 0); simpl; [| reflexivity].
    destruct (Z.eqb_spec m 0); simpl; congruence.
Qed.

(** C4, as the code has it.  On a success response the result is built
    from either spelling of the counters: [region_count: 7] alone gives a
    [regionCount] of 7, neither spelling gives 0, for [regionCount] and for
    [colorsUsed] alike; when both spellings are present the snake-case one
    is taken (unless it is 0). *)
Theorem generatePaintByNumber_normalizes_counters (server : Server) (w : World)
    (f : File) (palette : loc) (colors : list PaletteColor) (complexity : Z)
    (data : gmap string JS.Json) :
  palette_at (heap w) palette colors ->
  (2 <= length colors)%nat -> 1 <= complexity <= 100 ->
  answer server (slider_form f colors complexity) = Posted data ->
  exists result,
    fst (generatePaintByNumber server (Some f) palette complexity w)
    = Returned result
    /\ counter_rule data "region_count" "regionCount" (regionCount result)
    /\ counter_rule data "colors_used" "colorsUsed" (colorsUsed result)
    /\ (data !! "region_count" = Some (JS.JNum 7) ->
        data !! "regionCount" = None -> regionCount result = JS.JNum 7).
Proof.
  intros Hpal Hlen Hcx Hans.
  destruct (generate_v2_run server w f palette colors complexity Hpal Hlen Hcx)
    as (h' & _ & Hrun).
  rewrite Hans in Hrun. exists (map_response data). rewrite Hrun.
  split; [reflexivity |]. split; [apply map_response_counter |].
  split; [apply map_response_counter |].
  intros Hs Hc.
  exact (proj1 (map_response_counter data "region_count" "regionCount") 7 Hs Hc).
Qed.

(** A response with [region_count: 7] only. *)
Lemma generatePaintByNumber_normalizes_counters_witness :
  exists result,
    fst (generatePaintByNumber
           (Sample.server [] (Posted {[ "region_count" := JS.JNum 7 ]}))
           (Some Sample.photo) 5%positive 50 Sample.world2)
    = Returned result
    /\ regionCount result = JS.JNum 7 /\ colorsUsed result = JS.JNum 0.
Proof.
  destruct (generatePaintByNumber_normalizes_counters
              (Sample.server [] (Posted {[ "region_count" := JS.JNum 7 ]}))
              Sample.world2 Sample.photo 5%positive [Sample.red; Sample.blue] 50
              {[ "region_count" := JS.JNum 7 ]}
              sample_palette_at ltac:(simpl; lia) ltac:(lia) eq_refl)
    as (result & Hrun & Hregion & Hused & _).
  exists result. split; [exact Hrun |]. split.
  - exact (proj1 Hregion 7 eq_refl eq_refl).
  - exact (proj1 (proj2 (proj2 Hused)) eq_refl eq_refl).
Defined.

(** C4, as stated, fails: with both spellings present, [region_count: 7]
    and [regionCount: 9], the result has the snake-case value 7, not the
    camel-case value 9. *)
Lemma regionCount_prefers_snake_case :
  exists result,
    fst (generatePaintByNumber
           (Sample.server []
              (Posted (<["region_count" := JS.JNum 7]>
                         {[ "regionCount" := JS.JNum 9 ]})))
           (Some Sample.photo) 5%positive 50 Sample.world2)
    = Returned result
    /\ regionCount result = JS.JNum 7
    /\ regionCount result <> JS.JNum 9.
Proof.
  destruct (generate_v2_run
              (Sample.server []
                 (Posted (<["region_count" := JS.JNum 7]>
                            {[ "regionCount" := JS.JNum 9 ]})))
              Sample.world2 Sample.photo 5%positive [Sample.red; Sample.blue] 50
              sample_palette_at ltac:(simpl; lia) ltac:(lia))
    as (h' & _ & Hrun).
  eexists. rewrite Hrun. cbn [answer Sample.server fst].
  split; [reflexivity |]. split; [reflexivity | discriminate].
Qed.

End SliderFlow.

(** * The progress-reporting flow ([generatePaintByNumber], first utils.ts) *)

Section ProgressFlow.

Import UtilsV1.

Lemma progress_events_app (b : bool) (ps qs : list Q) :
  progress_events b (ps ++ qs) = progress_events b ps ++ progress_events b qs.
Proof. destruct b; simpl; [apply map_app | reflexivity]. Qed.

Lemma report_run (b : bool) (p : Q) (w : World) :
  report b p w = (Returned tt, mkWorld (heap w) (trace w ++ progress_events b [p])).
Proof.
  unfold report. destruct b; [reflexivity |].
  destruct w as [h t]. simpl. now rewrite app_nil_r.
Qed.

Lemma onUploadProgress_run (b : bool) (ev : ProgressEvent) (w : World) :
  onUploadProgress b ev w
  = (Returned tt,
     mkWorld (heap w) (trace w ++ progress_events b (upload_percents [ev]))).
Proof.
  unfold onUploadProgress, upload_percents. simpl.
  destruct (total ev) as [t |].
  - destruct (t =? 0).
    + destruct w as [h t0], b; simpl; now rewrite app_nil_r.
    + rewrite report_run. now rewrite app_nil_r.
  - destruct w as [h t0], b; simpl; now rewrite app_nil_r.
Qed.

Lemma upload_percents_cons (ev : ProgressEvent) (evs : list ProgressEvent) :
  upload_percents (ev :: evs) = upload_percents [ev] ++ upload_percents evs.
Proof. unfold upload_percents. simpl. now rewrite app_nil_r. Qed.

Lemma upload_callbacks_run (b : bool) (evs : list ProgressEvent) (w : World) :
  exists units,
    Store.mapM (onUploadProgress b) evs w
    = (Returned units,
       mkWorld (heap w) (trace w ++ progress_events b (upload_percents evs))).
Proof.
  revert w. induction evs as [| ev evs IH]; intros w.
  - exists []. destruct w as [h t], b; simpl; now rewrite app_nil_r.
  - destruct (IH (mkWorld (heap w)
                    (trace w ++ progress_events b (upload_percents [ev]))))
      as (units & Hrest).
    exists (tt :: units). simpl Store.mapM.
    erewrite bind_returned by apply onUploadProgress_run.
    erewrite bind_returned by exact Hrest.
    unfold Eff.ret. cbn [heap trace].
    rewrite <- app_assoc, <- progress_events_app, <- upload_percents_cons.
    reflexivity.
Qed.

(** What is thrown in place of a failure of the request. *)
Lemma generate_v1_run (browser : Browser) (server : Server) (w : World)
    (imageFile : File) (palette : loc) (colors : list PaletteColor)
    (threshold : Z) (onProgress : bool) (blob : Blob) :
  palette_at (heap w) palette colors ->
  compressImage browser imageFile 1200 (8 # 10) = Resolved blob ->
  let form := progress_form blob imageFile colors threshold in
  let sent :=
    trace w ++ progress_events onProgress [10; 20; 30]%Q ++ [Requested form]
    ++ progress_events onProgress (upload_percents (upload_events server form)) in
  generatePaintByNumber browser server imageFile palette threshold onProgress w
  = match answer server form with
    | Posted data =>
        (Returned data,
         mkWorld (heap w) (sent ++ [Answered] ++ progress_events onProgress [100%Q]))
    | PostFailed e =>
        (Thrown match e with
                | Axios a =>
                    Error (JS.str_or_else
                             (match response a with
                              | Some r => detail r
                              | None => None
                              end)
                             "Failed to generate paint-by-number")
                | _ => e
                end,
         mkWorld (heap w) sent)
    end.
Proof.
  intros Hpal Hblob form sent.
  destruct (upload_callbacks_run onProgress (upload_events server form)
              (mkWorld (heap w)
                 (trace w ++ progress_events onProgress [10; 20; 30]%Q
                  ++ [Requested form]))) as (units & Hups).
  assert (Hpost :
    Store.axios_post server form (Some (onUploadProgress onProgress))
      (mkWorld (heap w) (trace w ++ progress_events onProgress [10; 20; 30]%Q))
    = match answer server form with
      | Posted data => (Returned data, mkWorld (heap w) (sent ++ [Answered]))
      | PostFailed e => (Thrown e, mkWorld (heap w) sent)
      end).
  { unfold Store.axios_post.
    erewrite bind_returned by reflexivity.
    unfold Eff.emit at 1. cbn [heap trace]. rewrite <- app_assoc.
    erewrite bind_returned by exact Hups.
    cbn [heap trace]. rewrite <- !app_assoc. fold sent.
    destruct (answer server form); reflexivity. }
  unfold generatePaintByNumber, Eff.try_catch.
  erewrite bind_returned by apply report_run.
  rewrite Hblob.
  erewrite bind_returned by reflexivity.
  erewrite bind_returned by apply report_run.
  erewrite bind_returned by (apply stringify_at; exact Hpal).
  erewrite bind_returned by apply report_run.
  cbn [heap trace].
  change (mkFormData (BlobUpload blob (file_name imageFile))
                     (palette_json colors) (JS.int_toString threshold))
    with form.
  replace (((trace w ++ progress_events onProgress [10%Q])
            ++ progress_events onProgress [20%Q])
           ++ progress_events onProgress [30%Q])
    with (trace w ++ progress_events onProgress [10; 20; 30]%Q)
    by (destruct onProgress; simpl; rewrite <- ?app_assoc; reflexivity).
  unfold Eff.bind at 1. rewrite Hpost.
  destruct (answer server form) as [data | e].
  - erewrite bind_returned by apply report_run.
    unfold Eff.ret. cbn [heap trace]. now rewrite <- app_assoc.
  - destruct e; reflexivity.
Qed.

Lemma reported_app (t1 t2 : list Event) :
  reported (t1 ++ t2) = reported t1 ++ reported t2.
Proof. unfold reported. apply flat_map_app. Qed.

Lemma reported_progress (ps : list Q) : reported (progress_events true ps) = ps.
Proof.
  unfold reported, progress_events.
  induction ps as [| p ps IH]; simpl; [reflexivity | now f_equal].
Qed.

Lemma inject_Z_pos (t : Z) : 0 < t -> (0 < inject_Z t)%Q.
Proof. intros H. unfold Qlt. simpl. lia. Qed.

Lemma inject_Z_nonneg (t : Z) : 0 <= t -> (0 <= inject_Z t)%Q.
Proof. intros H. unfold Qle. simpl. lia. Qed.

Lemma percent_bounds (a t : Z) :
  0 < t -> 0 <= a <= t ->
  (30 <= 30 + (inject_Z a / inject_Z t) * 40
   /\ 30 + (inject_Z a / inject_Z t) * 40 <= 70)%Q.
Proof.
  intros Ht [Ha Hat].
  assert (Ht' : (0 < inject_Z t)%Q) by now apply inject_Z_pos.
  assert (H0 : (0 <= inject_Z a / inject_Z t)%Q).
  { apply Qle_shift_div_l; [exact Ht' |]. rewrite Qmult_0_l.
    now apply inject_Z_nonneg. }
  assert (H1 : (inject_Z a / inject_Z t <= 1)%Q).
  { apply Qle_shift_div_r; [exact Ht' |]. rewrite Qmult_1_l.
    rewrite <- Zle_Qle. exact Hat. }
  split; lra.
Qed.

Lemma percent_le (a b t : Z) :
  0 < t -> a <= b ->
  (30 + (inject_Z a / inject_Z t) * 40 <= 30 + (inject_Z b / inject_Z t) * 40)%Q.
Proof.
  intros Ht Hab.
  assert (Ht' : (0 < inject_Z t)%Q) by now apply inject_Z_pos.
  assert (H : (inject_Z a / inject_Z t <= inject_Z b / inject_Z t)%Q).
  { unfold Qdiv. apply Qmult_le_compat_r.
    - rewrite <- Zle_Qle. exact Hab.
    - apply Qinv_le_0_compat. now apply Qlt_le_weak. }
  lra.
Qed.

Lemma In_upload_percents (evs : list ProgressEvent) (p : Q) :
  In p (upload_percents evs) ->
  exists ev t, In ev evs /\ total ev = Some t /\ t <> 0
               /\ p = (30 + (inject_Z (loaded ev) / inject_Z t) * 40)%Q.
Proof.
  unfold upload_percents. rewrite in_flat_map. intros (ev & Hev & Hp).
  destruct (total ev) as [t |] eqn:Ht; [| contradiction].
  destruct (Z.eqb_spec t 0); [contradiction |].
  destruct Hp as [<- | []]. now exists ev, t.
Qed.

Lemma upload_percents_bounds (evs : list ProgressEvent) :
  orderly_upload evs ->
  Forall (fun p => (30 <= p /\ p <= 70)%Q) (upload_percents evs).
Proof.
  intros [_ Hin]. apply List.Forall_forall. intros p Hp.
  apply In_upload_percents in Hp as (ev & t & Hev & Ht & Hne & ->).
  rewrite List.Forall_forall in Hin. specialize (Hin ev Hev). rewrite Ht in Hin.
  apply percent_bounds; lia.
Qed.

Lemma orderly_upload_tail (ev : ProgressEvent) (evs : list ProgressEvent) :
  orderly_upload (ev :: evs) -> orderly_upload evs.
Proof.
  intros [Hs Hin]. split.
  - now inversion Hs.
  - now inversion Hin.
Qed.

Lemma upload_percents_sorted (evs : list ProgressEvent) :
  orderly_upload evs -> StronglySorted Qle (upload_percents evs).
Proof.
  induction evs as [| ev evs IH]; intros Hord; [constructor |].
  pose proof (IH (orderly_upload_tail _ _ Hord)) as Hrest.
  rewrite upload_percents_cons.
  destruct Hord as [Hs Hin]. inversion Hs as [| ? ? _ Hlater]; subst.
  inversion Hin as [| ? ? Hev _]; subst.
  unfold upload_percents at 1. simpl. rewrite app_nil_r.
  destruct (total ev) as [t |] eqn:Ht; [| exact Hrest].
  destruct (Z.eqb_spec t 0) as [| Hne]; [exact Hrest |].
  simpl. constructor; [exact Hrest |].
  apply List.Forall_forall. intros p Hp.
  apply In_upload_percents in Hp as (ev' & t' & Hev' & Ht' & Hne' & ->).
  rewrite List.Forall_forall in Hlater. destruct (Hlater ev' Hev') as [Hle Htot].
  assert (t' = t) as -> by congruence.
  apply percent_le; lia.
Qed.

(** C8. Across one successful attempt of the progress-reporting flow, with
    the upload events of an orderly transport, the percentages passed to
    [onProgress] never decrease and end at 100, and every percentage
    reported before the success response arrives is below 100: the only
    report after it is 100. *)
Theorem generatePaintByNumber_progress (browser : Browser) (server : Server)
    (w : World) (imageFile : File) (palette : loc) (colors : list PaletteColor)
    (threshold : Z) (blob : Blob) (data : gmap string JS.Json) :
  palette_at (heap w) palette colors ->
  compressImage browser imageFile 1200 (8 # 10) = Resolved blob ->
  answer server (progress_form blob imageFile colors threshold) = Posted data ->
  orderly_upload (upload_events server (progress_form blob imageFile colors threshold)) ->
  exists before,
    generatePaintByNumber browser server imageFile palette threshold true w
    = (Returned data,
       mkWorld (heap w) (trace w ++ before ++ [Answered] ++ [Progress 100]))
    /\ ~ In Answered before
    /\ Forall (fun p => (p < 100)%Q) (reported before)
    /\ StronglySorted Qle (reported (before ++ [Answered] ++ [Progress 100]))
    /\ last (reported (before ++ [Answered] ++ [Progress 100])) = Some 100%Q.
Proof.
  intros Hpal Hblob Hans Hord.
  pose proof (generate_v1_run browser server w imageFile palette colors threshold
                true blob Hpal Hblob) as Hrun.
  cbv zeta in Hrun. rewrite Hans in Hrun.
  set (form := progress_form blob imageFile colors threshold) in *.
  set (ups := upload_percents (upload_events server form)) in *.
  pose proof (upload_percents_bounds _ Hord) as Hbounds. fold ups in Hbounds.
  pose proof (upload_percents_sorted _ Hord) as Hsorted. fold ups in Hsorted.
  exists (progress_events true [10; 20; 30]%Q ++ [Requested form]
          ++ progress_events true ups).
  assert (Hrep : reported (progress_events true [10; 20; 30]%Q ++ [Requested form]
                           ++ progress_events true ups)
                 = [10; 20; 30]%Q ++ ups).
  { rewrite !reported_app, !reported_progress. reflexivity. }
  split; [| split; [| split; [| split]]].
  - rewrite Hrun. rewrite <- !app_assoc. reflexivity.
  - rewrite !in_app_iff. intros [H | [H | H]].
    + simpl in H. intuition discriminate.
    + simpl in H. intuition discriminate.
    + unfold progress_events in H. apply in_map_iff in H as (p & Hp & _).
      discriminate Hp.
  - rewrite Hrep. apply Forall_app. split.
    + repeat constructor.
    + eapply List.Forall_impl; [| exact Hbounds]. intros p [_ Hp]. simpl. lra.
  - rewrite reported_app, Hrep. simpl reported.
    change ([10%Q; 20%Q; 30%Q] ++ ups) with (10%Q :: 20%Q :: 30%Q :: ups).
    assert (Hups : StronglySorted Qle (ups ++ [100%Q])).
    { apply StronglySorted_app_2; [| exact Hsorted | repeat constructor].
      intros x1 x2 Hx1 Hx2. apply list_elem_of_In in Hx1, Hx2.
      destruct Hx2 as [<- | []].
      rewrite List.Forall_forall in Hbounds. destruct (Hbounds x1 Hx1). lra. }
    assert (Hall : Forall (fun p => (30 <= p)%Q) (ups ++ [100%Q])).
    { apply Forall_app. split.
      - eapply List.Forall_impl; [| exact Hbounds]. intros p [Hp _]. exact Hp.
      - constructor; [discriminate | constructor]. }
    simpl app.
    constructor; [constructor; [constructor; [exact Hups |] |] |].
    + exact Hall.
    + constructor; [discriminate |].
      eapply List.Forall_impl; [| exact Hall]. intros p Hp. simpl in Hp. lra.
    + constructor; [discriminate |]. constructor; [discriminate |].
      eapply List.Forall_impl; [| exact Hall]. intros p Hp. simpl in Hp. lra.
  - rewrite reported_app.
    change (reported ([Answered] ++ [Progress 100])) with [100%Q].
    apply last_snoc.
Qed.

End ProgressFlow.

(** * The caller's palette across a generation attempt *)

Section PaletteFrame.

Lemma requests_app (t1 t2 : list Event) :
  requests (t1 ++ t2) = requests t1 ++ requests t2.
Proof. unfold requests. apply flat_map_app. Qed.

Lemma requests_progress (b : bool) (ps : list Q) :
  requests (progress_events b ps) = [].
Proof.
  unfold requests, progress_events. destruct b; [| reflexivity].
  induction ps as [| p ps IH]; simpl; [reflexivity | exact IH].
Qed.

(** The requests of the complexity-slider flow carry the palette as it
    was when the call started. *)
Lemma generate_v2_requests (server : Server) (w : World) (file : option File)
    (palette : loc) (colors : list PaletteColor) (complexity : Z) (form : FormData) :
  palette_at (heap w) palette colors ->
  In form (requests (trace (snd (UtilsV2.generatePaintByNumber
                                   server file palette complexity w)))) ->
  In form (requests (trace w))
  \/ form_palette form = palette_json (map with_note colors).
Proof.
  intros Hpal Hin. pose proof Hpal as (elems & Hp & Hc).
  assert (Hl : length elems = length colors) by (eapply Forall2_length; eassumption).
  rewrite (generate_v2_rejects server w file palette elems complexity Hp) in Hin.
  destruct file as [f |]; [| now left].
  destruct (Nat.ltb_spec (length elems) 2) as [Hlt | Hge]; [now left |].
  destruct ((complexity <? 1) || (complexity >? 100)) eqn:Hcx; [now left |].
  apply orb_false_iff in Hcx as [H1 H2].
  destruct (generate_v2_run server w f palette colors complexity Hpal)
    as (h' & _ & Hrun); [lia | lia |].
  rewrite Hrun in Hin.
  destruct (answer server (slider_form f colors complexity)); simpl in Hin;
    rewrite requests_app in Hin; apply in_app_iff in Hin as [Hin | Hin];
    try (now left); right; simpl in Hin; destruct Hin as [<- | []]; reflexivity.
Qed.

(** Without a compressed image the progress-reporting flow sends nothing. *)
Lemma generate_v1_no_blob (browser : Browser) (server : Server) (w : World)
    (imageFile : File) (palette : loc) (threshold : Z) (onProgress : bool) :
  (forall blob, UtilsV1.compressImage browser imageFile 1200 (8 # 10) <> Resolved blob) ->
  requests (trace (snd (UtilsV1.generatePaintByNumber
                          browser server imageFile palette threshold onProgress w)))
  = requests (trace w).
Proof.
  intros Hno. unfold UtilsV1.generatePaintByNumber, Eff.try_catch.
  erewrite bind_returned by apply report_run.
  destruct (UtilsV1.compressImage browser imageFile 1200 (8 # 10)) as [blob | m |].
  - now destruct (Hno blob).
  - simpl. now rewrite requests_app, requests_progress, app_nil_r.
  - simpl. now rewrite requests_app, requests_progress, app_nil_r.
Qed.

(** The requests of the progress-reporting flow carry the palette as it was
    when the call started. *)
Lemma generate_v1_requests (browser : Browser) (server : Server) (w : World)
    (imageFile : File) (palette : loc) (colors : list PaletteColor)
    (threshold : Z) (onProgress : bool) (form : FormData) :
  palette_at (heap w) palette colors ->
  In form (requests (trace (snd (UtilsV1.generatePaintByNumber
             browser server imageFile palette threshold onProgress w)))) ->
  In form (requests (trace w)) \/ form_palette form = palette_json colors.
Proof.
  intros Hpal Hin.
  destruct (UtilsV1.compressImage browser imageFile 1200 (8 # 10))
    as [blob | m |] eqn:Hblob.
  - pose proof (generate_v1_run browser server w imageFile palette colors
                  threshold onProgress blob Hpal Hblob) as Hrun.
    cbv zeta in Hrun. rewrite Hrun in Hin.
    destruct (answer server (progress_form blob imageFile colors threshold));
      cbn [snd trace] in Hin;
      rewrite !requests_app, !requests_progress, !in_app_iff in Hin;
      simpl in Hin; intuition (subst; auto).
  - left. rewrite generate_v1_no_blob in Hin; [exact Hin |].
    intros blob. rewrite Hblob. discriminate.
  - left. rewrite generate_v1_no_blob in Hin; [exact Hin |].
    intros blob. rewrite Hblob. discriminate.
Qed.

(** C9. Neither flow of [generatePaintByNumber] changes the palette of the
    caller.  Whatever the arguments and however the call ends, every object
    of the heap is afterwards what it was before, so the palette array holds
    the same colours in the same order, each with its id, rgb and note; and
    a request that the call issues carries the serialisation of those
    colours as a value. *)
Theorem generatePaintByNumber_keeps_palette (browser : Browser) (server : Server)
    (w : World) (palette : loc) :
  (forall file complexity,
     let w' := snd (UtilsV2.generatePaintByNumber server file palette complexity w) in
     heap w ⊆ heap w'
     /\ forall colors,
          palette_at (heap w) palette colors ->
          palette_at (heap w') palette colors
          /\ forall form,
               In form (requests (trace w')) ->
               In form (requests (trace w))
               \/ form_palette form = palette_json (map with_note colors))
  /\ (forall imageFile threshold onProgress,
        let w' := snd (UtilsV1.generatePaintByNumber browser server imageFile
                         palette threshold onProgress w) in
        heap w ⊆ heap w'
        /\ forall colors,
             palette_at (heap w) palette colors ->
             palette_at (heap w') palette colors
             /\ forall form,
                  In form (requests (trace w')) ->
                  In form (requests (trace w))
                  \/ form_palette form = palette_json colors).
Proof.
  split.
  - intros file complexity w'.
    pose proof (proj1 (grows_generate_v2 server file palette complexity w)) as Hsub.
    fold w' in Hsub. split; [exact Hsub |].
    intros colors Hpal. split.
    + eapply palette_at_mono; eassumption.
    + intros form Hin. eapply generate_v2_requests; eassumption.
  - intros imageFile threshold onProgress w'.
    pose proof (proj1 (grows_generate_v1 browser server imageFile palette
                         threshold onProgress w)) as Hsub.
    fold w' in Hsub. split; [exact Hsub |].
    intros colors Hpal. split.
    + eapply palette_at_mono; eassumption.
    + intros form Hin. eapply generate_v1_requests; eassumption.
Qed.

End PaletteFrame.

(** * Colour conversion ([rgbToHex], [hexToRgb], utils.ts 2.0) *)

Section HexColors.

Import UtilsV2.

Lemma all_ascii_complete (c : ascii) : In c all_ascii.
Proof.
  unfold all_ascii. rewrite <- (ascii_nat_embedding c).
  apply in_map, in_seq. pose proof (nat_ascii_bounded c). lia.
Qed.

Lemma is_hex_digit_spec (c : ascii) : is_hex_digit c = true <-> hexadecimal c.
Proof.
  assert (Hall : forallb
            (fun c => Bool.eqb (is_hex_digit c)
                        (existsb (Ascii.eqb c)
                           (list_ascii_of_string "0123456789abcdefABCDEF")))
            all_ascii = true) by (vm_compute; reflexivity).
  rewrite forallb_forall in Hall. specialize (Hall c (all_ascii_complete c)).
  apply Bool.eqb_prop in Hall. rewrite Hall. unfold hexadecimal.
  rewrite existsb_exists. split.
  - intros (x & Hx & Heq). apply Ascii.eqb_eq in Heq. now subst.
  - intros H. exists c. split; [exact H | apply Ascii.eqb_refl].
Qed.

Lemma channels_roundtrip (c : Z) : 0 <= c <= 255 -> channel_roundtrips c = true.
Proof.
  intros Hc.
  assert (Hall : forallb channel_roundtrips (Canvas.range 256) = true)
    by (vm_compute; reflexivity).
  rewrite forallb_forall in Hall. apply Hall.
  unfold Canvas.range. apply in_map_iff. exists (Z.to_nat c).
  split; [lia | apply in_seq; lia].
Qed.

(** The text of one channel: two hexadecimal digits that read back. *)
Lemma channel_text (c : Z) :
  0 <= c <= 255 ->
  exists a b,
    JS.padStart 2 "0" (JS.int_toString16 c) = String a (String b EmptyString)
    /\ is_hex_digit a = true /\ is_hex_digit b = true
    /\ parseInt16 (String a (String b EmptyString)) = JS.Int c.
Proof.
  intros Hc. pose proof (channels_roundtrip c Hc) as H.
  unfold channel_roundtrips in H.
  destruct (list_ascii_of_string (JS.padStart 2 "0" (JS.int_toString16 c)))
    as [| a [| b [| ? ?]]] eqn:E; try discriminate.
  apply andb_true_iff in H as [H Hp]. apply andb_true_iff in H as [Ha Hb].
  exists a, b. repeat split; try assumption.
  - rewrite <- (string_of_list_ascii_of_string (JS.padStart 2 "0" (JS.int_toString16 c))).
    now rewrite E.
  - simpl in Hp. destruct (parseInt16 (String a (String b EmptyString))) as [n |];
      [| discriminate].
    apply Z.eqb_eq in Hp. now subst.
Qed.

Lemma list_ascii_length (s : string) :
  length (list_ascii_of_string s) = String.length s.
Proof. induction s as [| c s IH]; simpl; [reflexivity | now rewrite IH]. Qed.

(** The pattern matches exactly the colours in hexadecimal notation. *)
Lemma hex_pattern_exec_spec (hex : string) :
  (exists groups, hex_pattern_exec hex = Some groups) <-> hex_color hex.
Proof.
  split.
  - intros (groups & H). unfold hex_pattern_exec in H.
    set (digits := match hex with
                   | String "#"%char rest => rest
                   | _ => hex
                   end) in *.
    assert (Hshape : hex = digits \/ hex = String "#" digits).
    { unfold digits. destruct hex as [| c rest]; [now left |].
      destruct (Ascii.eqb_spec c "#") as [-> | Hne]; [now right |].
      left. destruct c as [[] [] [] [] [] [] [] []]; try reflexivity.
      now destruct Hne. }
    destruct (list_ascii_of_string digits)
      as [| a [| b [| c [| d [| e [| f [| ? ?]]]]]]] eqn:E; try discriminate.
    destruct (forallb is_hex_digit [a; b; c; d; e; f]) eqn:Hall; [| discriminate].
    exists digits. split; [exact Hshape |]. split.
    + now rewrite <- list_ascii_length, E.
    + rewrite E. rewrite forallb_forall in Hall.
      apply List.Forall_forall. intros x Hx. apply is_hex_digit_spec. now apply Hall.
  - intros (body & Hshape & Hlen & Hall).
    assert (Hdigits : match hex with
                      | String "#"%char rest => rest
                      | _ => hex
                      end = body).
    { destruct Hshape as [-> | ->]; [| reflexivity].
      destruct body as [| c rest]; [reflexivity |].
      destruct (Ascii.eqb_spec c "#") as [-> | Hne].
      - inversion Hall as [| ? ? Hc _]; subst.
        apply is_hex_digit_spec in Hc. discriminate Hc.
      - destruct c as [[] [] [] [] [] [] [] []]; try reflexivity.
        now destruct Hne. }
    unfold hex_pattern_exec. rewrite Hdigits.
    rewrite <- list_ascii_length in Hlen.
    destruct (list_ascii_of_string body)
      as [| a [| b [| c [| d [| e [| f [| ? ?]]]]]]]; try discriminate.
    assert (Hb : forallb is_hex_digit [a; b; c; d; e; f] = true).
    { apply forallb_forall. intros x Hx. apply is_hex_digit_spec.
      rewrite List.Forall_forall in Hall. now apply Hall. }
    rewrite Hb. eauto.
Qed.

(** C10. For channel values between 0 and 255, [hexToRgb] reads back from
    the text of [rgbToHex] the three values it was given; and [hexToRgb]
    throws "Invalid hex color" for every string that is not an optional [#]
    followed by exactly six hexadecimal digits (and for no other). *)
Theorem hexToRgb_rgbToHex :
  (forall r g b : Z,
     0 <= r <= 255 -> 0 <= g <= 255 -> 0 <= b <= 255 ->
     hexToRgb (rgbToHex (r, g, b)) = Returned (JS.Int r, JS.Int g, JS.Int b))
  /\ (forall hex : string,
        ~ hex_color hex <-> hexToRgb hex = Thrown (Error "Invalid hex color")).
Proof.
  split.
  - intros r g b Hr Hg Hb.
    destruct (channel_text r Hr) as (r1 & r2 & Er & Hr1 & Hr2 & Pr).
    destruct (channel_text g Hg) as (g1 & g2 & Eg & Hg1 & Hg2 & Pg).
    destruct (channel_text b Hb) as (b1 & b2 & Eb & Hb1 & Hb2 & Pb).
    unfold rgbToHex. simpl map. rewrite Er, Eg, Eb.
    unfold hexToRgb, hex_pattern_exec. simpl.
    rewrite Hr1, Hr2, Hg1, Hg2, Hb1, Hb2. simpl.
    now rewrite Pr, Pg, Pb.
  - intros hex. rewrite <- hex_pattern_exec_spec. unfold hexToRgb. split.
    + intros Hno. destruct (hex_pattern_exec hex) as [[[g1 g2] g3] |]; [| reflexivity].
      exfalso. apply Hno. eauto.
    + intros H (groups & Hsome). rewrite Hsome in H.
      destruct groups as [[g1 g2] g3]. discriminate H.
Qed.

End HexColors.

(** * The palette of the component ([PaintLab.tsx]) *)

Section PaletteIds.

Lemma ids_app (p q : list PaletteColor) : ids (p ++ q) = ids p ++ ids q.
Proof. unfold ids. apply map_app. Qed.

Lemma addManualColor_ids (palette : list PaletteColor) :
  ids (PaintLab.addManualColor palette)
  = ids palette ++ [numeral (length palette + 1)].
Proof. unfold PaintLab.addManualColor. now rewrite ids_app. Qed.

Lemma addManualColor_length (palette : list PaletteColor) :
  length (PaintLab.addManualColor palette) = S (length palette).
Proof.
  unfold PaintLab.addManualColor. rewrite length_app. simpl. lia.
Qed.

(** As long as nothing is removed, the ids are "1", "2", ... in order. *)
Lemma additions_ids (n : nat) :
  ids (Nat.iter n PaintLab.addManualColor []) = map numeral (seq 1 n)
  /\ length (Nat.iter n PaintLab.addManualColor []) = n.
Proof.
  induction n as [| n [IHids IHlen]]; [split; reflexivity |].
  simpl Nat.iter. split.
  - rewrite addManualColor_ids, IHids, IHlen.
    rewrite seq_S, map_app. simpl. do 3 f_equal. lia.
  - now rewrite addManualColor_length, IHlen.
Qed.

Lemma additions_distinct (n : nat) :
  NoDup (ids (Nat.iter n PaintLab.addManualColor [])).
Proof.
  rewrite (proj1 (additions_ids n)).
  apply NoDup_fmap_2; [| apply NoDup_seq].
  intros i j. apply numeral_inj.
Qed.

(** C1, at the input where the code departs from it.  After two manual
    additions and the removal of colour "1" the palette holds the single
    id "2", and both [addManualColor] and [scanColor] then add a second
    colour with the id "2". *)
Theorem addManualColor_duplicates_id :
  let palette :=
    PaintLab.removeColor "1"
      (PaintLab.addManualColor (PaintLab.addManualColor [])) in
  ids palette = ["2"]
  /\ NoDup (ids palette)
  /\ ids (PaintLab.addManualColor palette) = ["2"; "2"]
  /\ ids (PaintLab.scanColor Sample.browser (Some Sample.swatch) palette)
     = ["2"; "2"]
  /\ ~ NoDup (ids (PaintLab.addManualColor palette)).
Proof.
  cbv zeta. split; [reflexivity |]. split.
  - apply NoDup_singleton.
  - split; [reflexivity |]. split; [vm_compute; reflexivity |].
    intros H. apply NoDup_cons in H as [Hin _]. apply Hin. left.
Qed.

End PaletteIds.

(** * Colour sampling ([extractColorFromImage]) *)

Section Sampling.

Lemma In_range (n k : Z) : In k (Canvas.range n) <-> 0 <= k < n.
Proof.
  unfold Canvas.range. rewrite in_map_iff. split.
  - intros (i & <- & Hi). apply in_seq in Hi. lia.
  - intros Hk. exists (Z.to_nat k). split; [lia | apply in_seq; lia].
Qed.

Lemma NoDup_range (n : Z) : NoDup (Canvas.range n).
Proof.
  unfold Canvas.range. apply NoDup_fmap_2; [| apply NoDup_seq].
  intros i j. apply Nat2Z.inj.
Qed.

Lemma rect_positive (sx sy sw sh : Z) :
  0 < sw -> 0 < sh ->
  Canvas.rect sx sy sw sh
  = flat_map (fun j => map (fun i => (sx + i, sy + j)) (Canvas.range sw))
             (Canvas.range sh).
Proof.
  intros Hw Hh. unfold Canvas.rect.
  destruct (Z.ltb_spec sw 0); [lia |]. destruct (Z.ltb_spec sh 0); [lia |].
  now rewrite !Z.abs_eq by lia.
Qed.

Lemma In_rect (sx sy sw sh : Z) (p : Z * Z) :
  0 < sw -> 0 < sh ->
  In p (Canvas.rect sx sy sw sh)
  <-> sx <= fst p < sx + sw /\ sy <= snd p < sy + sh.
Proof.
  intros Hw Hh. rewrite rect_positive by assumption.
  rewrite in_flat_map. split.
  - intros (j & Hj & Hp). apply in_map_iff in Hp as (i & <- & Hi).
    apply In_range in Hj, Hi. simpl. lia.
  - intros [Hx Hy]. exists (snd p - sy). split; [apply In_range; lia |].
    apply in_map_iff. exists (fst p - sx). split; [| apply In_range; lia].
    destruct p as [x y]. simpl. f_equal; lia.
Qed.

Lemma NoDup_rows (sx sy : Z) (cols rows : list Z) :
  NoDup cols -> NoDup rows ->
  NoDup (flat_map (fun j => map (fun i => (sx + i, sy + j)) cols) rows).
Proof.
  intros Hcols Hrows. induction Hrows as [| j rows Hj _ IH]; [constructor |].
  simpl. apply NoDup_app. split; [| split; [| exact IH]].
  - apply NoDup_fmap_2; [| exact Hcols]. intros a b E. injection E. lia.
  - intros p Hp Hq. apply list_elem_of_In in Hp, Hq.
    apply in_map_iff in Hp as (i & <- & _).
    apply in_flat_map in Hq as (j' & Hj' & Hq).
    apply in_map_iff in Hq as (i' & E & _). injection E as _ E.
    assert (j' = j) as -> by lia. apply Hj. now apply list_elem_of_In.
Qed.

Lemma NoDup_rect (sx sy sw sh : Z) :
  0 < sw -> 0 < sh -> NoDup (Canvas.rect sx sy sw sh).
Proof.
  intros Hw Hh. rewrite rect_positive by assumption.
  apply NoDup_rows; apply NoDup_range.
Qed.

(** The averaging loop adds up the channels of the pixels it is given and
    counts them. *)
Lemma sum_pixels_points (img : Raster) (pts : list (Z * Z)) (r g b n : Z) :
  Forall (fun p => Canvas.inside img (fst p) (snd p) = true) pts ->
  UtilsV2.sum_pixels
    (flat_map (fun xy => Canvas.bytes_of (Canvas.pixel_at img (fst xy) (snd xy))) pts)
    (r, g, b, n)
  = (r + channel_sum chan_r img pts, g + channel_sum chan_g img pts,
     b + channel_sum chan_b img pts, n + Z.of_nat (length pts)).
Proof.
  intros Hin. revert r g b n.
  induction Hin as [| p pts Hp _ IH]; intros r g b n.
  - unfold channel_sum. simpl. f_equal; [f_equal; [f_equal |] |]; lia.
  - simpl flat_map. unfold Canvas.pixel_at at 1. rewrite Hp.
    unfold channel_sum. simpl map. simpl fold_right. simpl length.
    destruct (img_pixel img (fst p) (snd p)) as [[[pr pg] pb] pa].
    simpl. rewrite IH. unfold channel_sum.
    f_equal; [f_equal; [f_equal |] |]; lia.
Qed.

(** The sampler of utils.ts 2.0, for a centre that lies in the image:
    every point of the square of side 10 around the centre that is in the
    image is read exactly once, no other point is read, and the result is
    the rounded mean of each channel over these points. *)
Lemma extractColorFromImage_v2_mean (browser : Browser) (file : File)
    (img : Raster) (x y : option Z) :
  file_body file = Picture img -> context2d browser = true ->
  let cx := default (img_width img / 2) x in
  let cy := default (img_height img / 2) y in
  0 <= cx < img_width img -> 0 <= cy < img_height img ->
  exists pts,
    NoDup pts
    /\ (forall p, In p pts <-> in_window img cx cy 5 p)
    /\ Forall (fun p => Canvas.inside img (fst p) (snd p) = true) pts
    /\ UtilsV2.extractColorFromImage browser file x y 10
       = Resolved (mean_color img pts).
Proof.
  intros Hbody Hctx cx cy Hcx Hcy.
  set (startX := Z.max 0 (cx - 5)). set (startY := Z.max 0 (cy - 5)).
  set (endX := Z.min (img_width img) (cx + 5)).
  set (endY := Z.min (img_height img) (cy + 5)).
  assert (Hw : 0 < endX - startX) by (unfold endX, startX; lia).
  assert (Hh : 0 < endY - startY) by (unfold endY, startY; lia).
  exists (Canvas.rect startX startY (endX - startX) (endY - startY)).
  assert (Hmem : forall p,
            In p (Canvas.rect startX startY (endX - startX) (endY - startY))
            <-> in_window img cx cy 5 p).
  { intros p. rewrite In_rect by assumption. unfold in_window.
    fold startX startY endX endY. lia. }
  assert (Hinside : Forall (fun p => Canvas.inside img (fst p) (snd p) = true)
                      (Canvas.rect startX startY (endX - startX) (endY - startY))).
  { apply List.Forall_forall. intros p Hp. apply Hmem in Hp as [Hx Hy].
    unfold Canvas.inside. unfold startX, endX, startY, endY in *.
    repeat (apply andb_true_iff; split); lia. }
  split; [now apply NoDup_rect |]. split; [exact Hmem |]. split; [exact Hinside |].
  unfold UtilsV2.extractColorFromImage. rewrite Hbody, Hctx. simpl negb. cbv iota.
  fold cx cy. unfold UtilsV2.sample_window.
  change (10 / 2) with 5. fold startX startY endX endY.
  unfold Canvas.getImageData.
  destruct (Z.eqb_spec (endX - startX) 0); [lia |].
  destruct (Z.eqb_spec (endY - startY) 0); [lia |]. simpl orb. cbv iota.
  rewrite (sum_pixels_points img _ 0 0 0 0 Hinside). reflexivity.
Qed.

(** The sampler of the first utils.ts reads 121 points, whatever the image
    and the centre. *)
Lemma sample_points_count (img : Raster) (sampleX sampleY : Z) :
  length (UtilsV1.sample_points img sampleX sampleY 5) = 121%nat.
Proof. reflexivity. Qed.

Lemma sample_points_inside (img : Raster) (sampleX sampleY halfSize : Z) :
  0 < img_width img -> 0 < img_height img ->
  Forall (fun p => Canvas.inside img (fst p) (snd p) = true)
         (UtilsV1.sample_points img sampleX sampleY halfSize).
Proof.
  intros Hw Hh. apply List.Forall_forall. intros p Hp.
  unfold UtilsV1.sample_points in Hp.
  apply in_flat_map in Hp as (dy & _ & Hp).
  apply in_map_iff in Hp as (dx & <- & _).
  unfold Canvas.inside. simpl.
  repeat (apply andb_true_iff; split); lia.
Qed.

Lemma getImageData_pixel (img : Raster) (x y : Z) :
  Canvas.getImageData img x y 1 1 = Some (Canvas.bytes_of (Canvas.pixel_at img x y)).
Proof.
  unfold Canvas.getImageData, Canvas.rect. simpl.
  rewrite !Z.add_0_r. now rewrite app_nil_r.
Qed.

Lemma add_sample_inside (img : Raster) (p : Z * Z) (r g b n : Z) :
  Canvas.inside img (fst p) (snd p) = true ->
  UtilsV1.add_sample img (r, g, b, n) p
  = (r + chan_r (img_pixel img (fst p) (snd p)),
     g + chan_g (img_pixel img (fst p) (snd p)),
     b + chan_b (img_pixel img (fst p) (snd p)), n + 1).
Proof.
  intros Hp. unfold UtilsV1.add_sample.
  rewrite getImageData_pixel. unfold Canvas.pixel_at. rewrite Hp.
  now destruct (img_pixel img (fst p) (snd p)) as [[[pr pg] pb] pa].
Qed.

Lemma add_samples (img : Raster) (pts : list (Z * Z)) (r g b n : Z) :
  Forall (fun p => Canvas.inside img (fst p) (snd p) = true) pts ->
  fold_left (UtilsV1.add_sample img) pts (r, g, b, n)
  = (r + channel_sum chan_r img pts, g + channel_sum chan_g img pts,
     b + channel_sum chan_b img pts, n + Z.of_nat (length pts)).
Proof.
  intros Hin. revert r g b n.
  induction Hin as [| p pts Hp _ IH]; intros r g b n.
  - unfold channel_sum. simpl. f_equal; [f_equal; [f_equal |] |]; lia.
  - cbn [fold_left]. rewrite (add_sample_inside img p r g b n Hp), IH.
    unfold channel_sum. cbn [map fold_right length].
    f_equal; [f_equal; [f_equal |] |]; lia.
Qed.

(** The sampler of the first utils.ts returns the rounded mean of each
    channel over its 121 sample points: the square of side 11 around the
    centre, with the points outside the image replaced by the nearest
    point of the border. *)
Lemma extractColorFromImage_v1_mean (browser : Browser) (file : File)
    (img : Raster) (x y : option Z) :
  file_body file = Picture img -> context2d browser = true ->
  0 < img_width img -> 0 < img_height img ->
  UtilsV1.extractColorFromImage browser file x y
  = Resolved (mean_color img
                (UtilsV1.sample_points img (default (img_width img / 2) x)
                                       (default (img_height img / 2) y) 5)).
Proof.
  intros Hbody Hctx Hw Hh.
  unfold UtilsV1.extractColorFromImage. rewrite Hbody, Hctx. simpl negb. cbv iota.
  change (10 / 2) with 5.
  rewrite (add_samples img _ 0 0 0 0 (sample_points_inside img _ _ 5 Hw Hh)).
  reflexivity.
Qed.

(** C6, at the input where the first utils.ts departs from it.  On a 20 by
    20 picture that is black except for the columns 5 and 15, sampled at
    its centre (10, 10), the sampler of the first utils.ts reads 121
    points, 11 by 11, and returns a red of 22; the mean over a square of
    side 10 around the centre, whichever way it is placed, is 12, which is
    what the sampler of utils.ts 2.0 returns. *)
Theorem extractColorFromImage_samples_eleven :
  UtilsV1.extractColorFromImage Sample.browser Sample.swatch None None
  = Resolved (22, 0, 0)
  /\ length (UtilsV1.sample_points Sample.striped 10 10 5) = 121%nat
  /\ mean_color Sample.striped (square 5 5 10) = (12, 0, 0)
  /\ mean_color Sample.striped (square 6 6 10) = (12, 0, 0)
  /\ UtilsV2.extractColorFromImage Sample.browser Sample.swatch None None 10
     = Resolved (12, 0, 0).
Proof. repeat split; vm_compute; reflexivity. Qed.

End Sampling.

(** * Image normalisation ([compressImage]) *)

Section Normalisation.

Local Open Scope Q_scope.

Lemma Math_round_bounds (x : Q) :
  x - (1 # 2) < inject_Z (JS.Math_round x)
  /\ inject_Z (JS.Math_round x) <= x + (1 # 2).
Proof.
  unfold JS.Math_round. pose proof (Qfloor_le (x + (1 # 2))) as Hle.
  pose proof (Qlt_floor (x + (1 # 2))) as Hlt.
  rewrite inject_Z_plus in Hlt. change (inject_Z 1) with 1 in Hlt.
  split; lra.
Qed.

Lemma Math_round_nearest (x : Q) : nearest (JS.Math_round x) x.
Proof. destruct (Math_round_bounds x). unfold nearest. split; lra. Qed.

Lemma Math_round_le (x : Q) (n : Z) : x <= inject_Z n -> (JS.Math_round x <= n)%Z.
Proof.
  intros Hx. destruct (Math_round_bounds x) as [_ Hup].
  assert (H : inject_Z (JS.Math_round x) < inject_Z (n + 1)).
  { rewrite inject_Z_plus. change (inject_Z 1) with 1. lra. }
  rewrite <- Zlt_Qlt in H. lia.
Qed.

Lemma Math_round_integer (n : Z) : JS.Math_round (inject_Z n) = n.
Proof.
  destruct (Math_round_bounds (inject_Z n)) as [Hlo Hup].
  pose proof (Math_round_le (inject_Z n) n (Qle_refl _)) as Hle.
  assert (H : inject_Z n < inject_Z (JS.Math_round (inject_Z n) + 1)).
  { rewrite inject_Z_plus. change (inject_Z 1) with 1. lra. }
  rewrite <- Zlt_Qlt in H. lia.
Qed.

Lemma Math_round_Qeq (x y : Q) : x == y -> JS.Math_round x = JS.Math_round y.
Proof.
  intros H. unfold JS.Math_round. apply Qfloor_comp. now rewrite H.
Qed.

Section Fractions.

Variables W H M N : Q.
Hypothesis W_pos : 0 < W.
Hypothesis H_pos : 0 < H.

Lemma fraction_times (m w : Q) : 0 < w -> w * (m / w) == m.
Proof. intros Hw. apply Qmult_div_r. lra. Qed.

Lemma fraction_ge_1 (m w : Q) : 0 < w -> w <= m -> 1 <= m / w.
Proof. intros Hw Hle. apply Qle_shift_div_l; [exact Hw | lra]. Qed.

Lemma fraction_lt_1 (m w : Q) : 0 < w -> m < w -> m / w < 1.
Proof. intros Hw Hlt. apply Qlt_shift_div_r; [exact Hw | lra]. Qed.

Lemma fraction_antitone (m a b : Q) :
  0 < m -> 0 < a -> a <= b -> m / b <= m / a.
Proof.
  intros Hm Ha Hab. apply Qle_shift_div_l; [exact Ha |].
  assert (E : m / b * a == m * a / b) by (unfold Qdiv; ring). rewrite E.
  apply Qle_shift_div_r; [lra | nra].
Qed.

Lemma scale_le_1 : scale_of M N W H <= 1.
Proof. apply Q.le_min_l. Qed.

Lemma scale_width : W * scale_of M N W H <= M /\ W * scale_of M N W H <= W.
Proof.
  pose proof scale_le_1 as H1. split; [| nra].
  assert (Hs : scale_of M N W H <= M / W).
  { unfold scale_of. eapply Qle_trans; [apply Q.le_min_r | apply Q.le_min_l]. }
  apply Qle_trans with (W * (M / W)); [apply Qmult_le_l; assumption |].
  rewrite fraction_times by assumption. apply Qle_refl.
Qed.

Lemma scale_height : H * scale_of M N W H <= N /\ H * scale_of M N W H <= H.
Proof.
  pose proof scale_le_1 as H1. split; [| nra].
  assert (Hs : scale_of M N W H <= N / H).
  { unfold scale_of. eapply Qle_trans; [apply Q.le_min_r | apply Q.le_min_r]. }
  apply Qle_trans with (H * (N / H)); [apply Qmult_le_l; assumption |].
  rewrite fraction_times by assumption. apply Qle_refl.
Qed.

(** When the image fits, the scale is 1. *)
Lemma scale_fits : W <= M -> H <= N -> scale_of M N W H == 1.
Proof.
  intros HW HH. unfold scale_of. apply Q.min_l.
  apply Q.min_glb; apply fraction_ge_1; assumption.
Qed.

(** When it does not, the scale is the smaller of the two fractions. *)
Lemma scale_shrinks :
  M < W \/ N < H -> scale_of M N W H == Qmin (M / W) (N / H).
Proof.
  intros Hbig. unfold scale_of. apply Q.min_r.
  destruct Hbig as [Hbig | Hbig].
  - eapply Qle_trans; [apply Q.le_min_l |].
    apply Qlt_le_weak, fraction_lt_1; assumption.
  - eapply Qle_trans; [apply Q.le_min_r |].
    apply Qlt_le_weak, fraction_lt_1; assumption.
Qed.

End Fractions.

Lemma inject_Z_lt (a b : Z) : (a < b)%Z -> inject_Z a < inject_Z b.
Proof. intros H. now rewrite <- Zlt_Qlt. Qed.

Lemma inject_Z_le (a b : Z) : (a <= b)%Z -> inject_Z a <= inject_Z b.
Proof. intros H. now rewrite <- Zle_Qle. Qed.

(** ** The arithmetic of numbers *)

Lemma round_half_even_error (x : Q) :
  Qabs (inject_Z (Double.round_half_even x) - x) <= 1 # 2.
Proof.
  unfold Double.round_half_even.
  pose proof (Qfloor_le x) as Hlo. pose proof (Qlt_floor x) as Hup.
  rewrite inject_Z_plus in Hup. change (inject_Z 1) with 1 in Hup.
  apply Qabs_Qle_condition.
  destruct (Qcompare_spec (x - inject_Z (Qfloor x)) (1 # 2)) as [E | L | G].
  - destruct (Z.even (Qfloor x));
      [| rewrite inject_Z_plus; change (inject_Z 1) with 1]; split; lra.
  - split; lra.
  - rewrite inject_Z_plus. change (inject_Z 1) with 1. split; lra.
Qed.

Lemma pow2_pos (k : Z) : 0 < 2 ^ k.
Proof. apply Qpower_0_lt. reflexivity. Qed.

Lemma pow2_plus (a b : Z) : 2 ^ (a + b) == 2 ^ a * 2 ^ b.
Proof. apply Qpower_plus. discriminate. Qed.

Lemma pow2_le (a b : Z) : (a <= b)%Z -> 2 ^ a <= 2 ^ b.
Proof. intros H. apply Qpower_le_compat_l; [exact H | discriminate]. Qed.

Lemma pow2_lt_inv (a b : Z) : 2 ^ a < 2 ^ b -> (a < b)%Z.
Proof.
  intros H. destruct (Z.lt_ge_cases a b) as [L | G]; [exact L |].
  pose proof (pow2_le b a G). lra.
Qed.

Lemma pow2_Z (a : Z) : (0 <= a)%Z -> inject_Z (2 ^ a) == 2 ^ a.
Proof. intros H. rewrite Zpower_Qpower by exact H. reflexivity. Qed.

(** [floor_log2] is the exponent of the power of two at or below [x]. *)
Lemma floor_log2_spec (x : Q) :
  0 < x ->
  2 ^ Double.floor_log2 x <= x /\ x < 2 ^ (Double.floor_log2 x + 1).
Proof.
  intros Hx. unfold Double.floor_log2.
  destruct x as [n d]. simpl Qnum. simpl Qden.
  assert (Hn : (0 < n)%Z) by (unfold Qlt in Hx; simpl in Hx; lia).
  set (a := Z.log2 n). set (b := Z.log2 (Z.pos d)).
  destruct (Z.log2_spec n Hn) as [Ha1 Ha2]. fold a in Ha1, Ha2.
  destruct (Z.log2_spec (Z.pos d) eq_refl) as [Hb1 Hb2]. fold b in Hb1, Hb2.
  assert (Ha0 : (0 <= a)%Z) by apply Z.log2_nonneg.
  assert (Hb0 : (0 <= b)%Z) by apply Z.log2_nonneg.
  assert (Qa1 : 2 ^ a <= inject_Z n).
  { rewrite <- pow2_Z by exact Ha0. rewrite <- Zle_Qle. exact Ha1. }
  assert (Qa2 : inject_Z n < 2 ^ (a + 1)).
  { rewrite <- pow2_Z by lia. rewrite <- Zlt_Qlt.
    replace (a + 1)%Z with (Z.succ a) by lia. exact Ha2. }
  assert (Qb1 : 2 ^ b <= inject_Z (Z.pos d)).
  { rewrite <- pow2_Z by exact Hb0. rewrite <- Zle_Qle. exact Hb1. }
  assert (Ex : n # d == inject_Z n / inject_Z (Z.pos d)) by apply Qmake_Qdiv.
  assert (Qd : 0 < inject_Z (Z.pos d)) by reflexivity.
  assert (Lo : 2 ^ (a - b - 1) <= n # d).
  { rewrite Ex. apply Qle_shift_div_l; [exact Qd |].
    apply Qle_trans with (2 ^ (a - b - 1) * 2 ^ (b + 1)).
    - apply Qmult_le_l; [apply pow2_pos |].
      apply Qlt_le_weak. rewrite <- pow2_Z by lia. rewrite <- Zlt_Qlt.
      replace (b + 1)%Z with (Z.succ b) by lia. exact Hb2.
    - rewrite <- pow2_plus. replace (a - b - 1 + (b + 1))%Z with a by lia.
      exact Qa1. }
  assert (Up : n # d < 2 ^ (a - b + 1)).
  { rewrite Ex. apply Qlt_shift_div_r; [exact Qd |].
    apply Qlt_le_trans with (2 ^ (a + 1)); [exact Qa2 |].
    replace (a + 1)%Z with (a - b + 1 + b)%Z by lia. rewrite pow2_plus.
    apply Qmult_le_l; [apply pow2_pos | exact Qb1]. }
  destruct (Qle_bool (2 ^ (a - b)) (n # d)) eqn:E.
  - apply Qle_bool_iff in E. split; [exact E | exact Up].
  - assert (L : n # d < 2 ^ (a - b)).
    { apply Qnot_le_lt. intros H. apply Qle_bool_iff in H. congruence. }
    split; [exact Lo |].
    replace (a - b - 1 + 1)%Z with (a - b)%Z by lia. exact L.
Qed.

(** The standard model of the arithmetic: between 2^-64 and 2^64 the
    number nearest to [x] is finite and within [x * 2^-53] of [x]. *)
Lemma fl_error (x : Q) :
  (1 # 18446744073709551616) <= x -> x < 18446744073709551616 ->
  exists y,
    Double.fl x = Double.Finite y
    /\ x * (1 - unit_roundoff) <= y /\ y <= x * (1 + unit_roundoff).
Proof.
  intros Hlo Hup. unfold Double.fl.
  assert (Hpos : 0 < x) by lra.
  assert (Hx0 : Qeq_bool x 0 = false).
  { destruct (Qeq_bool x 0) eqn:E; [| reflexivity].
    apply Qeq_bool_eq in E. lra. }
  rewrite Hx0.
  assert (Habs : Qabs x = x).
  { destruct x as [n d]. unfold Qabs. f_equal. apply Z.abs_eq.
    unfold Qlt in Hpos. simpl in Hpos. lia. }
  rewrite Habs.
  destruct (floor_log2_spec x Hpos) as [Hk1 Hk2].
  set (k := Double.floor_log2 x) in *.
  assert (Hk : (-64 <= k < 64)%Z).
  { split.
    - assert (L : 2 ^ (-64) < 2 ^ (k + 1)).
      { eapply Qle_lt_trans; [| exact Hk2].
        assert (E : 2 ^ (-64) == 1 # 18446744073709551616) by reflexivity.
        rewrite E. exact Hlo. }
      apply pow2_lt_inv in L. lia.
    - assert (L : 2 ^ k < 2 ^ 64).
      { eapply Qle_lt_trans; [exact Hk1 |].
        change (2 ^ 64) with 18446744073709551616. exact Hup. }
      now apply pow2_lt_inv in L. }
  replace (Z.max (k - 52) (-1074)) with (k - 52)%Z by lia.
  set (e := (k - 52)%Z).
  set (m := Double.round_half_even (x / 2 ^ e)).
  pose proof (pow2_pos e) as Pe.
  assert (Hr : Qred (inject_Z m * 2 ^ e) == inject_Z m * 2 ^ e)
    by apply Qred_correct.
  assert (Herr : Qabs (inject_Z m * 2 ^ e - x) <= x * unit_roundoff).
  { pose proof (round_half_even_error (x / 2 ^ e)) as Hm. fold m in Hm.
    assert (E : inject_Z m * 2 ^ e - x == (inject_Z m - x / 2 ^ e) * 2 ^ e).
    { field. intros H0. rewrite H0 in Pe. discriminate Pe. }
    rewrite E, Qabs_Qmult, (Qabs_pos (2 ^ e)) by lra.
    apply Qle_trans with ((1 # 2) * 2 ^ e).
    - apply Qmult_le_compat_r; [exact Hm | lra].
    - apply Qle_trans with (2 ^ k * unit_roundoff).
      + change unit_roundoff with (2 ^ (-53)). rewrite <- pow2_plus.
        replace (k + -53)%Z with (-1 + e)%Z by (unfold e; lia).
        rewrite pow2_plus. apply Qle_refl.
      + apply Qmult_le_compat_r; [exact Hk1 | discriminate]. }
  apply Qabs_Qle_condition in Herr. destruct Herr as [He1 He2].
  exists (Qred (inject_Z m * 2 ^ e)). split; [| rewrite Hr; split; lra].
  assert (Hfin : Qle_bool (2 ^ 1024) (Qabs (Qred (inject_Z m * 2 ^ e))) = false).
  { destruct (Qle_bool _ _) eqn:E; [| reflexivity]. exfalso.
    apply Qle_bool_iff in E. rewrite Hr in E.
    assert (P0 : 0 <= inject_Z m * 2 ^ e).
    { assert (U : 0 <= x * (1 - unit_roundoff)).
      { apply Qmult_le_0_compat; [lra | discriminate]. }
      lra. }
    rewrite Qabs_pos in E by exact P0.
    assert (B : 18446744073709551616 + 18446744073709551616 <= 2 ^ 1024)
      by (vm_compute; discriminate).
    assert (V : x * unit_roundoff <= x).
    { rewrite <- (Qmult_1_r x) at 2. apply Qmult_le_l; [exact Hpos | discriminate]. }
    lra. }
  rewrite Hfin. reflexivity.
Qed.

Lemma inject_Z_between (lo n hi : Z) :
  (lo < n < hi)%Z -> inject_Z lo < inject_Z n /\ inject_Z n < inject_Z hi.
Proof. intros [H1 H2]. split; now apply inject_Z_lt. Qed.

Lemma gt_integers (a b : Z) :
  Double.gt (Double.Finite (inject_Z a)) (Double.Finite (inject_Z b))
  = (b <? a)%Z.
Proof.
  unfold Double.gt.
  destruct (Z.ltb_spec b a) as [L | G];
    destruct (Qle_bool (inject_Z a) (inject_Z b)) eqn:E; try reflexivity.
  - apply Qle_bool_iff in E. rewrite <- Zle_Qle in E. lia.
  - assert (H : Qle_bool (inject_Z a) (inject_Z b) = true).
    { apply Qle_bool_iff. rewrite <- Zle_Qle. exact G. }
    congruence.
Qed.

(** A product of two finite numbers whose exact value is within
    [unit_roundoff] of [X]. *)
Lemma mul_error (a b X : Q) :
  (1 # 4611686018427387904) <= X -> X <= 4611686018427387904 ->
  X * (1 - unit_roundoff) <= a * b -> a * b <= X * (1 + unit_roundoff) ->
  exists p,
    Double.mul (Double.Finite a) (Double.Finite b) = Double.Finite p
    /\ X - 3 * unit_roundoff * X <= p /\ p <= X + 3 * unit_roundoff * X.
Proof.
  intros Hlo Hup H1 H2. unfold Double.mul, unit_roundoff in *.
  destruct (fl_error (a * b)) as (p & Hp & P1 & P2); [lra | lra |].
  exists p. split; [exact Hp |]. unfold unit_roundoff in P1, P2. split; lra.
Qed.

(** The quotient of two integers. *)
Lemma div_error (a b : Z) :
  (0 < a < 2 ^ 53)%Z -> (0 < b < 2 ^ 53)%Z ->
  exists q,
    Double.div (Double.Finite (inject_Z a)) (Double.Finite (inject_Z b))
    = Double.Finite q
    /\ inject_Z a / inject_Z b * (1 - unit_roundoff) <= q
    /\ q <= inject_Z a / inject_Z b * (1 + unit_roundoff).
Proof.
  intros Ha Hb. unfold Double.div.
  destruct (inject_Z_between _ _ _ Ha) as [Qa1 Qa2].
  destruct (inject_Z_between _ _ _ Hb) as [Qb1 Qb2].
  change (inject_Z 0) with 0 in Qa1, Qb1.
  change (inject_Z (2 ^ 53)) with 9007199254740992 in Qa2, Qb2.
  assert (Hb0 : Qeq_bool (inject_Z b) 0 = false).
  { destruct (Qeq_bool (inject_Z b) 0) eqn:E; [| reflexivity].
    apply Qeq_bool_eq in E. lra. }
  rewrite Hb0.
  assert (Qa : 1 <= inject_Z a).
  { change 1 with (inject_Z 1). rewrite <- Zle_Qle. lia. }
  assert (Qb : 1 <= inject_Z b).
  { change 1 with (inject_Z 1). rewrite <- Zle_Qle. lia. }
  apply fl_error.
  - apply Qle_shift_div_l; [exact Qb1 | lra].
  - apply Qlt_shift_div_r; [exact Qb1 |]. nra.
Qed.

(** An integer within one half and a little of a fraction is a nearest
    integer of it, when the little is less than half a step of the
    denominator. *)
Lemma nearest_of_close (P D : Z) (p delta : Q) :
  (0 < D)%Z ->
  inject_Z P / inject_Z D - delta <= p -> p <= inject_Z P / inject_Z D + delta ->
  delta * (2 * inject_Z D) < 1 ->
  nearest (JS.Math_round p) (inject_Z P / inject_Z D).
Proof.
  intros HD H1 H2 Hd. destruct (Math_round_bounds p) as [Hlo Hup].
  set (n := JS.Math_round p) in *. set (X := inject_Z P / inject_Z D) in *.
  pose proof (inject_Z_pos D HD) as QD.
  assert (EX : X * inject_Z D == inject_Z P).
  { unfold X. field. lra. }
  unfold nearest. split.
  - (* X - 1/2 <= n *)
    assert (L : inject_Z (2 * P) < inject_Z (2 * D * n + D + 1)).
    { rewrite !inject_Z_plus, !inject_Z_mult. change (inject_Z 2) with 2.
      change (inject_Z 1) with 1. nra. }
    rewrite <- Zlt_Qlt in L.
    assert (L' : inject_Z (2 * P) <= inject_Z (2 * D * n + D)).
    { rewrite <- Zle_Qle. lia. }
    rewrite !inject_Z_plus, !inject_Z_mult in L'. change (inject_Z 2) with 2 in L'.
    nra.
  - assert (L : inject_Z (2 * D * n) < inject_Z (2 * P + D + 1)).
    { rewrite !inject_Z_plus, !inject_Z_mult. change (inject_Z 2) with 2.
      change (inject_Z 1) with 1. nra. }
    rewrite <- Zlt_Qlt in L.
    assert (L' : inject_Z (2 * D * n) <= inject_Z (2 * P + D)).
    { rewrite <- Zle_Qle. lia. }
    rewrite !inject_Z_plus, !inject_Z_mult in L'. change (inject_Z 2) with 2 in L'.
    nra.
Qed.

(** The integer part of a value within a little of a fraction is the
    integer part of the fraction or, when the fraction is an integer, one
    less. *)
Lemma floor_of_close (P D : Z) (v delta : Q) :
  (0 < D)%Z ->
  inject_Z P / inject_Z D - delta <= v -> v <= inject_Z P / inject_Z D + delta ->
  delta * inject_Z D < 1 ->
  inject_Z P / inject_Z D - 1 <= inject_Z (Qfloor v)
  /\ inject_Z (Qfloor v) <= inject_Z P / inject_Z D.
Proof.
  intros HD H1 H2 Hd.
  pose proof (Qfloor_le v) as Hlo. pose proof (Qlt_floor v) as Hup.
  rewrite inject_Z_plus in Hup. change (inject_Z 1) with 1 in Hup.
  set (n := Qfloor v) in *. set (X := inject_Z P / inject_Z D) in *.
  pose proof (inject_Z_pos D HD) as QD.
  assert (EX : X * inject_Z D == inject_Z P).
  { unfold X. field. lra. }
  split.
  - assert (L : inject_Z P < inject_Z (D * (n + 1) + 1)).
    { rewrite inject_Z_plus, inject_Z_mult, inject_Z_plus.
      change (inject_Z 1) with 1. nra. }
    rewrite <- Zlt_Qlt in L.
    assert (L' : inject_Z P <= inject_Z (D * (n + 1))).
    { rewrite <- Zle_Qle. lia. }
    rewrite inject_Z_mult, inject_Z_plus in L'. change (inject_Z 1) with 1 in L'.
    nra.
  - assert (L : inject_Z (D * n) < inject_Z (P + 1)).
    { rewrite inject_Z_plus, inject_Z_mult. change (inject_Z 1) with 1. nra. }
    rewrite <- Zlt_Qlt in L.
    assert (L' : inject_Z (D * n) <= inject_Z P).
    { rewrite <- Zle_Qle. lia. }
    rewrite inject_Z_mult in L'. nra.
Qed.

Lemma nearest_Qeq (n : Z) (x y : Q) : x == y -> nearest n x -> nearest n y.
Proof. unfold nearest. intros E [H1 H2]. split; lra. Qed.

(** The smaller of two computed quotients is within [unit_roundoff] of
    the smaller of the exact ones. *)
Lemma min_error (A B a b : Q) :
  A * (1 - unit_roundoff) <= a -> a <= A * (1 + unit_roundoff) ->
  B * (1 - unit_roundoff) <= b -> b <= B * (1 + unit_roundoff) ->
  Qmin A B * (1 - unit_roundoff) <= Qmin a b
  /\ Qmin a b <= Qmin A B * (1 + unit_roundoff).
Proof.
  unfold unit_roundoff. intros Ha1 Ha2 Hb1 Hb2.
  destruct (Q.min_spec A B) as [[L E] | [L E]];
    destruct (Q.min_spec a b) as [[L' E'] | [L' E']];
    rewrite E, E'; split; lra.
Qed.

(** One dimension of utils.ts 2.0: the rounded product of the original
    dimension [d] and a ratio [r], where [d * r] is within [unit_roundoff]
    of the fraction [P / D]. *)
Lemma rounded_dimension (d P D : Z) (r : Q) :
  (0 < D < 2 ^ 25)%Z ->
  (1 # 33554432) <= inject_Z P / inject_Z D ->
  inject_Z P / inject_Z D <= 33554432 ->
  inject_Z P / inject_Z D * (1 - unit_roundoff) <= inject_Z d * r ->
  inject_Z d * r <= inject_Z P / inject_Z D * (1 + unit_roundoff) ->
  exists n,
    Double.round (Double.mul (Double.Finite (inject_Z d)) (Double.Finite r))
    = Double.of_Z n
    /\ nearest n (inject_Z P / inject_Z D).
Proof.
  intros HD Hlo Hup H1 H2. set (X := inject_Z P / inject_Z D) in *.
  destruct (mul_error (inject_Z d) r X) as (p & Hp & P1 & P2);
    try assumption; try lra.
  exists (JS.Math_round p). split.
  - rewrite Hp. reflexivity.
  - apply (nearest_of_close P D p (3 * unit_roundoff * X)); try assumption;
      try lia.
    destruct (inject_Z_between _ _ _ HD) as [QD1 QD2].
    change (inject_Z 0) with 0 in QD1.
    change (inject_Z (2 ^ 25)) with 33554432 in QD2.
    unfold unit_roundoff. 
    assert (B : X * inject_Z D <= 33554432 * 33554432) by nra.
    lra.
Qed.

Lemma fraction_window (P D : Z) :
  (0 < D < 2 ^ 25)%Z -> (1 <= P <= 2 ^ 25 * D)%Z ->
  (1 # 33554432) <= inject_Z P / inject_Z D
  /\ inject_Z P / inject_Z D <= 33554432.
Proof.
  intros HD HP.
  destruct (inject_Z_between _ _ _ HD) as [QD1 QD2].
  change (inject_Z 0) with 0 in QD1.
  change (inject_Z (2 ^ 25)) with 33554432 in QD2.
  assert (QP1 : 1 <= inject_Z P).
  { change 1 with (inject_Z 1). rewrite <- Zle_Qle. lia. }
  assert (QP2 : inject_Z P <= 33554432 * inject_Z D).
  { change 33554432 with (inject_Z (2 ^ 25)). rewrite <- inject_Z_mult.
    rewrite <- Zle_Qle. lia. }
  split.
  - apply Qle_shift_div_l; [exact QD1 | lra].
  - apply Qle_shift_div_r; [exact QD1 | lra].
Qed.

(** The new dimensions of utils.ts 2.0: each is a nearest integer of the
    exactly scaled dimension. *)
Lemma new_dimensions_v2 (M N w h : Z) :
  (0 < w < 2 ^ 25)%Z -> (0 < h < 2 ^ 25)%Z ->
  (0 < M < 2 ^ 53)%Z -> (0 < N < 2 ^ 53)%Z ->
  exists W H : Z,
    UtilsV2.new_dimensions (inject_Z M) (inject_Z N) w h
    = (Double.of_Z W, Double.of_Z H)
    /\ nearest W (inject_Z w * scale M N w h)
    /\ nearest H (inject_Z h * scale M N w h).
Proof.
  intros Hw Hh HM HN. unfold UtilsV2.new_dimensions, Double.of_Z.
  rewrite !gt_integers.
  pose proof (inject_Z_pos w ltac:(lia)) as Qw.
  pose proof (inject_Z_pos h ltac:(lia)) as Qh.
  pose proof (inject_Z_pos M ltac:(lia)) as QM.
  pose proof (inject_Z_pos N ltac:(lia)) as QN.
  destruct ((M <? w)%Z || (N <? h)%Z) eqn:Hbig.
  - assert (Hs : inject_Z M < inject_Z w \/ inject_Z N < inject_Z h).
    { apply orb_true_iff in Hbig as [Hb | Hb]; [left | right];
        apply inject_Z_lt; lia. }
    pose proof (scale_shrinks _ _ _ _ Qw Qh Hs) as Es. fold (scale M N w h) in Es.
    destruct (div_error M w HM ltac:(lia)) as (a & Ea & A1 & A2).
    destruct (div_error N h HN ltac:(lia)) as (b & Eb & B1 & B2).
    rewrite Ea, Eb. cbn [Double.min].
    set (A := inject_Z M / inject_Z w) in *.
    set (B := inject_Z N / inject_Z h) in *.
    destruct (min_error A B a b A1 A2 B1 B2) as [R1 R2].
    set (r := Qmin a b) in *.
    assert (EA : inject_Z w * A == inject_Z M) by (unfold A; field; lra).
    assert (EB : inject_Z h * B == inject_Z N) by (unfold B; field; lra).
    assert (Hlt1 : Qmin A B < 1).
    { destruct Hs as [Hs | Hs].
      - eapply Qle_lt_trans; [apply Q.le_min_l |].
        apply Qlt_shift_div_r; [exact Qw | lra].
      - eapply Qle_lt_trans; [apply Q.le_min_r |].
        apply Qlt_shift_div_r; [exact Qh | lra]. }
    destruct (Q.min_spec A B) as [[L E] | [L E]]; rewrite E in R1, R2, Hlt1.
    + (* the width meets its bound *)
      assert (HMw : (M < w)%Z).
      { rewrite Zlt_Qlt. nra. }
      assert (HhM : (h * M <= h * w)%Z) by nia.
      destruct (fraction_window M 1 ltac:(lia) ltac:(lia)) as [X1 X2].
      destruct (fraction_window (h * M) w Hw ltac:(nia)) as [Y1 Y2].
      assert (XE : inject_Z M / inject_Z 1 == inject_Z w * A).
      { rewrite EA. field. }
      assert (YE : inject_Z (h * M) / inject_Z w == inject_Z h * A).
      { unfold A. rewrite inject_Z_mult. field. lra. }
      destruct (rounded_dimension w M 1 r ltac:(lia) X1 X2) as (W & EW & NW).
      { rewrite XE. unfold unit_roundoff in *. nra. }
      { rewrite XE. unfold unit_roundoff in *. nra. }
      destruct (rounded_dimension h (h * M) w r Hw Y1 Y2) as (H & EH & NH).
      { rewrite YE. unfold unit_roundoff in *. nra. }
      { rewrite YE. unfold unit_roundoff in *. nra. }
      exists W, H. rewrite EW, EH. split; [reflexivity |]. split.
      * apply (nearest_Qeq _ _ _ (Qeq_trans _ _ _ XE
                 (Qmult_comp _ _ (Qeq_refl _) _ _ (Qeq_sym _ _
                    (Qeq_trans _ _ _ Es E))))). exact NW.
      * apply (nearest_Qeq _ _ _ (Qeq_trans _ _ _ YE
                 (Qmult_comp _ _ (Qeq_refl _) _ _ (Qeq_sym _ _
                    (Qeq_trans _ _ _ Es E))))). exact NH.
    + (* the height meets its bound *)
      assert (HNh : (N < h)%Z).
      { rewrite Zlt_Qlt. nra. }
      destruct (fraction_window N 1 ltac:(lia) ltac:(lia)) as [Y1 Y2].
      destruct (fraction_window (w * N) h Hh ltac:(nia)) as [X1 X2].
      assert (YE : inject_Z N / inject_Z 1 == inject_Z h * B).
      { rewrite EB. field. }
      assert (XE : inject_Z (w * N) / inject_Z h == inject_Z w * B).
      { unfold B. rewrite inject_Z_mult. field. lra. }
      destruct (rounded_dimension w (w * N) h r Hh X1 X2) as (W & EW & NW).
      { rewrite XE. unfold unit_roundoff in *. nra. }
      { rewrite XE. unfold unit_roundoff in *. nra. }
      destruct (rounded_dimension h N 1 r ltac:(lia) Y1 Y2) as (H & EH & NH).
      { rewrite YE. unfold unit_roundoff in *. nra. }
      { rewrite YE. unfold unit_roundoff in *. nra. }
      exists W, H. rewrite EW, EH. split; [reflexivity |]. split.
      * apply (nearest_Qeq _ _ _ (Qeq_trans _ _ _ XE
                 (Qmult_comp _ _ (Qeq_refl _) _ _ (Qeq_sym _ _
                    (Qeq_trans _ _ _ Es E))))). exact NW.
      * apply (nearest_Qeq _ _ _ (Qeq_trans _ _ _ YE
                 (Qmult_comp _ _ (Qeq_refl _) _ _ (Qeq_sym _ _
                    (Qeq_trans _ _ _ Es E))))). exact NH.
  - apply orb_false_iff in Hbig as [Hb1 Hb2].
    pose proof (scale_fits (inject_Z w) (inject_Z h) (inject_Z M) (inject_Z N)
                  Qw Qh ltac:(apply inject_Z_le; lia) ltac:(apply inject_Z_le; lia))
      as E.
    fold (scale M N w h) in E.
    exists w, h. split; [reflexivity |]. unfold nearest. rewrite E. split; split; lra.
Qed.

(** What a canvas keeps of a number that is not negative and below 2^31:
    its integer part. *)
Lemma dimension_floor (v : Q) (d : Z) :
  0 <= v -> v < 2147483648 -> Canvas.dimension (Double.Finite v) d = Qfloor v.
Proof.
  intros H0 H1. unfold Canvas.dimension.
  assert (E : Qle_bool 0 v = true) by now apply Qle_bool_iff.
  rewrite E.
  assert (F0 : (0 <= Qfloor v)%Z).
  { change 0%Z with (Qfloor 0). now apply Qfloor_resp_le. }
  assert (F1 : (Qfloor v < 2 ^ 31)%Z).
  { rewrite Zlt_Qlt. eapply Qle_lt_trans; [apply Qfloor_le |].
    change (inject_Z (2 ^ 31)) with 2147483648. exact H1. }
  assert (F2 : (2 ^ 31 < 2 ^ 32)%Z) by reflexivity.
  rewrite Z.mod_small by lia.
  destruct (Z.ltb_spec (Qfloor v) (2 ^ 31)); [reflexivity | lia].
Qed.

Lemma dimension_whole (n d : Z) :
  (0 <= n < 2 ^ 31)%Z -> Canvas.dimension (Double.of_Z n) d = n.
Proof.
  intros Hn. unfold Double.of_Z. rewrite dimension_floor.
  - apply Qfloor_Z.
  - apply inject_Z_nonneg. lia.
  - change 2147483648 with (inject_Z (2 ^ 31)). apply inject_Z_lt. lia.
Qed.

(** The values that the first utils.ts assigns: each within three
    [unit_roundoff] of the exactly scaled dimension, so that its integer
    part is that of the scaled dimension or, when the scaled dimension is
    an integer, possibly one less. *)
Lemma new_dimensions_v1 (m w h : Z) :
  (0 < w < 2 ^ 25)%Z -> (0 < h < 2 ^ 25)%Z -> (0 < m < 2 ^ 53)%Z ->
  exists vw vh : Q,
    UtilsV1.new_dimensions (inject_Z m) w h = (Double.Finite vw, Double.Finite vh)
    /\ (let x := inject_Z w * scale m m w h in
        x - 3 * unit_roundoff * x <= vw /\ vw <= x + 3 * unit_roundoff * x
        /\ x - 1 <= inject_Z (Qfloor vw) /\ inject_Z (Qfloor vw) <= x)
    /\ (let y := inject_Z h * scale m m w h in
        y - 3 * unit_roundoff * y <= vh /\ vh <= y + 3 * unit_roundoff * y
        /\ y - 1 <= inject_Z (Qfloor vh) /\ inject_Z (Qfloor vh) <= y).
Proof.
  intros Hw Hh Hm. unfold UtilsV1.new_dimensions, Double.of_Z.
  rewrite !gt_integers.
  pose proof (inject_Z_pos w ltac:(lia)) as Qw.
  pose proof (inject_Z_pos h ltac:(lia)) as Qh.
  pose proof (inject_Z_pos m ltac:(lia)) as Qm.
  assert (exact : forall n : Z, (0 < n)%Z ->
            inject_Z n - 3 * unit_roundoff * inject_Z n <= inject_Z n
            /\ inject_Z n <= inject_Z n + 3 * unit_roundoff * inject_Z n
            /\ inject_Z n - 1 <= inject_Z (Qfloor (inject_Z n))
            /\ inject_Z (Qfloor (inject_Z n)) <= inject_Z n).
  { intros n Hn. pose proof (inject_Z_pos n Hn). rewrite Qfloor_Z.
    unfold unit_roundoff. repeat split; lra. }
  assert (scaled : forall (d D : Z) (c : Q),
            (0 < d < 2 ^ 25)%Z -> (0 < D < 2 ^ 25)%Z -> (m < D)%Z -> (d <= D)%Z ->
            inject_Z d / inject_Z D * (1 - unit_roundoff) <= c ->
            c <= inject_Z d / inject_Z D * (1 + unit_roundoff) ->
            exists v,
              Double.mul (Double.Finite c) (Double.Finite (inject_Z m))
              = Double.Finite v
              /\ (let x := inject_Z d * (inject_Z m / inject_Z D) in
                  x - 3 * unit_roundoff * x <= v /\ v <= x + 3 * unit_roundoff * x
                  /\ x - 1 <= inject_Z (Qfloor v) /\ inject_Z (Qfloor v) <= x)).
  { intros d D c Hd HD HmD HdD C1 C2.
    pose proof (inject_Z_pos d ltac:(lia)) as Qd.
    pose proof (inject_Z_pos D ltac:(lia)) as QD.
    destruct (fraction_window (d * m) D HD ltac:(nia)) as [X1 X2].
    assert (XE : inject_Z (d * m) / inject_Z D
                 == inject_Z d * (inject_Z m / inject_Z D)).
    { rewrite inject_Z_mult. field. lra. }
    assert (XC : inject_Z (d * m) / inject_Z D
                 == inject_Z d / inject_Z D * inject_Z m).
    { rewrite inject_Z_mult. field. lra. }
    set (X := inject_Z (d * m) / inject_Z D) in *.
    destruct (mul_error c (inject_Z m) X) as (v & Ev & V1 & V2); try lra.
    { rewrite XC. unfold unit_roundoff in *. nra. }
    { rewrite XC. unfold unit_roundoff in *. nra. }
    exists v. split; [exact Ev |]. cbv zeta. rewrite <- XE.
    split; [exact V1 |]. split; [exact V2 |].
    apply (floor_of_close (d * m) D v (3 * unit_roundoff * X)); try lia;
      try assumption.
    destruct (inject_Z_between _ _ _ HD) as [_ QD2].
    change (inject_Z (2 ^ 25)) with 33554432 in QD2.
    unfold unit_roundoff.
    assert (B : X * inject_Z D <= 33554432 * 33554432) by nra.
    lra. }
  destruct ((h <? w)%Z && (m <? w)%Z) eqn:Hwide.
  - apply andb_true_iff in Hwide as [Hhw Hmw].
    apply Z.ltb_lt in Hhw, Hmw.
    destruct (div_error h w ltac:(lia) ltac:(lia)) as (c & Ec & C1 & C2).
    rewrite Ec.
    destruct (scaled h w c Hh Hw Hmw ltac:(lia) C1 C2) as (v & Ev & Hv).
    rewrite Ev. exists (inject_Z m), v. split; [reflexivity |].
    assert (Es : scale m m w h == inject_Z m / inject_Z w).
    { unfold scale. rewrite scale_shrinks; try assumption.
      - apply Q.min_l. apply fraction_antitone; [exact Qm | exact Qh |].
        apply inject_Z_le. lia.
      - left. apply inject_Z_lt. exact Hmw. }
    split.
    + cbv zeta.
      assert (E : inject_Z w * scale m m w h == inject_Z m).
      { rewrite Es. field. lra. }
      rewrite E. apply exact. lia.
    + cbv zeta in *. rewrite Es. exact Hv.
  - destruct (Z.ltb_spec m h) as [Hmh | Hmh].
    + assert (Hwh : (w <= h)%Z).
      { apply andb_false_iff in Hwide as [Hf | Hf]; apply Z.ltb_ge in Hf; lia. }
      destruct (div_error w h ltac:(lia) ltac:(lia)) as (c & Ec & C1 & C2).
      rewrite Ec.
      destruct (scaled w h c Hw Hh Hmh Hwh C1 C2) as (v & Ev & Hv).
      rewrite Ev. exists v, (inject_Z m). split; [reflexivity |].
      assert (Es : scale m m w h == inject_Z m / inject_Z h).
      { unfold scale. rewrite scale_shrinks; try assumption.
        - apply Q.min_r. apply fraction_antitone; [exact Qm | exact Qw |].
          apply inject_Z_le. exact Hwh.
        - right. apply inject_Z_lt. exact Hmh. }
      split.
      * cbv zeta in *. rewrite Es. exact Hv.
      * cbv zeta.
        assert (E : inject_Z h * scale m m w h == inject_Z m).
        { rewrite Es. field. lra. }
        rewrite E. apply exact. lia.
    + assert (Hwm : (w <= m)%Z).
      { apply andb_false_iff in Hwide as [Hf | Hf]; apply Z.ltb_ge in Hf; lia. }
      pose proof (scale_fits (inject_Z w) (inject_Z h) (inject_Z m) (inject_Z m)
                    Qw Qh ltac:(apply inject_Z_le; lia) ltac:(apply inject_Z_le; lia))
        as E.
      fold (scale m m w h) in E.
      exists (inject_Z w), (inject_Z h). split; [reflexivity |].
      cbv zeta. rewrite E, !Qmult_1_r. split; apply exact; lia.
Qed.

(** On these operands (those of the examples below among them) the
    arithmetic of [Double] gives the numbers that the Standard Library's
    description of IEEE 754 gives. *)
Lemma double_is_ieee :
  let dims := [0; 1; 2; 3; 7; 10; 11; 100; 1001; 1025; 1200; 1250; 1760;
               2000; 2400; 2401; 9007199254740991]%Z in
  forallb ieee_agrees
    (flat_map (fun a => flat_map (fun b => map (fun c => (a, b, c)) dims) dims)
              dims)
  = true.
Proof. vm_compute. reflexivity. Qed.

Lemma default_integer (d : Z) (o : option Z) :
  default (inject_Z d) (option_map inject_Z o) = inject_Z (default d o).
Proof. destruct o; reflexivity. Qed.

Lemma nearest_le (n b : Z) (x : Q) :
  nearest n x -> x <= inject_Z b -> (n <= b)%Z.
Proof.
  intros [_ H] Hx.
  assert (L : inject_Z n < inject_Z (b + 1)).
  { rewrite inject_Z_plus. change (inject_Z 1) with 1. lra. }
  rewrite <- Zlt_Qlt in L. lia.
Qed.

Lemma nearest_ge (n b : Z) (x : Q) :
  nearest n x -> inject_Z b <= x -> (b <= n)%Z.
Proof.
  intros [H _] Hx.
  assert (L : inject_Z b < inject_Z (n + 1)).
  { rewrite inject_Z_plus. change (inject_Z 1) with 1. lra. }
  rewrite <- Zlt_Qlt in L. lia.
Qed.

(** C5, as the code has it.  For a picture of [w] by [h] pixels, each
    below 2^25, and integer bounds from 1 on (below 2^53, as a number
    holds them), with [s = min(1, maxWidth / w, maxHeight / h)]:
    [compressImage] of utils.ts 2.0 computes dimensions that are each a
    nearest integer of the exactly scaled dimension [w * s], [h * s]
    (either neighbour when that lies half way), neither above its bound
    nor above the original, and the original ones when the picture fits;
    it resolves with them when both are at least 1 and rejects when one
    is 0.  [compressImage] of the first utils.ts, where both bounds are
    [maxDimension], leaves the rounding to the canvas, which keeps the
    integer part: its dimensions are at most the scaled ones and less
    than one pixel below them (exactly one below only where the scaled
    one is an integer), neither above the bound nor above the original;
    it resolves with them when both are at least 1 and rejects when one
    is 0. *)
Theorem compressImage_dimensions :
  (forall (browser : Browser) (file : File) (img : Raster)
          (maxWidth maxHeight : option Z) (quality : option Q),
     file_body file = Picture img ->
     context2d browser = true -> encodes browser = true ->
     (0 < img_width img < 2 ^ 25)%Z -> (0 < img_height img < 2 ^ 25)%Z ->
     (0 < default 1200 maxWidth < 2 ^ 53)%Z ->
     (0 < default 1200 maxHeight < 2 ^ 53)%Z ->
     let w := img_width img in
     let h := img_height img in
     let maxW := default 1200%Z maxWidth in
     let maxH := default 1200%Z maxHeight in
     let s := scale maxW maxH w h in
     let result :=
       UtilsV2.compressImage browser file
         (integer_options maxWidth maxHeight quality) in
     exists width height : Z,
       nearest width (inject_Z w * s) /\ nearest height (inject_Z h * s)
       /\ (0 <= width <= maxW)%Z /\ (0 <= height <= maxH)%Z
       /\ (width <= w)%Z /\ (height <= h)%Z
       /\ ((w <= maxW)%Z -> (h <= maxH)%Z -> width = w /\ height = h)
       /\ ((1 <= width)%Z -> (1 <= height)%Z ->
           exists out,
             result = Resolved out
             /\ UtilsV2.out_width out = width
             /\ UtilsV2.out_height out = height)
       /\ (width = 0%Z \/ height = 0%Z ->
           result = Rejected "Could not compress image"))
  /\ (forall (browser : Browser) (file : File) (maxDimension : Z) (quality : Q)
             (img : Raster),
        file_body file = Picture img ->
        context2d browser = true -> encodes browser = true ->
        (0 < img_width img < 2 ^ 25)%Z -> (0 < img_height img < 2 ^ 25)%Z ->
        (0 < maxDimension < 2 ^ 53)%Z ->
        let w := img_width img in
        let h := img_height img in
        let s := scale maxDimension maxDimension w h in
        let result :=
          UtilsV1.compressImage browser file (inject_Z maxDimension) quality in
        exists width height : Z,
          (inject_Z w * s - 1 <= inject_Z width /\ inject_Z width <= inject_Z w * s)
          /\ (inject_Z h * s - 1 <= inject_Z height
              /\ inject_Z height <= inject_Z h * s)
          /\ (0 <= width <= maxDimension)%Z /\ (0 <= height <= maxDimension)%Z
          /\ (width <= w)%Z /\ (height <= h)%Z
          /\ ((w <= maxDimension)%Z -> (h <= maxDimension)%Z ->
              width = w /\ height = h)
          /\ ((1 <= width)%Z -> (1 <= height)%Z ->
              exists blob,
                result = Resolved blob
                /\ blob_width blob = width /\ blob_height blob = height)
          /\ (width = 0%Z \/ height = 0%Z ->
              result = Rejected "Compression failed")).
Proof.
  split.
  - intros browser file img mw mh quality Hbody Hctx Henc Hw Hh HmW HmH
           w h maxW maxH s result.
    destruct (new_dimensions_v2 maxW maxH w h Hw Hh HmW HmH)
      as (W & H & Hdim & NW & NH).
    fold s in NW, NH.
    pose proof (scale_width (inject_Z w) (inject_Z h) (inject_Z maxW)
                  (inject_Z maxH) (inject_Z_pos w ltac:(lia))) as [HsW HsW'].
    pose proof (scale_height (inject_Z w) (inject_Z h) (inject_Z maxW)
                  (inject_Z maxH) (inject_Z_pos h ltac:(lia))) as [HsH HsH'].
    fold (scale maxW maxH w h) in HsW, HsW', HsH, HsH'.
    fold s in HsW, HsW', HsH, HsH'.
    assert (Hs0 : 0 < s).
    { unfold s, scale, scale_of.
      pose proof (inject_Z_pos w ltac:(lia)). pose proof (inject_Z_pos h ltac:(lia)).
      pose proof (inject_Z_pos maxW ltac:(lia)).
      pose proof (inject_Z_pos maxH ltac:(lia)).
      apply Q.min_glb_lt; [reflexivity |].
      apply Q.min_glb_lt; (apply Qlt_shift_div_l; [assumption | lra]). }
    assert (BW : (0 <= W <= maxW)%Z /\ (W <= w)%Z).
    { pose proof (inject_Z_pos w ltac:(lia)).
      split; [split |].
      - apply (nearest_ge W 0 _ NW). change (inject_Z 0) with 0. nra.
      - apply (nearest_le W maxW _ NW HsW).
      - apply (nearest_le W w _ NW HsW'). }
    assert (BH : (0 <= H <= maxH)%Z /\ (H <= h)%Z).
    { pose proof (inject_Z_pos h ltac:(lia)).
      split; [split |].
      - apply (nearest_ge H 0 _ NH). change (inject_Z 0) with 0. nra.
      - apply (nearest_le H maxH _ NH HsH).
      - apply (nearest_le H h _ NH HsH'). }
    assert (Hrun : result
                   = if (W =? 0)%Z || (H =? 0)%Z
                     then Rejected "Could not compress image"
                     else Resolved (UtilsV2.mkCompressedFile
                                      (UtilsV2.replace_extension (file_name file))
                                      W H (default (85 # 100) quality) img)).
    { unfold result, UtilsV2.compressImage, integer_options. rewrite Hbody.
      cbn [UtilsV2.maxWidth UtilsV2.maxHeight UtilsV2.quality].
      change 1200 with (inject_Z 1200). rewrite !default_integer.
      fold maxW maxH w h. rewrite Hdim, Hctx, Henc.
      rewrite !dimension_whole by lia. simpl negb. cbv iota.
      destruct (W =? 0)%Z, (H =? 0)%Z; reflexivity. }
    exists W, H. split; [exact NW |]. split; [exact NH |].
    split; [apply BW |]. split; [apply BH |]. split; [apply BW |].
    split; [apply BH |]. split; [| split].
    + intros Hfw Hfh.
      pose proof (scale_fits (inject_Z w) (inject_Z h) (inject_Z maxW)
                    (inject_Z maxH) (inject_Z_pos w ltac:(lia))
                    (inject_Z_pos h ltac:(lia))
                    ltac:(apply inject_Z_le; lia) ltac:(apply inject_Z_le; lia))
        as E.
      fold (scale maxW maxH w h) in E. fold s in E.
      split.
      * assert (L : (W <= w)%Z) by apply BW.
        assert (G : (w <= W)%Z).
        { apply (nearest_ge W w _ NW). rewrite E. lra. }
        lia.
      * assert (L : (H <= h)%Z) by apply BH.
        assert (G : (h <= H)%Z).
        { apply (nearest_ge H h _ NH). rewrite E. lra. }
        lia.
    + intros H1 H2. rewrite Hrun.
      destruct (Z.eqb_spec W 0); [lia |]. destruct (Z.eqb_spec H 0); [lia |].
      eexists. split; [reflexivity |]. split; reflexivity.
    + intros Hzero. rewrite Hrun.
      destruct Hzero as [-> | ->]; [reflexivity |].
      now rewrite orb_true_r.
  - intros browser file m quality img Hbody Hctx Henc Hw Hh Hm w h s result.
    destruct (new_dimensions_v1 m w h Hw Hh Hm)
      as (vw & vh & Hdim & Hvw & Hvh).
    cbv zeta in Hvw, Hvh. fold s in Hvw, Hvh.
    destruct Hvw as (W1 & W2 & W3 & W4). destruct Hvh as (H1 & H2 & H3 & H4).
    pose proof (scale_width (inject_Z w) (inject_Z h) (inject_Z m)
                  (inject_Z m) (inject_Z_pos w ltac:(lia))) as [HsW HsW'].
    pose proof (scale_height (inject_Z w) (inject_Z h) (inject_Z m)
                  (inject_Z m) (inject_Z_pos h ltac:(lia))) as [HsH HsH'].
    fold (scale m m w h) in HsW, HsW', HsH, HsH'. fold s in HsW, HsW', HsH, HsH'.
    assert (Hs0 : 0 < s).
    { unfold s, scale, scale_of.
      pose proof (inject_Z_pos w ltac:(lia)). pose proof (inject_Z_pos h ltac:(lia)).
      pose proof (inject_Z_pos m ltac:(lia)).
      apply Q.min_glb_lt; [reflexivity |].
      apply Q.min_glb_lt; (apply Qlt_shift_div_l; [assumption | lra]). }
    pose proof (inject_Z_pos w ltac:(lia)) as Qw.
    pose proof (inject_Z_pos h ltac:(lia)) as Qh.
    destruct (inject_Z_between _ _ _ Hw) as [_ Qw2].
    destruct (inject_Z_between _ _ _ Hh) as [_ Qh2].
    change (inject_Z (2 ^ 25)) with 33554432 in Qw2, Qh2.
    fold w in Qw2. fold h in Qh2.
    assert (X0 : 0 < inject_Z w * s) by nra.
    assert (Y0 : 0 < inject_Z h * s) by nra.
    set (x := inject_Z w * s) in *. set (y := inject_Z h * s) in *.
    assert (Vw : 0 <= vw /\ vw < 2147483648).
    { unfold unit_roundoff in *. split; lra. }
    assert (Vh : 0 <= vh /\ vh < 2147483648).
    { unfold unit_roundoff in *. split; lra. }
    set (W := Qfloor vw) in *. set (H := Qfloor vh) in *.
    assert (BW : (0 <= W <= m)%Z /\ (W <= w)%Z).
    { split; [split |].
      - change 0%Z with (Qfloor 0). apply Qfloor_resp_le. apply Vw.
      - rewrite Zle_Qle. lra.
      - rewrite Zle_Qle. lra. }
    assert (BH : (0 <= H <= m)%Z /\ (H <= h)%Z).
    { split; [split |].
      - change 0%Z with (Qfloor 0). apply Qfloor_resp_le. apply Vh.
      - rewrite Zle_Qle. lra.
      - rewrite Zle_Qle. lra. }
    assert (Hrun : result
                   = if negb (W =? 0)%Z && negb (H =? 0)%Z
                     then Resolved (mkBlob W H quality img)
                     else Rejected "Compression failed").
    { unfold result, UtilsV1.compressImage. rewrite Hbody, Hctx.
      simpl negb. cbv iota. fold w h. rewrite Hdim, Henc.
      rewrite !dimension_floor by apply Vw || apply Vh. reflexivity. }
    exists W, H. split; [split; assumption |]. split; [split; assumption |].
    split; [apply BW |]. split; [apply BH |]. split; [apply BW |].
    split; [apply BH |]. split; [| split].
    + intros Hfw Hfh.
      assert (E : UtilsV1.new_dimensions (inject_Z m) w h
                  = (Double.of_Z w, Double.of_Z h)).
      { unfold UtilsV1.new_dimensions, Double.of_Z. rewrite !gt_integers.
        destruct (Z.ltb_spec m w); [lia |]. rewrite andb_false_r.
        destruct (Z.ltb_spec m h); [lia |]. reflexivity. }
      rewrite Hdim in E. injection E as -> ->. unfold W, H.
      now rewrite !Qfloor_Z.
    + intros G1 G2. rewrite Hrun.
      destruct (Z.eqb_spec W 0); [lia |]. destruct (Z.eqb_spec H 0); [lia |].
      eexists. split; [reflexivity |]. split; reflexivity.
    + intros Hzero. rewrite Hrun.
      destruct Hzero as [-> | ->]; [reflexivity |].
      now rewrite andb_false_r.
Qed.

(** The 2000 by 1000 picture becomes 1200 by 600 with the default
    options. *)
Lemma compressImage_dimensions_witness :
  exists out,
    UtilsV2.compressImage Sample.browser Sample.photo UtilsV2.no_options
    = Resolved out
    /\ UtilsV2.out_width out = 1200%Z /\ UtilsV2.out_height out = 600%Z.
Proof.
  destruct (proj1 compressImage_dimensions Sample.browser Sample.photo
              Sample.picture None None None eq_refl eq_refl eq_refl
              ltac:(simpl; lia) ltac:(simpl; lia) ltac:(simpl; lia)
              ltac:(simpl; lia))
    as (width & height & NW & NH & _ & _ & _ & _ & _ & Hrun & _).
  assert (Ew : width = 1200%Z).
  { apply Z.le_antisymm.
    - apply (nearest_le _ _ _ NW). vm_compute. discriminate.
    - apply (nearest_ge _ _ _ NW). vm_compute. discriminate. }
  assert (Eh : height = 600%Z).
  { apply Z.le_antisymm.
    - apply (nearest_le _ _ _ NH). vm_compute. discriminate.
    - apply (nearest_ge _ _ _ NH). vm_compute. discriminate. }
  subst width height. exact (Hrun ltac:(lia) ltac:(lia)).
Defined.

(** C5, as stated, fails in seven ways.  The first utils.ts does not
    round: for the 1001 by 2000 picture and a bound of 1200 the canvas is
    600 wide, where the rounded scaled width is 601.  utils.ts 2.0 rounds
    the product of numbers, not the exact one: the 1760 by 11 picture
    comes out 7 high, where the scaled height 7.5 rounds to 8.  A bound
    that is not an integer can be exceeded: with [maxWidth] 1200.5 the
    2401 by 100 picture comes out 1201 wide.  A dimension can round to
    0, and then nothing is produced: the 1 by 2401 picture is rejected.
    A bound of 0 gives dimensions of 0: with [maxWidth] 0 the 100 by 100
    picture is rejected.  A negative bound gives negative dimensions,
    which the canvas replaces by its defaults: with [maxWidth] -1 the 100
    by 100 picture comes out 300 by 150.  And far beyond the pictures that a canvas holds the
    numbers are too coarse for a nearest integer: for 74312077 by
    100305225 pixels and bounds of 93970081 the computed width is
    69618626, more than one half above the scaled width. *)
Lemma compressImage_dimensions_differ :
  (exists blob,
     UtilsV1.compressImage Sample.browser Sample.portrait 1200 (8 # 10)
     = Resolved blob
     /\ blob_width blob = 600%Z
     /\ JS.Math_round (inject_Z 1001 * scale 1200 1200 1001 2000) = 601%Z)
  /\ (exists out,
        UtilsV2.compressImage Sample.browser (Sample.plain 1760 11)
          UtilsV2.no_options
        = Resolved out
        /\ UtilsV2.out_height out = 7%Z
        /\ JS.Math_round (inject_Z 11 * scale 1200 1200 1760 11) = 8%Z)
  /\ (exists out,
        UtilsV2.compressImage Sample.browser (Sample.plain 2401 100)
          (UtilsV2.mkOptions (Some (2401 # 2)) None None)
        = Resolved out
        /\ UtilsV2.out_width out = 1201%Z
        /\ 2401 # 2 < inject_Z 1201)
  /\ UtilsV2.compressImage Sample.browser (Sample.plain 1 2401)
       UtilsV2.no_options
     = Rejected "Could not compress image"
  /\ UtilsV2.compressImage Sample.browser (Sample.plain 100 100)
       (integer_options (Some 0%Z) None None)
     = Rejected "Could not compress image"
  /\ (exists out,
        UtilsV2.compressImage Sample.browser (Sample.plain 100 100)
          (integer_options (Some (-1)%Z) None None)
        = Resolved out
        /\ UtilsV2.out_width out = 300%Z /\ UtilsV2.out_height out = 150%Z)
  /\ (fst (UtilsV2.new_dimensions (inject_Z 93970081) (inject_Z 93970081)
             74312077 100305225)
      = Double.of_Z 69618626
      /\ inject_Z 74312077 * scale 93970081 93970081 74312077 100305225 + (1 # 2)
         < inject_Z 69618626
      /\ JS.Math_round
           (inject_Z 74312077 * scale 93970081 93970081 74312077 100305225)
         = 69618625%Z).
Proof.
  split; [| split; [| split; [| split; [| split; [| split]]]]].
  - eexists. split; [vm_compute; reflexivity |]. split; reflexivity.
  - eexists. split; [vm_compute; reflexivity |]. split; reflexivity.
  - eexists. split; [vm_compute; reflexivity |]. split; reflexivity.
  - vm_compute. reflexivity.
  - vm_compute. reflexivity.
  - eexists. split; [vm_compute; reflexivity |]. split; reflexivity.
  - split; [vm_compute; reflexivity |]. split; vm_compute; reflexivity.
Qed.

End Normalisation.

(** * One successful attempt, start to end *)

Section Attempt.

Lemma sample_upload_orderly : orderly_upload Sample.upload.
Proof.
  split.
  - repeat (constructor; [| repeat constructor; simpl; lia]). constructor.
  - repeat constructor; simpl; lia.
Qed.

(** The first utils.ts makes the 2000 by 1000 photo 1200 by 600. *)
Lemma sample_photo_compressed :
  UtilsV1.compressImage Sample.browser Sample.photo 1200 (8 # 10)
  = Resolved (mkBlob 1200 600 (8 # 10) Sample.picture).
Proof. vm_compute. reflexivity. Qed.

(** The palette of two colours, the 2000 by 1000 photo, a threshold of 50
    and an upload reported at 0, 50 and 100 bytes of 100. *)
Lemma generatePaintByNumber_progress_witness :
  exists before,
    UtilsV1.generatePaintByNumber Sample.browser
      (Sample.server Sample.upload (Posted ∅)) Sample.photo 5%positive 50 true
      Sample.world2
    = (Returned ∅,
       mkWorld Sample.heap2 (before ++ [Answered] ++ [Progress 100]))
    /\ Forall (fun p => (p < 100)%Q) (reported before)
    /\ StronglySorted Qle (reported (before ++ [Answered] ++ [Progress 100])).
Proof.
  destruct (generatePaintByNumber_progress Sample.browser
              (Sample.server Sample.upload (Posted ∅)) Sample.world2
              Sample.photo 5%positive [Sample.red; Sample.blue] 50
              (mkBlob 1200 600 (8 # 10) Sample.picture) ∅
              sample_palette_at sample_photo_compressed eq_refl
              sample_upload_orderly)
    as (before & Hrun & _ & Hbelow & Hsorted & _).
  exists before. split; [exact Hrun |]. split; [exact Hbelow | exact Hsorted].
Defined.

End Attempt.

(** * Editing the palette ([removeColor], [updateColorNote]) *)

Section PaletteEdits.

Lemma removeColor_sublist (id0 : string) (palette : list PaletteColor) :
  sublist (PaintLab.removeColor id0 palette) palette.
Proof.
  unfold PaintLab.removeColor.
  induction palette as [| c palette IH]; simpl; [constructor |].
  destruct (negb (String.eqb (id c) id0)); now constructor.
Qed.

Lemma In_removeColor (id0 : string) (palette : list PaletteColor) (c : PaletteColor) :
  In c (PaintLab.removeColor id0 palette) <-> In c palette /\ id c <> id0.
Proof.
  unfold PaintLab.removeColor. rewrite filter_In.
  destruct (String.eqb_spec (id c) id0); simpl; intuition congruence.
Qed.

Lemma removeColor_absent (id0 : string) (palette : list PaletteColor) :
  ~ In id0 (ids palette) -> PaintLab.removeColor id0 palette = palette.
Proof.
  intros Hno. unfold PaintLab.removeColor. apply forallb_filter_id.
  apply forallb_forall. intros c Hc.
  destruct (String.eqb_spec (id c) id0) as [E |]; [| reflexivity].
  exfalso. apply Hno. unfold ids. rewrite <- E. now apply in_map.
Qed.

Lemma removeColor_gone (id0 : string) (palette : list PaletteColor) :
  ~ In id0 (ids (PaintLab.removeColor id0 palette)).
Proof.
  unfold ids. rewrite in_map_iff. intros (c & E & Hc).
  apply In_removeColor in Hc as [_ Hne]. contradiction.
Qed.

Lemma removeColor_distinct (id0 : string) (palette : list PaletteColor) :
  NoDup (ids palette) -> NoDup (ids (PaintLab.removeColor id0 palette)).
Proof.
  intros Hnd. eapply sublist_NoDup; [exact Hnd |].
  unfold ids. apply (fmap_sublist id). apply removeColor_sublist.
Qed.

(** Among distinct ids, removing one that is present takes away exactly
    one colour. *)
Lemma removeColor_length (id0 : string) (palette : list PaletteColor) :
  NoDup (ids palette) -> In id0 (ids palette) ->
  S (length (PaintLab.removeColor id0 palette)) = length palette.
Proof.
  induction palette as [| c palette IH]; intros Hnd Hin; [destruct Hin |].
  simpl in Hnd. apply NoDup_cons in Hnd as [Hc Hnd].
  unfold PaintLab.removeColor in *. simpl.
  destruct (String.eqb_spec (id c) id0) as [E | Hne]; simpl.
  - f_equal. fold (PaintLab.removeColor id0 palette).
    rewrite removeColor_absent; [reflexivity |].
    rewrite <- E. intros H. apply Hc. now apply list_elem_of_In.
  - f_equal. apply IH; [exact Hnd |].
    destruct Hin as [E | Hin]; [contradiction | exact Hin].
Qed.

(** X1. [removeColor(id)] takes away every colour with that id and nothing
    else: the colours left are those with another id, in their order; a
    second removal, or the removal of an id that is not there, changes
    nothing; distinct ids stay distinct, and among distinct ids exactly one
    colour goes. *)
Theorem removeColor_removes_exactly (id0 : string) (palette : list PaletteColor) :
  (forall c, In c (PaintLab.removeColor id0 palette)
             <-> In c palette /\ id c <> id0)
  /\ sublist (PaintLab.removeColor id0 palette) palette
  /\ ~ In id0 (ids (PaintLab.removeColor id0 palette))
  /\ PaintLab.removeColor id0 (PaintLab.removeColor id0 palette)
     = PaintLab.removeColor id0 palette
  /\ (~ In id0 (ids palette) -> PaintLab.removeColor id0 palette = palette)
  /\ (NoDup (ids palette) -> NoDup (ids (PaintLab.removeColor id0 palette)))
  /\ (NoDup (ids palette) -> In id0 (ids palette) ->
      S (length (PaintLab.removeColor id0 palette)) = length palette).
Proof.
  split; [intros c; apply In_removeColor |].
  split; [apply removeColor_sublist |].
  split; [apply removeColor_gone |].
  split; [apply removeColor_absent, removeColor_gone |].
  split; [apply removeColor_absent |].
  split; [apply removeColor_distinct | apply removeColor_length].
Qed.

Lemma updateColorNote_nth (id0 note0 : string) (palette : list PaletteColor)
    (i : nat) (c : PaletteColor) :
  nth_error palette i = Some c ->
  nth_error (PaintLab.updateColorNote id0 note0 palette) i
  = Some (if String.eqb (id c) id0 then mkColor (id c) (rgb c) (Some note0) else c).
Proof.
  intros H. unfold PaintLab.updateColorNote.
  rewrite nth_error_map, H. reflexivity.
Qed.

Lemma updateColorNote_ids (id0 note0 : string) (palette : list PaletteColor) :
  ids (PaintLab.updateColorNote id0 note0 palette) = ids palette
  /\ map rgb (PaintLab.updateColorNote id0 note0 palette) = map rgb palette.
Proof.
  unfold PaintLab.updateColorNote, ids. rewrite !map_map.
  split; apply map_ext; intros c; now destruct (String.eqb (id c) id0).
Qed.

(** X2. [updateColorNote(id, note)] keeps the length, the order, the ids and
    the rgb values; at every position the colour gets the new note when its
    id is the given one and is left alone otherwise, so an id that is not in
    the palette changes nothing; of two updates of one id the second wins,
    and updates of different ids commute. *)
Theorem updateColorNote_edits_in_place (id0 note0 : string)
    (palette : list PaletteColor) :
  length (PaintLab.updateColorNote id0 note0 palette) = length palette
  /\ ids (PaintLab.updateColorNote id0 note0 palette) = ids palette
  /\ map rgb (PaintLab.updateColorNote id0 note0 palette) = map rgb palette
  /\ (forall i c, nth_error palette i = Some c ->
        exists c', nth_error (PaintLab.updateColorNote id0 note0 palette) i = Some c'
                   /\ (id c = id0 -> note c' = Some note0)
                   /\ (id c <> id0 -> c' = c))
  /\ (~ In id0 (ids palette) ->
      PaintLab.updateColorNote id0 note0 palette = palette)
  /\ (forall note1,
        PaintLab.updateColorNote id0 note1
          (PaintLab.updateColorNote id0 note0 palette)
        = PaintLab.updateColorNote id0 note1 palette)
  /\ (forall id1 note1, id1 <> id0 ->
        PaintLab.updateColorNote id1 note1
          (PaintLab.updateColorNote id0 note0 palette)
        = PaintLab.updateColorNote id0 note0
            (PaintLab.updateColorNote id1 note1 palette)).
Proof.
  split; [unfold PaintLab.updateColorNote; apply length_map |].
  split; [apply updateColorNote_ids |]. split; [apply updateColorNote_ids |].
  split.
  { intros i c Hc. eexists. split; [apply updateColorNote_nth; exact Hc |].
    destruct (String.eqb_spec (id c) id0); split; intros; try reflexivity;
      contradiction. }
  split.
  { intros Hno. unfold PaintLab.updateColorNote.
    rewrite <- (map_id palette) at 2. apply map_ext_in. intros c Hc.
    destruct (String.eqb_spec (id c) id0) as [E |]; [| reflexivity].
    exfalso. apply Hno. unfold ids. rewrite <- E. now apply in_map. }
  split.
  { intros note1. unfold PaintLab.updateColorNote. rewrite map_map.
    apply map_ext. intros c.
    destruct (String.eqb (id c) id0) eqn:E; simpl; now rewrite E. }
  intros id1 note1 Hne. unfold PaintLab.updateColorNote. rewrite !map_map.
  apply map_ext. intros c.
  destruct (String.eqb (id c) id0) eqn:E0, (String.eqb (id c) id1) eqn:E1;
    simpl; rewrite ?E0, ?E1; try reflexivity.
  apply String.eqb_eq in E0, E1. congruence.
Qed.

Lemma In_additions (n i : nat) :
  In (numeral i) (ids (Nat.iter n PaintLab.addManualColor [])) <-> (1 <= i <= n)%nat.
Proof.
  rewrite (proj1 (additions_ids n)), in_map_iff. split.
  - intros (j & E & Hj). apply numeral_inj in E. subst. apply in_seq in Hj. lia.
  - intros Hi. exists i. split; [reflexivity | apply in_seq; lia].
Qed.

(** X3. From the empty palette, [n] manual additions give the ids "1" to "n",
    all distinct.  Remove any of them but the last and add again: the new
    colour takes the id "n", which is still there.  Remove the last one and
    add again: the ids are "1" to "n" once more. *)
Theorem addition_after_removal (n i : nat) :
  (1 <= i <= n)%nat ->
  let built := Nat.iter n PaintLab.addManualColor [] in
  let after := PaintLab.addManualColor (PaintLab.removeColor (numeral i) built) in
  ids built = map numeral (seq 1 n)
  /\ NoDup (ids built)
  /\ NoDup (ids (PaintLab.removeColor (numeral i) built))
  /\ ids after = ids (PaintLab.removeColor (numeral i) built) ++ [numeral n]
  /\ ((i < n)%nat -> ~ NoDup (ids after))
  /\ (i = n -> ids after = ids built).
Proof.
  intros Hi built after.
  pose proof (additions_ids n) as [Hids Hlen]. fold built in Hids, Hlen.
  pose proof (additions_distinct n) as Hnd. fold built in Hnd.
  assert (Hin : In (numeral i) (ids built)) by (apply In_additions; exact Hi).
  pose proof (removeColor_length (numeral i) built Hnd Hin) as Hl.
  assert (Hafter : ids after
                   = ids (PaintLab.removeColor (numeral i) built) ++ [numeral n]).
  { unfold after. rewrite addManualColor_ids. do 3 f_equal. lia. }
  split; [exact Hids |]. split; [exact Hnd |].
  split; [now apply removeColor_distinct |]. split; [exact Hafter |]. split.
  - intros Hlt Hnd'. rewrite Hafter in Hnd'.
    apply NoDup_app in Hnd' as (_ & Hdisj & _).
    apply (Hdisj (numeral n)); [| now left].
    apply list_elem_of_In. unfold ids. apply in_map_iff.
    assert (Hn : In (numeral n) (ids built)) by (apply In_additions; lia).
    unfold ids in Hn. apply in_map_iff in Hn as (c & E & Hc).
    exists c. split; [exact E |]. apply In_removeColor. split; [exact Hc |].
    rewrite E. intros E'. apply numeral_inj in E'. lia.
  - intros ->. rewrite Hafter. destruct n as [| n]; [lia |].
    unfold built. simpl Nat.iter.
    pose proof (additions_ids n) as [Hids' Hlen'].
    pose proof (additions_distinct n) as Hnd'.
    set (prev := Nat.iter n PaintLab.addManualColor []) in *.
    assert (Hrm : PaintLab.removeColor (numeral (S n)) (PaintLab.addManualColor prev)
                  = prev).
    { unfold PaintLab.addManualColor, PaintLab.removeColor.
      rewrite List.filter_app. simpl. rewrite Hlen'.
      replace (n + 1)%nat with (S n) by lia. rewrite String.eqb_refl. simpl.
      rewrite app_nil_r. apply removeColor_absent.
      intros H. apply In_additions in H. lia. }
    rewrite Hrm, addManualColor_ids, Hlen'. do 3 f_equal. lia.
Qed.

(** Three additions, then the removal of colour "1". *)
Lemma addition_after_removal_witness :
  ids (PaintLab.addManualColor
         (PaintLab.removeColor "1" (Nat.iter 3 PaintLab.addManualColor [])))
  = ["2"; "3"; "3"].
Proof.
  exact (proj1 (proj2 (proj2 (proj2
           (addition_after_removal 3 1 ltac:(lia)))))).
Defined.

End PaletteEdits.

(** * The name of the compressed file *)

Section FileNames.

Import UtilsV2.

Lemma has_dot_spec (s : string) : has_dot s = false <-> dotless s.
Proof.
  unfold has_dot, dotless. split.
  - intros H Hin. assert (E : existsb (Ascii.eqb ".") (list_ascii_of_string s) = true).
    { apply existsb_exists. exists "."%char. split; [exact Hin | apply Ascii.eqb_refl]. }
    congruence.
  - intros H. destruct (existsb (Ascii.eqb ".") (list_ascii_of_string s)) eqn:E;
      [| reflexivity].
    apply existsb_exists in E as (c & Hc & Heq). apply Ascii.eqb_eq in Heq.
    subst. contradiction.
Qed.

Lemma has_dot_append (a b : string) : has_dot (a +:+ String "." b) = true.
Proof.
  unfold has_dot. apply existsb_exists. exists "."%char.
  split; [| apply Ascii.eqb_refl].
  induction a as [| c a IH]; simpl; [now left | now right].
Qed.

Lemma replace_extension_dotless (name : string) :
  dotless name -> replace_extension name = name.
Proof.
  induction name as [| c name IH]; intros Hno; [reflexivity |].
  simpl. destruct (Ascii.eqb_spec c ".") as [-> | Hne].
  - exfalso. apply Hno. now left.
  - simpl. f_equal. apply IH. intros H. apply Hno. now right.
Qed.

(** X4. [file.name.replace(/\.[^.]+$/, '.jpg')]: a name with an extension (a
    last dot with something after it) gets the extension [.jpg]; a name
    without a dot, or one that ends in a dot, is kept; the result of a
    replacement is not changed by a second one. *)
Theorem replace_extension_cases :
  (forall base ext,
     ext <> "" -> dotless ext ->
     replace_extension (base +:+ String "." ext) = base +:+ ".jpg")
  /\ (forall name, dotless name -> replace_extension name = name)
  /\ (forall base, replace_extension (base +:+ ".") = base +:+ ".")
  /\ (forall name,
        replace_extension (replace_extension name) = replace_extension name).
Proof.
  assert (Hext : forall base ext,
             ext <> "" -> dotless ext ->
             replace_extension (base +:+ String "." ext) = base +:+ ".jpg").
  { intros base ext Hne Hno. apply has_dot_spec in Hno.
    induction base as [| c base IH]; simpl.
    - rewrite Hno. destruct (String.eqb_spec ext ""); [contradiction | reflexivity].
    - rewrite has_dot_append, andb_false_r. now rewrite IH. }
  assert (Hend : forall base, replace_extension (base +:+ ".") = base +:+ ".").
  { intros base. induction base as [| c base IH]; [reflexivity |].
    simpl. rewrite has_dot_append, andb_false_r. now rewrite IH. }
  split; [exact Hext |]. split; [exact replace_extension_dotless |].
  split; [exact Hend |].
  intros name. induction name as [| c name IH]; [reflexivity |].
  simpl. destruct (Ascii.eqb c "." && negb (String.eqb name "")
                   && negb (has_dot name)) eqn:E.
  - reflexivity.
  - simpl. rewrite IH.
    destruct (Ascii.eqb c "." && negb (String.eqb (replace_extension name) "")
              && negb (has_dot (replace_extension name))) eqn:E';
      [| reflexivity].
    exfalso. apply andb_true_iff in E' as [E' Hd]. apply andb_true_iff in E' as [Hc Hn].
    rewrite Hc in E. simpl in E.
    apply negb_true_iff in Hd. apply has_dot_spec in Hd.
    rewrite (replace_extension_dotless _ Hd) in IH.
    assert (Hname : has_dot name = false).
    { destruct (has_dot name) eqn:Hh; [| reflexivity].
      exfalso. revert Hd. clear - Hh. intros Hd. apply Hd.
      unfold has_dot in Hh. apply existsb_exists in Hh as (d & Hin & Heq).
      apply Ascii.eqb_eq in Heq. subst d.
      clear Hd. induction name as [| c name IH]; [destruct Hin |].
      simpl. destruct (Ascii.eqb c "." && negb (String.eqb name "")
                       && negb (has_dot name)); [now left |].
      simpl. destruct Hin as [-> | Hin]; [now left | right; now apply IH]. }
    rewrite Hname in E. simpl in E.
    apply negb_true_iff in Hn. rewrite andb_true_r in E.
    apply negb_false_iff in E. apply String.eqb_eq in E. subst name.
    discriminate Hn.
Qed.

End FileNames.

(** * More on colour sampling *)

Section SamplingMore.

Local Open Scope Q_scope.

Ltac evaluated := cbv; repeat split; solve [reflexivity | discriminate].

Lemma Math_round_ge (x : Q) (n : Z) : inject_Z n <= x -> (n <= JS.Math_round x)%Z.
Proof.
  intros Hx. destruct (Math_round_bounds x) as [Hlo _].
  assert (H : inject_Z n < inject_Z (JS.Math_round x + 1)).
  { rewrite inject_Z_plus. change (inject_Z 1) with 1. lra. }
  rewrite <- Zlt_Qlt in H. lia.
Qed.

Lemma channel_sum_bounds (chan : Rgba -> Z) (img : Raster) (pts : list (Z * Z))
    (lo hi : Z) :
  Forall (fun p => (lo <= chan (img_pixel img (fst p) (snd p)) <= hi)%Z) pts ->
  (Z.of_nat (length pts) * lo <= channel_sum chan img pts
   <= Z.of_nat (length pts) * hi)%Z.
Proof.
  intros H. unfold channel_sum.
  induction H as [| p pts Hp _ IH]; simpl map; simpl fold_right; simpl length;
    [simpl; lia | nia].
Qed.

(** A rounded mean of values between [lo] and [hi] lies between them. *)
Lemma mean_within (total n lo hi : Z) :
  (0 < n)%Z -> (n * lo <= total <= n * hi)%Z ->
  (lo <= UtilsV2.average total n <= hi)%Z.
Proof.
  intros Hn [Hlo Hhi]. unfold UtilsV2.average.
  pose proof (inject_Z_pos n Hn) as Qn.
  split.
  - apply Math_round_ge. apply Qle_shift_div_l; [exact Qn |].
    rewrite <- inject_Z_mult. apply inject_Z_le. lia.
  - apply Math_round_le. apply Qle_shift_div_r; [exact Qn |].
    rewrite <- inject_Z_mult. apply inject_Z_le. lia.
Qed.

Lemma mean_color_within (img : Raster) (pts : list (Z * Z)) (lo hi : Z) :
  channels_within lo hi img ->
  pts <> [] ->
  Forall (fun p => Canvas.inside img (fst p) (snd p) = true) pts ->
  rgb_within lo hi (mean_color img pts).
Proof.
  intros Himg Hne Hin.
  assert (Hn : (0 < Z.of_nat (length pts))%Z) by (destruct pts; [congruence | simpl; lia]).
  assert (Hall : forall chan,
            (forall x y, Canvas.inside img x y = true ->
                         (lo <= chan (img_pixel img x y) <= hi)%Z) ->
            (lo <= UtilsV2.average (channel_sum chan img pts) (Z.of_nat (length pts))
             <= hi)%Z).
  { intros chan Hchan. apply mean_within; [exact Hn |].
    apply channel_sum_bounds. eapply List.Forall_impl; [| exact Hin].
    intros p Hp. now apply Hchan. }
  unfold mean_color, rgb_within. repeat split;
    apply Hall; intros x y Hxy; apply (Himg x y Hxy).
Qed.

Lemma uniform_within (r g b : Z) (img : Raster) (pts : list (Z * Z)) :
  uniform r g b img ->
  pts <> [] ->
  Forall (fun p => Canvas.inside img (fst p) (snd p) = true) pts ->
  mean_color img pts = (r, g, b).
Proof.
  intros Himg Hne Hin.
  assert (Hn : (0 < Z.of_nat (length pts))%Z) by (destruct pts; [congruence | simpl; lia]).
  assert (Hall : forall chan v,
            (forall x y, Canvas.inside img x y = true -> chan (img_pixel img x y) = v) ->
            UtilsV2.average (channel_sum chan img pts) (Z.of_nat (length pts)) = v).
  { intros chan v Hchan.
    assert (H : (v <= UtilsV2.average (channel_sum chan img pts)
                                      (Z.of_nat (length pts)) <= v)%Z); [| lia].
    apply mean_within; [exact Hn |].
    apply channel_sum_bounds. eapply List.Forall_impl; [| exact Hin].
    intros p Hp. rewrite (Hchan _ _ Hp). lia. }
  unfold mean_color. f_equal; [f_equal |]; apply Hall; intros x y Hxy;
    apply (Himg x y Hxy).
Qed.

Lemma sample_points_nonempty (img : Raster) (sampleX sampleY : Z) :
  UtilsV1.sample_points img sampleX sampleY 5 <> [].
Proof. discriminate. Qed.

(** X5. What both samplers return is a colour: when every channel of the image
    is a byte, so is every channel of the sample.  For utils.ts 2.0 the
    centre has to lie in the image, for the first utils.ts the image has to
    have a pixel. *)
Theorem extractColorFromImage_in_range (browser : Browser) (file : File)
    (img : Raster) (x y : option Z) :
  file_body file = Picture img -> context2d browser = true ->
  channels_within 0 255 img ->
  ((0 <= default (img_width img / 2) x < img_width img)%Z ->
   (0 <= default (img_height img / 2) y < img_height img)%Z ->
   exists c, UtilsV2.extractColorFromImage browser file x y 10 = Resolved c
             /\ rgb_within 0 255 c)
  /\ ((0 < img_width img)%Z -> (0 < img_height img)%Z ->
      exists c, UtilsV1.extractColorFromImage browser file x y = Resolved c
                /\ rgb_within 0 255 c).
Proof.
  intros Hbody Hctx Himg. split.
  - intros Hx Hy.
    destruct (extractColorFromImage_v2_mean browser file img x y Hbody Hctx Hx Hy)
      as (pts & _ & Hmem & Hin & Hrun).
    eexists. split; [exact Hrun |].
    apply mean_color_within; [exact Himg | | exact Hin].
    intros ->. apply (Hmem (default (img_width img / 2)%Z x,
                            default (img_height img / 2)%Z y)).
    unfold in_window. simpl. lia.
  - intros Hw Hh.
    rewrite (extractColorFromImage_v1_mean browser file img x y Hbody Hctx Hw Hh).
    eexists. split; [reflexivity |].
    apply mean_color_within; [exact Himg | apply sample_points_nonempty |].
    now apply sample_points_inside.
Qed.

(** The striped picture, sampled at its centre by both samplers. *)
Lemma extractColorFromImage_in_range_witness :
  (exists c, UtilsV2.extractColorFromImage Sample.browser Sample.swatch None None 10
             = Resolved c /\ rgb_within 0 255 c)
  /\ (exists c, UtilsV1.extractColorFromImage Sample.browser Sample.swatch None None
                = Resolved c /\ rgb_within 0 255 c).
Proof.
  assert (Himg : channels_within 0 255 Sample.striped).
  { intros x y _. simpl. destruct ((x =? 5)%Z || (x =? 15)%Z); simpl; lia. }
  destruct (extractColorFromImage_in_range Sample.browser Sample.swatch
              Sample.striped None None eq_refl eq_refl Himg) as [H2 H1].
  split.
  - apply H2; evaluated.
  - apply H1; evaluated.
Defined.

(** X6. A picture of one colour samples to that colour, with either sampler
    and at every centre the sampler accepts. *)
Theorem extractColorFromImage_uniform (browser : Browser) (file : File)
    (img : Raster) (x y : option Z) (r g b : Z) :
  file_body file = Picture img -> context2d browser = true ->
  uniform r g b img ->
  ((0 <= default (img_width img / 2) x < img_width img)%Z ->
   (0 <= default (img_height img / 2) y < img_height img)%Z ->
   UtilsV2.extractColorFromImage browser file x y 10 = Resolved (r, g, b))
  /\ ((0 < img_width img)%Z -> (0 < img_height img)%Z ->
      UtilsV1.extractColorFromImage browser file x y = Resolved (r, g, b)).
Proof.
  intros Hbody Hctx Himg. split.
  - intros Hx Hy.
    destruct (extractColorFromImage_v2_mean browser file img x y Hbody Hctx Hx Hy)
      as (pts & _ & Hmem & Hin & Hrun).
    rewrite Hrun. f_equal.
    apply uniform_within; [exact Himg | | exact Hin].
    intros ->. apply (Hmem (default (img_width img / 2)%Z x,
                            default (img_height img / 2)%Z y)).
    unfold in_window. simpl. lia.
  - intros Hw Hh.
    rewrite (extractColorFromImage_v1_mean browser file img x y Hbody Hctx Hw Hh).
    f_equal.
    apply uniform_within; [exact Himg | apply sample_points_nonempty |].
    now apply sample_points_inside.
Qed.

(** The photo of one colour, sampled in a corner. *)
Lemma extractColorFromImage_uniform_witness :
  UtilsV2.extractColorFromImage Sample.browser Sample.photo (Some 0%Z) (Some 0%Z) 10
  = Resolved (10, 20, 30)%Z
  /\ UtilsV1.extractColorFromImage Sample.browser Sample.photo (Some 0%Z) (Some 0%Z)
     = Resolved (10, 20, 30)%Z.
Proof.
  assert (Himg : uniform 10 20 30 Sample.picture) by (intros x y _; now simpl).
  destruct (extractColorFromImage_uniform Sample.browser Sample.photo
              Sample.picture (Some 0%Z) (Some 0%Z) 10 20 30 eq_refl eq_refl Himg)
    as [H2 H1].
  split.
  - apply H2; evaluated.
  - apply H1; evaluated.
Defined.

(** X7. With a sample size of 0 or 1 the window of utils.ts 2.0 is empty:
    [getImageData] throws inside the load handler and the promise settles
    neither way, for every centre on the image (the default one
    included). *)
Theorem extractColorFromImage_empty_window (browser : Browser) (file : File)
    (img : Raster) (x y : option Z) (sampleSize : Z) :
  file_body file = Picture img -> context2d browser = true ->
  (sampleSize = 0 \/ sampleSize = 1)%Z ->
  (0 <= default (img_width img / 2) x <= img_width img)%Z
  \/ (0 <= default (img_height img / 2) y <= img_height img)%Z ->
  UtilsV2.extractColorFromImage browser file x y sampleSize = NeverSettles.
Proof.
  intros Hbody Hctx Hsize Hcentre.
  unfold UtilsV2.extractColorFromImage. rewrite Hbody, Hctx. simpl negb. cbv iota.
  unfold UtilsV2.sample_window.
  assert (Hhalf : (sampleSize / 2 = 0)%Z) by (destruct Hsize as [-> | ->]; reflexivity).
  rewrite Hhalf. unfold Canvas.getImageData.
  set (cx := default (img_width img / 2)%Z x) in *.
  set (cy := default (img_height img / 2)%Z y) in *.
  replace ((Z.min (img_width img) (cx + 0) - Z.max 0 (cx - 0) =? 0)%Z
           || (Z.min (img_height img) (cy + 0) - Z.max 0 (cy - 0) =? 0)%Z)
    with true; [reflexivity |].
  symmetry. apply orb_true_iff.
  destruct Hcentre as [H | H]; [left | right]; apply Z.eqb_eq; lia.
Qed.

(** The striped picture with a sample size of 1. *)
Lemma extractColorFromImage_empty_window_witness :
  UtilsV2.extractColorFromImage Sample.browser Sample.swatch None None 1
  = NeverSettles.
Proof.
  apply (extractColorFromImage_empty_window Sample.browser Sample.swatch
           Sample.striped None None 1 eq_refl eq_refl).
  - right. reflexivity.
  - left. evaluated.
Defined.

(** X8. The sampler of utils.ts 2.0, for a centre in the image: it reads every
    point of the image that lies in the square from [centre - 5] to
    [centre + 4], each exactly once, reads nothing outside the image, and
    resolves to the rounded mean of each channel over these points. *)
Theorem extractColorFromImage_window_mean (browser : Browser) (file : File)
    (img : Raster) (x y : option Z) :
  file_body file = Picture img -> context2d browser = true ->
  (0 <= default (img_width img / 2) x < img_width img)%Z ->
  (0 <= default (img_height img / 2) y < img_height img)%Z ->
  exists pts,
    NoDup pts
    /\ (forall p, In p pts
                  <-> in_window img (default (img_width img / 2)%Z x)
                                (default (img_height img / 2)%Z y) 5 p)
    /\ Forall (fun p => Canvas.inside img (fst p) (snd p) = true) pts
    /\ UtilsV2.extractColorFromImage browser file x y 10
       = Resolved (mean_color img pts).
Proof. exact (extractColorFromImage_v2_mean browser file img x y). Qed.

(** The striped picture sampled by utils.ts 2.0 at its centre. *)
Lemma extractColorFromImage_window_mean_witness :
  exists pts,
    NoDup pts
    /\ (forall p, In p pts <-> in_window Sample.striped 10 10 5 p)
    /\ UtilsV2.extractColorFromImage Sample.browser Sample.swatch None None 10
       = Resolved (mean_color Sample.striped pts).
Proof.
  destruct (extractColorFromImage_window_mean Sample.browser Sample.swatch
              Sample.striped None None eq_refl eq_refl)
    as (pts & Hnd & Hmem & _ & Hrun); [evaluated | evaluated |].
  exists pts. split; [exact Hnd |]. split; [exact Hmem | exact Hrun].
Defined.

(** X9. The sampler of the first utils.ts, for an image that has a pixel and
    for every centre, in the image or not: it reads 121 points, all of them
    in the image (a point of the 11 by 11 square that falls outside is
    replaced by the nearest point of the border), and resolves to the
    rounded mean of each channel over these 121 reads. *)
Theorem extractColorFromImage_clamped_mean (browser : Browser) (file : File)
    (img : Raster) (x y : option Z) :
  file_body file = Picture img -> context2d browser = true ->
  (0 < img_width img)%Z -> (0 < img_height img)%Z ->
  let pts := UtilsV1.sample_points img (default (img_width img / 2)%Z x)
                                   (default (img_height img / 2)%Z y) 5 in
  length pts = 121%nat
  /\ Forall (fun p => Canvas.inside img (fst p) (snd p) = true) pts
  /\ UtilsV1.extractColorFromImage browser file x y
     = Resolved (mean_color img pts).
Proof.
  intros Hbody Hctx Hw Hh pts. split; [reflexivity |].
  split; [now apply sample_points_inside |].
  now apply extractColorFromImage_v1_mean.
Qed.

(** The striped picture sampled by the first utils.ts far outside its
    corner: all 121 reads are of the corner pixel. *)
Lemma extractColorFromImage_clamped_mean_witness :
  UtilsV1.extractColorFromImage Sample.browser Sample.swatch
    (Some 100%Z) (Some 100%Z)
  = Resolved (0, 0, 0)%Z.
Proof.
  exact (proj2 (proj2 (extractColorFromImage_clamped_mean Sample.browser
                         Sample.swatch Sample.striped (Some 100%Z) (Some 100%Z)
                         eq_refl eq_refl eq_refl eq_refl))).
Defined.

End SamplingMore.

(** * Requests and failures of the two flows *)

Section Requests.

(** X10. An attempt of the complexity-slider flow that passes the three checks
    issues exactly one request, with the file it was given, the palette
    with every note present and the complexity in decimal; it returns the
    mapped body of a success response, throws the mapped error of a failed
    one, and rethrows unchanged whatever is not an axios error, and an axios
    error that has neither a response nor a request. *)
Theorem generatePaintByNumber_one_request (server : Server) (w : World)
    (f : File) (palette : loc) (colors : list PaletteColor) (complexity : Z) :
  palette_at (heap w) palette colors ->
  (2 <= length colors)%nat -> 1 <= complexity <= 100 ->
  let run := UtilsV2.generatePaintByNumber server (Some f) palette complexity w in
  exists form,
    requests (trace (snd run)) = requests (trace w) ++ [form]
    /\ form_file form = FileUpload f
    /\ form_palette form = palette_json (map with_note colors)
    /\ form_threshold form = JS.int_toString complexity
    /\ (forall data, answer server form = Posted data ->
          fst run = Returned (UtilsV2.map_response data))
    /\ (forall e, answer server form = PostFailed e ->
          fst run = Thrown (UtilsV2.map_error e)
          /\ ((forall a, e <> Axios a) -> fst run = Thrown e)
          /\ (forall a, e = Axios a -> response a = None -> request a = false ->
                fst run = Thrown e)).
Proof.
  intros Hpal Hlen Hcx run.
  destruct (generate_v2_run server w f palette colors complexity Hpal Hlen Hcx)
    as (h' & _ & Hrun). fold run in Hrun.
  exists (slider_form f colors complexity).
  split; [| split; [reflexivity | split; [reflexivity | split; [reflexivity |]]]].
  - rewrite Hrun.
    destruct (answer server (slider_form f colors complexity)); simpl;
      rewrite requests_app; simpl; reflexivity.
  - split.
    + intros data Hans. rewrite Hrun, Hans. reflexivity.
    + intros e Hans. rewrite Hrun, Hans. simpl. split; [reflexivity |]. split.
      * intros Hne. destruct e; try reflexivity. now destruct (Hne e).
      * intros a -> Hr Hq. simpl. now rewrite Hr, Hq.
Qed.

(** The palette of two colours, the photo and a complexity of 50, against a
    server that answers 404. *)
Lemma generatePaintByNumber_one_request_witness :
  exists form,
    requests (trace (snd (UtilsV2.generatePaintByNumber
                            (Sample.server [] (Sample.refusal 404 "Not Found"))
                            (Some Sample.photo) 5%positive 50 Sample.world2)))
    = [form]
    /\ form_threshold form = "50".
Proof.
  destruct (generatePaintByNumber_one_request
              (Sample.server [] (Sample.refusal 404 "Not Found")) Sample.world2
              Sample.photo 5%positive [Sample.red; Sample.blue] 50
              sample_palette_at ltac:(simpl; lia) ltac:(lia))
    as (form & Hreq & _ & _ & Hthreshold & _).
  exists form. split; [exact Hreq | exact Hthreshold].
Defined.

(** X11. The progress-reporting flow checks nothing: for every palette, the
    empty one included, and every integer threshold below 2^53 in absolute
    value (the integers that print as their decimal numeral), once the
    image is compressed it issues exactly one request, with the compressed
    image under the name of the original, the palette as it is and the
    threshold in decimal.  A failed request that is an axios error,
    whatever its status, is thrown as an error with the detail of the
    server, or with "Failed to generate paint-by-number" when there is
    none; anything else is rethrown unchanged.  On a failure nothing above
    70 is reported when the upload events are orderly. *)
Theorem generatePaintByNumber_unchecked (browser : Browser) (server : Server)
    (w : World) (imageFile : File) (palette : loc) (colors : list PaletteColor)
    (threshold : Z) (onProgress : bool) (blob : Blob) :
  palette_at (heap w) palette colors ->
  UtilsV1.compressImage browser imageFile 1200 (8 # 10) = Resolved blob ->
  Z.abs threshold < 2 ^ 53 ->
  let run := UtilsV1.generatePaintByNumber browser server imageFile palette
               threshold onProgress w in
  let form := progress_form blob imageFile colors threshold in
  requests (trace (snd run)) = requests (trace w) ++ [form]
  /\ (forall a r text,
        answer server form = PostFailed (Axios a) -> response a = Some r ->
        shown_detail r "Failed to generate paint-by-number" text ->
        fst run = Thrown (Error text))
  /\ (forall a,
        answer server form = PostFailed (Axios a) -> response a = None ->
        fst run = Thrown (Error "Failed to generate paint-by-number"))
  /\ (forall e,
        answer server form = PostFailed e -> (forall a, e <> Axios a) ->
        fst run = Thrown e)
  /\ (forall e,
        answer server form = PostFailed e ->
        orderly_upload (upload_events server form) ->
        exists evs, trace (snd run) = trace w ++ evs
                    /\ Forall (fun p => (p <= 70)%Q) (reported evs)).
Proof.
  intros Hpal Hblob _ run form.
  pose proof (generate_v1_run browser server w imageFile palette colors threshold
                onProgress blob Hpal Hblob) as Hrun.
  cbv zeta in Hrun. fold run form in Hrun.
  split; [| split; [| split; [| split]]].
  - rewrite Hrun. destruct (answer server form); cbn [snd trace];
      rewrite !requests_app, !requests_progress; simpl;
      rewrite ?app_nil_r; reflexivity.
  - intros a r text Hans Hr Hshown. rewrite Hrun, Hans. simpl. rewrite Hr.
    now rewrite (shown_detail_text r _ text Hshown).
  - intros a Hans Hr. rewrite Hrun, Hans. simpl. now rewrite Hr.
  - intros e Hans Hne. rewrite Hrun, Hans. simpl.
    destruct e; try reflexivity. now destruct (Hne e).
  - intros e Hans Hord. rewrite Hrun, Hans. cbn [snd trace].
    eexists. split; [reflexivity |].
    rewrite !reported_app. apply Forall_app. split; [| apply Forall_app; split].
    + destruct onProgress; simpl; repeat constructor; discriminate.
    + constructor.
    + destruct onProgress; [| constructor]. rewrite reported_progress.
      eapply List.Forall_impl; [| exact (upload_percents_bounds _ Hord)].
      intros p [_ Hp]. exact Hp.
Qed.

(** The empty palette and a threshold of 500 against a server that answers
    500 without a detail. *)
Lemma generatePaintByNumber_unchecked_witness :
  requests (trace (snd (UtilsV1.generatePaintByNumber Sample.browser
              (Sample.server []
                 (PostFailed (Axios (mkAxiosError (Some (mkErrResponse 500 None)) true))))
              Sample.photo 1%positive 500 true Sample.world0)))
  = [progress_form (mkBlob 1200 600 (8 # 10) Sample.picture)
                   Sample.photo [] 500].
Proof.
  refine (proj1 (generatePaintByNumber_unchecked Sample.browser _ Sample.world0
                   Sample.photo 1%positive [] 500 true _ _
                   sample_photo_compressed _)).
  - exists []. split; [reflexivity | constructor].
  - reflexivity.
Defined.

(** X12. When the image cannot be compressed the progress-reporting flow throws
    the error of the compression as it is, having reported 10 and nothing
    else, and issues no request.  The compression rejects with one of four
    messages, or resolves; it never stays pending. *)
Theorem generatePaintByNumber_compression_failure (browser : Browser)
    (server : Server) (w : World) (imageFile : File) (palette : loc)
    (threshold : Z) (onProgress : bool) :
  (exists blob, UtilsV1.compressImage browser imageFile 1200 (8 # 10) = Resolved blob)
  \/ exists message,
       UtilsV1.compressImage browser imageFile 1200 (8 # 10) = Rejected message
       /\ In message ["Failed to read file"; "Failed to load image";
                      "Canvas context not available"; "Compression failed"]
       /\ UtilsV1.generatePaintByNumber browser server imageFile palette
            threshold onProgress w
          = (Thrown (Error message),
             mkWorld (heap w) (trace w ++ progress_events onProgress [10%Q])).
Proof.
  assert (Hrun : forall message,
            UtilsV1.compressImage browser imageFile 1200 (8 # 10) = Rejected message ->
            UtilsV1.generatePaintByNumber browser server imageFile palette
              threshold onProgress w
            = (Thrown (Error message),
               mkWorld (heap w) (trace w ++ progress_events onProgress [10%Q]))).
  { intros message Hc. unfold UtilsV1.generatePaintByNumber, Eff.try_catch.
    erewrite bind_returned by apply report_run. now rewrite Hc. }
  unfold UtilsV1.compressImage in *.
  destruct (file_body imageFile) as [| | img].
  - right. eexists. split; [reflexivity |]. split; [| now apply Hrun]. simpl. tauto.
  - right. eexists. split; [reflexivity |]. split; [| now apply Hrun]. simpl. tauto.
  - destruct (context2d browser); cbn [negb] in *; cbv iota in *.
    + destruct (UtilsV1.new_dimensions 1200 (img_width img) (img_height img))
        as [width height].
      destruct (encodes browser && negb (Canvas.dimension width 300 =? 0)
                && negb (Canvas.dimension height 150 =? 0)).
      * left. eauto.
      * right. eexists. split; [reflexivity |]. split; [| now apply Hrun].
        simpl. tauto.
    + right. eexists. split; [reflexivity |]. split; [| now apply Hrun].
      simpl. tauto.
Qed.

End Requests.

(** * More on image normalisation *)

Section NormalisationMore.

Local Open Scope Q_scope.

Lemma Math_round_small (x : Q) : 0 <= x -> x < 1 # 2 -> JS.Math_round x = 0%Z.
Proof.
  intros H0 H1. destruct (Math_round_bounds x) as [Hlo Hup].
  assert (Ha : inject_Z (JS.Math_round x) < inject_Z 1).
  { change (inject_Z 1) with 1. lra. }
  assert (Hb : inject_Z (-1) < inject_Z (JS.Math_round x)).
  { change (inject_Z (-1)) with (-1 # 1). lra. }
  rewrite <- Zlt_Qlt in Ha, Hb. lia.
Qed.

Lemma scale_positive (maxW maxH w h : Z) :
  (0 < w)%Z -> (0 < h)%Z -> (0 < maxW)%Z -> (0 < maxH)%Z ->
  0 < scale maxW maxH w h.
Proof.
  intros Hw Hh HmW HmH. unfold scale, scale_of.
  pose proof (inject_Z_pos w Hw). pose proof (inject_Z_pos h Hh).
  pose proof (inject_Z_pos maxW HmW). pose proof (inject_Z_pos maxH HmH).
  apply Q.min_glb_lt; [reflexivity |].
  apply Q.min_glb_lt; (apply Qlt_shift_div_l; [assumption | lra]).
Qed.

(** What the canvas keeps lies in the range of its attribute. *)
Lemma dimension_range (v : Double.number) (d : Z) :
  (0 <= d < 2 ^ 31)%Z -> (0 <= Canvas.dimension v d < 2 ^ 31)%Z.
Proof.
  intros Hd. unfold Canvas.dimension. destruct v as [x | p |]; [| lia | lia].
  cbv zeta. set (t := if Qle_bool 0 x then Qfloor x else Qceiling x).
  pose proof (Z.mod_pos_bound t (2 ^ 32) ltac:(lia)) as Hmod.
  destruct (Z.ltb_spec (t mod 2 ^ 32) (2 ^ 31)); lia.
Qed.

(** The new dimensions of utils.ts 2.0, for every picture that an image
    element holds (its sides are unsigned longs): each is the rounded
    value of a number within three [unit_roundoff] of the exactly scaled
    dimension. *)
Lemma new_dimensions_v2_close (M N w h : Z) :
  (0 < w < 2 ^ 32)%Z -> (0 < h < 2 ^ 32)%Z ->
  (0 < M < 2 ^ 53)%Z -> (0 < N < 2 ^ 53)%Z ->
  exists pw ph : Q,
    UtilsV2.new_dimensions (inject_Z M) (inject_Z N) w h
    = (Double.of_Z (JS.Math_round pw), Double.of_Z (JS.Math_round ph))
    /\ (let x := inject_Z w * scale M N w h in
        x - 3 * unit_roundoff * x <= pw /\ pw <= x + 3 * unit_roundoff * x)
    /\ (let y := inject_Z h * scale M N w h in
        y - 3 * unit_roundoff * y <= ph /\ ph <= y + 3 * unit_roundoff * y).
Proof.
  intros Hw Hh HM HN. unfold UtilsV2.new_dimensions, Double.of_Z.
  rewrite !gt_integers.
  pose proof (inject_Z_pos w ltac:(lia)) as Qw.
  pose proof (inject_Z_pos h ltac:(lia)) as Qh.
  pose proof (inject_Z_pos M ltac:(lia)) as QM.
  pose proof (inject_Z_pos N ltac:(lia)) as QN.
  destruct ((M <? w)%Z || (N <? h)%Z) eqn:Hbig.
  - assert (Hs : inject_Z M < inject_Z w \/ inject_Z N < inject_Z h).
    { apply orb_true_iff in Hbig as [Hb | Hb]; [left | right];
        apply inject_Z_lt; lia. }
    pose proof (scale_shrinks _ _ _ _ Qw Qh Hs) as Es. fold (scale M N w h) in Es.
    destruct (div_error M w HM ltac:(lia)) as (a & Ea & A1 & A2).
    destruct (div_error N h HN ltac:(lia)) as (b & Eb & B1 & B2).
    rewrite Ea, Eb. cbn [Double.min].
    set (A := inject_Z M / inject_Z w) in *.
    set (B := inject_Z N / inject_Z h) in *.
    destruct (min_error A B a b A1 A2 B1 B2) as [R1 R2].
    set (r := Qmin a b) in *. set (S := Qmin A B) in *.
    destruct (inject_Z_between _ _ _ Hw) as [_ Qw2].
    destruct (inject_Z_between _ _ _ Hh) as [_ Qh2].
    destruct (inject_Z_between _ _ _ HM) as [_ QM2].
    destruct (inject_Z_between _ _ _ HN) as [_ QN2].
    change (inject_Z (2 ^ 32)) with 4294967296 in Qw2, Qh2.
    change (inject_Z (2 ^ 53)) with 9007199254740992 in QM2, QN2.
    assert (Qw1 : 1 <= inject_Z w).
    { change 1 with (inject_Z 1). rewrite <- Zle_Qle. lia. }
    assert (Qh1 : 1 <= inject_Z h).
    { change 1 with (inject_Z 1). rewrite <- Zle_Qle. lia. }
    assert (QM1 : 1 <= inject_Z M).
    { change 1 with (inject_Z 1). rewrite <- Zle_Qle. lia. }
    assert (QN1 : 1 <= inject_Z N).
    { change 1 with (inject_Z 1). rewrite <- Zle_Qle. lia. }
    assert (EA : inject_Z w * A == inject_Z M) by (unfold A; field; lra).
    assert (EB : inject_Z h * B == inject_Z N) by (unfold B; field; lra).
    assert (A0 : (1 # 4294967296) <= A).
    { unfold A. apply Qle_shift_div_l; [exact Qw | lra]. }
    assert (B0 : (1 # 4294967296) <= B).
    { unfold B. apply Qle_shift_div_l; [exact Qh | lra]. }
    assert (S0 : (1 # 4294967296) <= S) by (apply Q.min_glb; assumption).
    assert (XW1 : inject_Z w * S <= inject_Z M).
    { rewrite <- EA. apply Qmult_le_l; [exact Qw | apply Q.le_min_l]. }
    assert (XH1 : inject_Z h * S <= inject_Z N).
    { rewrite <- EB. apply Qmult_le_l; [exact Qh | apply Q.le_min_r]. }
    assert (XW0 : (1 # 4294967296) <= inject_Z w * S) by nra.
    assert (XH0 : (1 # 4294967296) <= inject_Z h * S) by nra.
    destruct (mul_error (inject_Z w) r (inject_Z w * S)) as (pw & Epw & P1 & P2).
    { lra. }
    { lra. }
    { unfold unit_roundoff in *. nra. }
    { unfold unit_roundoff in *. nra. }
    destruct (mul_error (inject_Z h) r (inject_Z h * S)) as (ph & Eph & P3 & P4).
    { lra. }
    { lra. }
    { unfold unit_roundoff in *. nra. }
    { unfold unit_roundoff in *. nra. }
    exists pw, ph. rewrite Epw, Eph. split; [reflexivity |].
    cbv zeta. rewrite Es. split; split; assumption.
  - apply orb_false_iff in Hbig as [Hb1 Hb2].
    pose proof (scale_fits (inject_Z w) (inject_Z h) (inject_Z M) (inject_Z N)
                  Qw Qh ltac:(apply inject_Z_le; lia) ltac:(apply inject_Z_le; lia))
      as E.
    fold (scale M N w h) in E.
    exists (inject_Z w), (inject_Z h). rewrite !Math_round_integer.
    split; [reflexivity |]. cbv zeta. rewrite E, !Qmult_1_r.
    unfold unit_roundoff. split; split; lra.
Qed.

(** The values that the first utils.ts assigns, for every picture that an
    image element holds: each within three [unit_roundoff] of the exactly
    scaled dimension. *)
Lemma new_dimensions_v1_close (m w h : Z) :
  (0 < w < 2 ^ 32)%Z -> (0 < h < 2 ^ 32)%Z -> (0 < m < 2 ^ 53)%Z ->
  exists vw vh : Q,
    UtilsV1.new_dimensions (inject_Z m) w h = (Double.Finite vw, Double.Finite vh)
    /\ (let x := inject_Z w * scale m m w h in
        x - 3 * unit_roundoff * x <= vw /\ vw <= x + 3 * unit_roundoff * x)
    /\ (let y := inject_Z h * scale m m w h in
        y - 3 * unit_roundoff * y <= vh /\ vh <= y + 3 * unit_roundoff * y).
Proof.
  intros Hw Hh Hm. unfold UtilsV1.new_dimensions, Double.of_Z.
  rewrite !gt_integers.
  pose proof (inject_Z_pos w ltac:(lia)) as Qw.
  pose proof (inject_Z_pos h ltac:(lia)) as Qh.
  pose proof (inject_Z_pos m ltac:(lia)) as Qm.
  destruct (inject_Z_between _ _ _ Hm) as [_ Qm2].
  change (inject_Z (2 ^ 53)) with 9007199254740992 in Qm2.
  assert (exact : forall n : Z, (0 < n)%Z ->
            inject_Z n - 3 * unit_roundoff * inject_Z n <= inject_Z n
            /\ inject_Z n <= inject_Z n + 3 * unit_roundoff * inject_Z n).
  { intros n Hn. pose proof (inject_Z_pos n Hn).
    unfold unit_roundoff. split; lra. }
  assert (scaled : forall (d D : Z) (c : Q),
            (0 < d < 2 ^ 32)%Z -> (0 < D < 2 ^ 32)%Z -> (d <= D)%Z ->
            inject_Z d / inject_Z D * (1 - unit_roundoff) <= c ->
            c <= inject_Z d / inject_Z D * (1 + unit_roundoff) ->
            exists v,
              Double.mul (Double.Finite c) (Double.Finite (inject_Z m))
              = Double.Finite v
              /\ (let x := inject_Z d * (inject_Z m / inject_Z D) in
                  x - 3 * unit_roundoff * x <= v /\ v <= x + 3 * unit_roundoff * x)).
  { intros d D c Hd HD HdD C1 C2.
    pose proof (inject_Z_pos d ltac:(lia)) as Qd.
    pose proof (inject_Z_pos D ltac:(lia)) as QD.
    destruct (inject_Z_between _ _ _ HD) as [_ QD2].
    change (inject_Z (2 ^ 32)) with 4294967296 in QD2.
    assert (Qd1 : 1 <= inject_Z d).
    { change 1 with (inject_Z 1). rewrite <- Zle_Qle. lia. }
    assert (Qm1 : 1 <= inject_Z m).
    { change 1 with (inject_Z 1). rewrite <- Zle_Qle. lia. }
    assert (QdD : inject_Z d <= inject_Z D) by (apply inject_Z_le; exact HdD).
    set (q := inject_Z d / inject_Z D) in *.
    assert (q0 : (1 # 4294967296) <= q).
    { unfold q. apply Qle_shift_div_l; [exact QD | lra]. }
    assert (q1 : q <= 1).
    { unfold q. apply Qle_shift_div_r; [exact QD | lra]. }
    assert (XE : inject_Z d * (inject_Z m / inject_Z D) == q * inject_Z m).
    { unfold q. field. lra. }
    destruct (mul_error c (inject_Z m) (q * inject_Z m)) as (v & Ev & V1 & V2).
    { nra. }
    { nra. }
    { unfold unit_roundoff in *. nra. }
    { unfold unit_roundoff in *. nra. }
    exists v. split; [exact Ev |]. cbv zeta. rewrite XE. split; assumption. }
  destruct ((h <? w)%Z && (m <? w)%Z) eqn:Hwide.
  - apply andb_true_iff in Hwide as [Hhw Hmw].
    apply Z.ltb_lt in Hhw, Hmw.
    destruct (div_error h w ltac:(lia) ltac:(lia)) as (c & Ec & C1 & C2).
    rewrite Ec.
    destruct (scaled h w c Hh Hw ltac:(lia) C1 C2) as (v & Ev & Hv).
    rewrite Ev. exists (inject_Z m), v. split; [reflexivity |].
    assert (Es : scale m m w h == inject_Z m / inject_Z w).
    { unfold scale. rewrite scale_shrinks; try assumption.
      - apply Q.min_l. apply fraction_antitone; [exact Qm | exact Qh |].
        apply inject_Z_le. lia.
      - left. apply inject_Z_lt. exact Hmw. }
    split.
    + cbv zeta.
      assert (E : inject_Z w * scale m m w h == inject_Z m).
      { rewrite Es. field. lra. }
      rewrite E. apply exact. lia.
    + cbv zeta in *. rewrite Es. exact Hv.
  - destruct (Z.ltb_spec m h) as [Hmh | Hmh].
    + assert (Hwh : (w <= h)%Z).
      { apply andb_false_iff in Hwide as [Hf | Hf]; apply Z.ltb_ge in Hf; lia. }
      destruct (div_error w h ltac:(lia) ltac:(lia)) as (c & Ec & C1 & C2).
      rewrite Ec.
      destruct (scaled w h c Hw Hh Hwh C1 C2) as (v & Ev & Hv).
      rewrite Ev. exists v, (inject_Z m). split; [reflexivity |].
      assert (Es : scale m m w h == inject_Z m / inject_Z h).
      { unfold scale. rewrite scale_shrinks; try assumption.
        - apply Q.min_r. apply fraction_antitone; [exact Qm | exact Qw |].
          apply inject_Z_le. exact Hwh.
        - right. apply inject_Z_lt. exact Hmh. }
      split.
      * cbv zeta in *. rewrite Es. exact Hv.
      * cbv zeta.
        assert (E : inject_Z h * scale m m w h == inject_Z m).
        { rewrite Es. field. lra. }
        rewrite E. apply exact. lia.
    + assert (Hwm : (w <= m)%Z).
      { apply andb_false_iff in Hwide as [Hf | Hf]; apply Z.ltb_ge in Hf; lia. }
      pose proof (scale_fits (inject_Z w) (inject_Z h) (inject_Z m) (inject_Z m)
                    Qw Qh ltac:(apply inject_Z_le; lia) ltac:(apply inject_Z_le; lia))
        as E.
      fold (scale m m w h) in E.
      exists (inject_Z w), (inject_Z h). split; [reflexivity |].
      cbv zeta. rewrite E, !Qmult_1_r. split; apply exact; lia.
Qed.

(** One dimension of utils.ts 2.0 on the canvas: not above its bound. *)
Lemma canvas_dimension_within (p x : Q) (M d : Z) :
  (0 <= d < 2 ^ 31)%Z -> 0 <= x -> x <= inject_Z M ->
  x - 3 * unit_roundoff * x <= p -> p <= x + 3 * unit_roundoff * x ->
  (Canvas.dimension (Double.of_Z (JS.Math_round p)) d <= M)%Z.
Proof.
  intros Hd X0 XM P1 P2.
  destruct (Z_lt_le_dec M (2 ^ 31)) as [Hsmall | Hbig].
  - assert (QM : inject_Z M < 2147483648).
    { change 2147483648 with (inject_Z (2 ^ 31)). now apply inject_Z_lt. }
    destruct (Math_round_bounds p) as [Hlo Hup].
    unfold unit_roundoff in *.
    assert (L1 : inject_Z (JS.Math_round p) < inject_Z (M + 1)).
    { rewrite inject_Z_plus. change (inject_Z 1) with 1. lra. }
    assert (L0 : inject_Z (-1) < inject_Z (JS.Math_round p)).
    { change (inject_Z (-1)) with (-1 # 1). lra. }
    rewrite <- Zlt_Qlt in L0, L1.
    rewrite dimension_whole; lia.
  - pose proof (dimension_range (Double.of_Z (JS.Math_round p)) d Hd). lia.
Qed.

(** What the canvas of utils.ts 2.0 keeps is within the bounds, for every
    picture that an image element holds. *)
Lemma canvas_within (M N w h : Z) :
  (0 < w < 2 ^ 32)%Z -> (0 < h < 2 ^ 32)%Z ->
  (0 < M < 2 ^ 53)%Z -> (0 < N < 2 ^ 53)%Z ->
  let dims := UtilsV2.new_dimensions (inject_Z M) (inject_Z N) w h in
  (Canvas.dimension (fst dims) 300 <= M)%Z
  /\ (Canvas.dimension (snd dims) 150 <= N)%Z.
Proof.
  intros Hw Hh HM HN. cbv zeta.
  destruct (new_dimensions_v2_close M N w h Hw Hh HM HN)
    as (pw & ph & Hdim & [P1 P2] & [P3 P4]).
  rewrite Hdim. cbn [fst snd].
  pose proof (scale_positive M N w h ltac:(lia) ltac:(lia) ltac:(lia) ltac:(lia))
    as Hs.
  pose proof (inject_Z_pos w ltac:(lia)) as Qw.
  pose proof (inject_Z_pos h ltac:(lia)) as Qh.
  pose proof (scale_width (inject_Z w) (inject_Z h) (inject_Z M)
                (inject_Z N) Qw) as [HsW _].
  pose proof (scale_height (inject_Z w) (inject_Z h) (inject_Z M)
                (inject_Z N) Qh) as [HsH _].
  fold (scale M N w h) in HsW, HsH.
  split.
  - apply (canvas_dimension_within pw (inject_Z w * scale M N w h));
      try assumption; [lia | nra].
  - apply (canvas_dimension_within ph (inject_Z h * scale M N w h));
      try assumption; [lia | nra].
Qed.

(** [compressImage] of utils.ts 2.0 with integer bounds, by the dimensions
    that it computes. *)
Lemma compressImage_v2_run (browser : Browser) (file : File) (img : Raster)
    (maxWidth maxHeight : option Z) (quality : option Q) :
  file_body file = Picture img ->
  UtilsV2.compressImage browser file (integer_options maxWidth maxHeight quality)
  = let dims :=
      UtilsV2.new_dimensions (inject_Z (default 1200%Z maxWidth))
        (inject_Z (default 1200%Z maxHeight)) (img_width img) (img_height img) in
    let W := Canvas.dimension (fst dims) 300 in
    let H := Canvas.dimension (snd dims) 150 in
    if negb (context2d browser) then Rejected "Could not get canvas context"
    else if negb (encodes browser) || (W =? 0)%Z || (H =? 0)%Z
         then Rejected "Could not compress image"
         else Resolved (UtilsV2.mkCompressedFile
                          (UtilsV2.replace_extension (file_name file))
                          W H (default (85 # 100) quality) img).
Proof.
  intros Hbody. unfold UtilsV2.compressImage, integer_options. rewrite Hbody.
  cbn [UtilsV2.maxWidth UtilsV2.maxHeight UtilsV2.quality].
  change 1200 with (inject_Z 1200). rewrite !default_integer.
  destruct (UtilsV2.new_dimensions _ _ _ _) as [width height]. reflexivity.
Qed.

(** X13. Compressing what [compressImage] of utils.ts 2.0 produced, with the
    same integer bounds, keeps the dimensions: a picture that has the
    dimensions of the output is not resized again.  This holds for every
    picture that an image element holds (sides below 2^32) and all bounds
    from 1 on that a number holds exactly (below 2^53). *)
Theorem compressImage_stable (browser : Browser) (file again : File)
    (maxWidth maxHeight : option Z) (quality : option Q) (img img' : Raster)
    (out : UtilsV2.CompressedFile) :
  file_body file = Picture img ->
  (0 < img_width img < 2 ^ 32)%Z -> (0 < img_height img < 2 ^ 32)%Z ->
  (0 < default 1200 maxWidth < 2 ^ 53)%Z ->
  (0 < default 1200 maxHeight < 2 ^ 53)%Z ->
  UtilsV2.compressImage browser file (integer_options maxWidth maxHeight quality)
  = Resolved out ->
  file_body again = Picture img' ->
  img_width img' = UtilsV2.out_width out ->
  img_height img' = UtilsV2.out_height out ->
  exists out',
    UtilsV2.compressImage browser again
      (integer_options maxWidth maxHeight quality)
    = Resolved out'
    /\ UtilsV2.out_width out' = UtilsV2.out_width out
    /\ UtilsV2.out_height out' = UtilsV2.out_height out.
Proof.
  intros Hbody Hw Hh HmW HmH Hrun Hbody' Hw' Hh'.
  rewrite (compressImage_v2_run browser file img maxWidth maxHeight quality Hbody)
    in Hrun.
  cbv zeta in Hrun.
  destruct (canvas_within _ _ _ _ Hw Hh HmW HmH) as [BW BH]. cbv zeta in BW, BH.
  pose proof (dimension_range
                (fst (UtilsV2.new_dimensions (inject_Z (default 1200%Z maxWidth))
                        (inject_Z (default 1200%Z maxHeight))
                        (img_width img) (img_height img))) 300 ltac:(lia)) as RW.
  pose proof (dimension_range
                (snd (UtilsV2.new_dimensions (inject_Z (default 1200%Z maxWidth))
                        (inject_Z (default 1200%Z maxHeight))
                        (img_width img) (img_height img))) 150 ltac:(lia)) as RH.
  set (W := Canvas.dimension _ 300) in *. set (H := Canvas.dimension _ 150) in *.
  destruct (context2d browser) eqn:Hctx; [| discriminate]. simpl negb in Hrun.
  cbv iota in Hrun.
  destruct (negb (encodes browser) || (W =? 0)%Z || (H =? 0)%Z) eqn:Hok;
    [discriminate |].
  injection Hrun as <-. cbn [UtilsV2.out_width UtilsV2.out_height] in *.
  rewrite (compressImage_v2_run browser again img' maxWidth maxHeight quality
             Hbody').
  cbv zeta. rewrite Hw', Hh'.
  assert (Hdim' : UtilsV2.new_dimensions (inject_Z (default 1200%Z maxWidth))
                    (inject_Z (default 1200%Z maxHeight)) W H
                  = (Double.of_Z W, Double.of_Z H)).
  { unfold UtilsV2.new_dimensions, Double.of_Z. rewrite !gt_integers.
    destruct (Z.ltb_spec (default 1200%Z maxWidth) W); [lia |].
    destruct (Z.ltb_spec (default 1200%Z maxHeight) H); [lia |]. reflexivity. }
  rewrite Hdim'. cbn [fst snd]. rewrite !dimension_whole by lia.
  rewrite Hctx. simpl negb. cbv iota. rewrite Hok.
  eexists. split; [reflexivity |]. split; reflexivity.
Qed.

(** The 2000 by 1000 photo, and then a picture of 1200 by 600. *)
Lemma compressImage_stable_witness :
  exists out',
    UtilsV2.compressImage Sample.browser (Sample.plain 1200 600)
      UtilsV2.no_options
    = Resolved out'
    /\ UtilsV2.out_width out' = 1200%Z /\ UtilsV2.out_height out' = 600%Z.
Proof.
  refine (compressImage_stable Sample.browser Sample.photo
            (Sample.plain 1200 600) None None None Sample.picture _
            (UtilsV2.mkCompressedFile "photo.jpg" 1200 600 (85 # 100)
               Sample.picture)
            eq_refl _ _ _ _ _ eq_refl eq_refl eq_refl);
    try (simpl; lia).
  vm_compute. reflexivity.
Defined.

(** X14. The two versions on the same picture, with [maxDimension] (below
    2^31, as the side of a canvas is) for both bounds: where the first
    utils.ts resolves, utils.ts 2.0 resolves too, and each of its
    dimensions is that of the first or one more (the canvas of the first
    keeps the integer part of the number assigned, 2.0 rounds it). *)
Theorem compressImage_versions_within_one (browser : Browser) (file : File)
    (img : Raster) (m : Z) (quality : Q) (quality' : option Q) (blob : Blob) :
  file_body file = Picture img ->
  (0 < img_width img < 2 ^ 32)%Z -> (0 < img_height img < 2 ^ 32)%Z ->
  (0 < m < 2 ^ 31)%Z ->
  UtilsV1.compressImage browser file (inject_Z m) quality = Resolved blob ->
  exists out,
    UtilsV2.compressImage browser file (integer_options (Some m) (Some m) quality')
    = Resolved out
    /\ (blob_width blob <= UtilsV2.out_width out <= blob_width blob + 1)%Z
    /\ (blob_height blob <= UtilsV2.out_height out <= blob_height blob + 1)%Z.
Proof.
  intros Hbody Hw Hh Hm Hrun.
  destruct (new_dimensions_v2_close m m _ _ Hw Hh ltac:(lia) ltac:(lia))
    as (pw & ph & Hdim2 & [P1 P2] & [P3 P4]).
  destruct (new_dimensions_v1_close m _ _ Hw Hh ltac:(lia))
    as (vw & vh & Hdim1 & [V1 V2] & [V3 V4]).
  pose proof (scale_positive m m (img_width img) (img_height img)
                ltac:(lia) ltac:(lia) ltac:(lia) ltac:(lia)) as Hs.
  pose proof (inject_Z_pos (img_width img) ltac:(lia)) as Qw.
  pose proof (inject_Z_pos (img_height img) ltac:(lia)) as Qh.
  pose proof (scale_width (inject_Z (img_width img)) (inject_Z (img_height img))
                (inject_Z m) (inject_Z m) Qw) as [HsW _].
  pose proof (scale_height (inject_Z (img_width img)) (inject_Z (img_height img))
                (inject_Z m) (inject_Z m) Qh) as [HsH _].
  fold (scale m m (img_width img) (img_height img)) in HsW, HsH.
  assert (X0 : 0 < inject_Z (img_width img)
                   * scale m m (img_width img) (img_height img)) by nra.
  assert (Y0 : 0 < inject_Z (img_height img)
                   * scale m m (img_width img) (img_height img)) by nra.
  set (x := inject_Z (img_width img)
            * scale m m (img_width img) (img_height img)) in *.
  set (y := inject_Z (img_height img)
            * scale m m (img_width img) (img_height img)) in *.
  assert (Qm : inject_Z m <= 2147483647).
  { change 2147483647 with (inject_Z (2 ^ 31 - 1)). apply inject_Z_le. lia. }
  unfold unit_roundoff in *.
  assert (Vw : 0 <= vw /\ vw < 2147483648) by (split; lra).
  assert (Vh : 0 <= vh /\ vh < 2147483648) by (split; lra).
  unfold UtilsV1.compressImage in Hrun. rewrite Hbody in Hrun.
  destruct (context2d browser) eqn:Hctx; [| discriminate]. simpl negb in Hrun.
  cbv iota in Hrun. rewrite Hdim1 in Hrun.
  rewrite !dimension_floor in Hrun by apply Vw || apply Vh.
  destruct (encodes browser) eqn:Henc; [| discriminate]. simpl andb in Hrun.
  destruct (Z.eqb_spec (Qfloor vw) 0) as [| HW0]; [discriminate |].
  destruct (Z.eqb_spec (Qfloor vh) 0) as [| HH0]; [discriminate |].
  injection Hrun as <-. cbn [blob_width blob_height].
  assert (F0w : (0 <= Qfloor vw)%Z).
  { change 0%Z with (Qfloor 0). apply Qfloor_resp_le. apply Vw. }
  assert (F0h : (0 <= Qfloor vh)%Z).
  { change 0%Z with (Qfloor 0). apply Qfloor_resp_le. apply Vh. }
  pose proof (Qfloor_le vw) as Fw1. pose proof (Qlt_floor vw) as Fw2.
  pose proof (Qfloor_le vh) as Fh1. pose proof (Qlt_floor vh) as Fh2.
  rewrite inject_Z_plus in Fw2, Fh2. change (inject_Z 1) with 1 in Fw2, Fh2.
  destruct (Math_round_bounds pw) as [Rw1 Rw2].
  destruct (Math_round_bounds ph) as [Rh1 Rh2].
  set (W := JS.Math_round pw) in *. set (H := JS.Math_round ph) in *.
  assert (RW : (Qfloor vw <= W <= Qfloor vw + 1)%Z /\ (W < 2 ^ 31)%Z).
  { assert (L1 : inject_Z (Qfloor vw) < inject_Z (W + 1)).
    { rewrite inject_Z_plus. change (inject_Z 1) with 1. lra. }
    assert (L2 : inject_Z W < inject_Z (Qfloor vw + 1 + 1)).
    { rewrite !inject_Z_plus. change (inject_Z 1) with 1. lra. }
    assert (L3 : inject_Z W < inject_Z (2 ^ 31)).
    { change (inject_Z (2 ^ 31)) with 2147483648. lra. }
    rewrite <- Zlt_Qlt in L1, L2, L3. lia. }
  assert (RH : (Qfloor vh <= H <= Qfloor vh + 1)%Z /\ (H < 2 ^ 31)%Z).
  { assert (L1 : inject_Z (Qfloor vh) < inject_Z (H + 1)).
    { rewrite inject_Z_plus. change (inject_Z 1) with 1. lra. }
    assert (L2 : inject_Z H < inject_Z (Qfloor vh + 1 + 1)).
    { rewrite !inject_Z_plus. change (inject_Z 1) with 1. lra. }
    assert (L3 : inject_Z H < inject_Z (2 ^ 31)).
    { change (inject_Z (2 ^ 31)) with 2147483648. lra. }
    rewrite <- Zlt_Qlt in L1, L2, L3. lia. }
  rewrite (compressImage_v2_run browser file img (Some m) (Some m) quality' Hbody).
  cbv zeta. change (default 1200%Z (Some m)) with m. rewrite Hdim2. cbn [fst snd]. fold W H.
  rewrite !dimension_whole by lia.
  rewrite Hctx, Henc. simpl negb. cbv iota.
  destruct (Z.eqb_spec W 0); [lia |]. destruct (Z.eqb_spec H 0); [lia |].
  simpl orb. cbv iota.
  eexists. split; [reflexivity |]. cbn [UtilsV2.out_width UtilsV2.out_height].
  split; lia.
Qed.

(** The 1001 by 2400 picture with a bound of 1200: 500 wide in the first
    utils.ts, 501 in utils.ts 2.0. *)
Lemma compressImage_versions_within_one_witness :
  exists out,
    UtilsV2.compressImage Sample.browser (Sample.plain 1001 2400)
      (integer_options (Some 1200%Z) (Some 1200%Z) None)
    = Resolved out
    /\ (500 <= UtilsV2.out_width out <= 500 + 1)%Z
    /\ (1200 <= UtilsV2.out_height out <= 1200 + 1)%Z.
Proof.
  refine (compressImage_versions_within_one Sample.browser
            (Sample.plain 1001 2400) _ 1200 (8 # 10) None
            (mkBlob 500 1200 (8 # 10) _) eq_refl _ _ _ _);
    try (simpl; lia).
  vm_compute. reflexivity.
Defined.

(** Not the other way round: the 1 by 2400 picture is rejected by the first
    utils.ts, whose canvas keeps 0 of the width 0.5, and comes out 1 by
    1200 in utils.ts 2.0, which rounds it to 1. *)
Lemma compressImage_versions_converse :
  UtilsV1.compressImage Sample.browser (Sample.plain 1 2400) 1200 (8 # 10)
  = Rejected "Compression failed"
  /\ exists out,
      UtilsV2.compressImage Sample.browser (Sample.plain 1 2400)
        UtilsV2.no_options
      = Resolved out
      /\ UtilsV2.out_width out = 1%Z /\ UtilsV2.out_height out = 1200%Z.
Proof.
  split; [vm_compute; reflexivity |].
  eexists. split; [vm_compute; reflexivity |]. split; reflexivity.
Qed.

(** X15. A picture more than [2 * w * maxHeight] pixels high loses its width:
    utils.ts 2.0 computes a width of 0, and what the first utils.ts
    assigns is below one half; with a canvas context, utils.ts 2.0 then
    rejects, for the canvas has no pixels.  This holds for every picture
    that an image element holds (sides below 2^32) and all bounds from 1
    on that a number holds exactly (below 2^53). *)
Theorem compressImage_collapses (maxW maxH w h : Z) :
  (0 < w)%Z -> (0 < maxW < 2 ^ 53)%Z -> (0 < maxH < 2 ^ 53)%Z ->
  (h < 2 ^ 32)%Z -> (2 * w * maxH < h)%Z ->
  fst (UtilsV2.new_dimensions (inject_Z maxW) (inject_Z maxH) w h)
  = Double.of_Z 0
  /\ (maxW = maxH ->
      exists v, fst (UtilsV1.new_dimensions (inject_Z maxH) w h) = Double.Finite v
                /\ v < 1 # 2)
  /\ (forall (browser : Browser) (file : File) (img : Raster) (quality : option Q),
        file_body file = Picture img ->
        img_width img = w -> img_height img = h ->
        context2d browser = true ->
        UtilsV2.compressImage browser file
          (integer_options (Some maxW) (Some maxH) quality)
        = Rejected "Could not compress image").
Proof.
  intros Hw0 HmW HmH Hh2 Hthin.
  assert (Hh : (0 < h < 2 ^ 32)%Z) by nia.
  assert (Hw : (0 < w < 2 ^ 32)%Z) by nia.
  pose proof (inject_Z_pos w ltac:(lia)) as Qw.
  pose proof (inject_Z_pos h ltac:(lia)) as Qh.
  pose proof (inject_Z_pos maxH ltac:(lia)) as QmH.
  destruct (inject_Z_between _ _ _ Hh) as [_ Qh2].
  change (inject_Z (2 ^ 32)) with 4294967296 in Qh2.
  assert (Hx : forall M : Z, (0 < M)%Z ->
            0 < inject_Z w * scale M maxH w h
            /\ inject_Z w * scale M maxH w h * (2 * inject_Z h) <= inject_Z h - 1).
  { intros M HM.
    pose proof (scale_positive M maxH w h ltac:(lia) ltac:(lia) HM ltac:(lia)) as Hs.
    split; [nra |].
    assert (Hle : scale M maxH w h <= inject_Z maxH / inject_Z h).
    { unfold scale, scale_of.
      eapply Qle_trans; [apply Q.le_min_r | apply Q.le_min_r]. }
    assert (Hq : inject_Z (2 * w * maxH) <= inject_Z (h + -1)).
    { rewrite <- Zle_Qle. lia. }
    rewrite inject_Z_plus, !inject_Z_mult in Hq.
    change (inject_Z 2) with 2 in Hq. change (inject_Z (-1)) with (-1 # 1) in Hq.
    assert (E : inject_Z maxH / inject_Z h * inject_Z h == inject_Z maxH).
    { field. lra. }
    assert (T : scale M maxH w h * inject_Z h <= inject_Z maxH).
    { rewrite <- E. apply Qmult_le_compat_r; [exact Hle | lra]. }
    nra. }
  assert (Hhalf : forall p x : Q,
            0 < x -> x * (2 * inject_Z h) <= inject_Z h - 1 ->
            x - 3 * unit_roundoff * x <= p -> p <= x + 3 * unit_roundoff * x ->
            0 <= p /\ p < 1 # 2).
  { intros p x X0 X1 P1 P2. unfold unit_roundoff in *. split; [lra |].
    assert (T : p * (2 * inject_Z h) < inject_Z h) by nra.
    nra. }
  destruct (new_dimensions_v2_close maxW maxH w h Hw Hh HmW HmH)
    as (pw & ph & Hdim & [P1 P2] & _).
  assert (E0 : fst (UtilsV2.new_dimensions (inject_Z maxW) (inject_Z maxH) w h)
               = Double.of_Z 0).
  { rewrite Hdim. cbn [fst]. f_equal.
    destruct (Hx maxW ltac:(lia)) as [X0 X1].
    destruct (Hhalf pw _ X0 X1 P1 P2) as [Q0 Q1].
    now apply Math_round_small. }
  split; [exact E0 |]. split.
  - intros ->.
    destruct (new_dimensions_v1_close maxH w h Hw Hh HmH)
      as (vw & vh & Hd1 & [V1 V2] & _).
    destruct (Hx maxH ltac:(lia)) as [X0 X1].
    exists vw. split; [now rewrite Hd1 |].
    apply (Hhalf vw _ X0 X1 V1 V2).
  - intros browser file img quality Hbody <- <- Hctx.
    rewrite (compressImage_v2_run browser file img (Some maxW) (Some maxH)
               quality Hbody).
    cbv zeta. change (default 1200%Z (Some maxW)) with maxW.
    change (default 1200%Z (Some maxH)) with maxH. rewrite E0, Hctx.
    rewrite (dimension_whole 0 300) by lia. simpl negb. cbv iota.
    destruct (negb (encodes browser)); reflexivity.
Qed.

(** A picture of 1 by 2401 pixels with the default bounds. *)
Lemma compressImage_collapses_witness :
  fst (UtilsV2.new_dimensions 1200 1200 1 2401) = Double.of_Z 0.
Proof.
  exact (proj1 (compressImage_collapses 1200 1200 1 2401
                  ltac:(lia) ltac:(lia) ltac:(lia) ltac:(lia) ltac:(lia))).
Defined.

End NormalisationMore.

(** * The normal form of a colour ([rgbToHex] after [hexToRgb]) *)

Section HexNormalForm.

Import UtilsV2.

Lemma pairs_normalize (a b : ascii) :
  hexadecimal a -> hexadecimal b -> pair_normalizes a b = true.
Proof.
  intros Ha Hb.
  assert (Hall : forallb
            (fun a => forallb (pair_normalizes a)
                        (list_ascii_of_string "0123456789abcdefABCDEF"))
            (list_ascii_of_string "0123456789abcdefABCDEF") = true)
    by (vm_compute; reflexivity).
  rewrite forallb_forall in Hall. specialize (Hall a Ha).
  rewrite forallb_forall in Hall. exact (Hall b Hb).
Qed.

(** Two hexadecimal digits read as a byte, which is written as their
    lower-case forms. *)
Lemma pair_text (a b : ascii) :
  hexadecimal a -> hexadecimal b ->
  exists n,
    parseInt16 (String a (String b EmptyString)) = JS.Int n
    /\ 0 <= n <= 255
    /\ JS.padStart 2 "0" (JS.int_toString16 n)
       = String (lower_case a) (String (lower_case b) EmptyString).
Proof.
  intros Ha Hb. pose proof (pairs_normalize a b Ha Hb) as H.
  unfold pair_normalizes in H.
  destruct (parseInt16 (String a (String b EmptyString))) as [n |];
    [| discriminate].
  exists n. apply andb_true_iff in H as [H Ht].
  apply andb_true_iff in H as [H0 H1].
  apply String.eqb_eq in Ht. split; [reflexivity |]. split; [lia | exact Ht].
Qed.

(** X16. [rgbToHex] after [hexToRgb]: a colour in hexadecimal notation is read
    as three bytes, and these are written as the same six digits in lower
    case behind a [#], whether the input had the [#] or not. *)
Theorem rgbToHex_hexToRgb (hex body : string) :
  hex = body \/ hex = String "#" body ->
  String.length body = 6%nat ->
  Forall hexadecimal (list_ascii_of_string body) ->
  exists r g b,
    hexToRgb hex = Returned (JS.Int r, JS.Int g, JS.Int b)
    /\ (0 <= r <= 255 /\ 0 <= g <= 255 /\ 0 <= b <= 255)
    /\ rgbToHex (r, g, b) = String "#" (lower_case_string body).
Proof.
  intros Hshape Hlen Hall.
  assert (Hdigits : match hex with
                    | String "#"%char rest => rest
                    | _ => hex
                    end = body).
  { destruct Hshape as [-> | ->]; [| reflexivity].
    destruct body as [| c rest]; [reflexivity |].
    destruct (Ascii.eqb_spec c "#") as [-> | Hne].
    - inversion Hall as [| ? ? Hc _]; subst.
      apply is_hex_digit_spec in Hc. discriminate Hc.
    - destruct c as [[] [] [] [] [] [] [] []]; try reflexivity.
      now destruct Hne. }
  destruct body as [| a [| b [| c [| d [| e [| f [| ? ?]]]]]]];
    try discriminate Hlen.
  simpl in Hall. rewrite !Forall_cons in Hall.
  destruct Hall as (Ha & Hb & Hc & Hd & He & Hf & _).
  destruct (pair_text a b Ha Hb) as (r & Pr & Br & Tr).
  destruct (pair_text c d Hc Hd) as (g & Pg & Bg & Tg).
  destruct (pair_text e f He Hf) as (b' & Pb & Bb & Tb).
  exists r, g, b'. split; [| split; [repeat split; lia |]].
  - unfold hexToRgb, hex_pattern_exec. rewrite Hdigits.
    cbn [list_ascii_of_string].
    assert (Hdig : forallb is_hex_digit [a; b; c; d; e; f] = true).
    { cbn [forallb]. rewrite !(proj2 (is_hex_digit_spec _)) by assumption.
      reflexivity. }
    rewrite Hdig. cbn [string_of_list_ascii]. now rewrite Pr, Pg, Pb.
  - unfold rgbToHex. cbn [map]. rewrite Tr, Tg, Tb. reflexivity.
Qed.

(** An upper-case colour without the [#]. *)
Lemma rgbToHex_hexToRgb_witness :
  exists r g b,
    hexToRgb "FFaa00" = Returned (JS.Int r, JS.Int g, JS.Int b)
    /\ (0 <= r <= 255 /\ 0 <= g <= 255 /\ 0 <= b <= 255)
    /\ rgbToHex (r, g, b) = "#ffaa00".
Proof.
  apply (rgbToHex_hexToRgb "FFaa00" "FFaa00").
  - left. reflexivity.
  - reflexivity.
  - repeat (constructor; [apply is_hex_digit_spec; reflexivity |]). constructor.
Defined.

End HexNormalForm.

(** * The palette on the wire ([formatPaletteForAPI], [JSON.stringify]) *)

Section WireForms.

Lemma color_json_with_note (c : PaletteColor) :
  color_json (with_note c) = color_json c <-> exists t, note c = Some t.
Proof.
  destruct c as [i [[cr cg] cb] [t |]]; unfold with_note, color_json; simpl.
  - split; [eauto | reflexivity].
  - split; [discriminate | intros (t & H); discriminate].
Qed.

Lemma palette_json_with_note (colors : list PaletteColor) :
  palette_json (map with_note colors) = palette_json colors <-> noted colors.
Proof.
  unfold palette_json, noted. induction colors as [| c colors IH]; simpl.
  - split; [constructor | reflexivity].
  - rewrite Forall_cons, <- IH, <- color_json_with_note. split.
    + intros H. injection H as Hc Hrest. split; [exact Hc | now f_equal].
    + intros [Hc Hrest]. injection Hrest as Hrest. now rewrite Hc, Hrest.
Qed.

(** X17. The palette that utils.ts 2.0 posts has a [note] in every colour,
    the empty string where the colour has none; it is the text that the
    first utils.ts posts ([JSON.stringify(palette)]) exactly when every
    colour of the palette has a note.  Formatting changes no colour of
    the caller. *)
Theorem formatPaletteForAPI_wire_form (w : World) (palette : loc)
    (colors : list PaletteColor) :
  palette_at (heap w) palette colors ->
  exists w',
    UtilsV2.formatPaletteForAPI palette w
    = (Returned (palette_json (map with_note colors)), w')
    /\ Store.stringify palette w = (Returned (palette_json colors), w)
    /\ (palette_json (map with_note colors) = palette_json colors
        <-> noted colors)
    /\ palette_at (heap w') palette colors
    /\ trace w' = trace w.
Proof.
  intros Hpal.
  destruct (formatPaletteForAPI_at w palette colors Hpal) as (h' & Hrun & Hsub).
  exists (mkWorld h' (trace w)). split; [exact Hrun |].
  split; [now apply stringify_at |].
  split; [apply palette_json_with_note |].
  split; [| reflexivity].
  destruct Hpal as (elems & Hp & Hc). exists elems. split.
  - apply (lookup_weaken (heap w)); assumption.
  - eapply colors_at_mono; eassumption.
Qed.

(** The palette of a red without a note and a blue with one: the two wire
    forms differ. *)
Lemma formatPaletteForAPI_wire_form_witness :
  exists w',
    UtilsV2.formatPaletteForAPI 5%positive Sample.world2
    = (Returned (palette_json (map with_note [Sample.red; Sample.blue])), w')
    /\ Store.stringify 5%positive Sample.world2
       = (Returned (palette_json [Sample.red; Sample.blue]), Sample.world2)
    /\ (palette_json (map with_note [Sample.red; Sample.blue])
        = palette_json [Sample.red; Sample.blue]
        <-> noted [Sample.red; Sample.blue])
    /\ palette_at (heap w') 5%positive [Sample.red; Sample.blue]
    /\ trace w' = [].
Proof.
  apply (formatPaletteForAPI_wire_form Sample.world2 5%positive
           [Sample.red; Sample.blue]).
  apply sample_palette_at.
Defined.

End WireForms.

(** * A scan ([scanColor], PaintLab.tsx) *)

Section Scan.

(** X18. [scanColor] leaves the palette as it is when there is no photo, when
    the photo cannot be read or decoded, and when the browser gives no
    canvas context; on a decoded photo it keeps every colour in its place
    and appends one colour, with the next number as its id, an empty note
    and the rounded mean of the 121 sampled pixels, whose channels are
    within 0..255 when those of the photo are. *)
Theorem scanColor_outcome (browser : Browser) (photo : option File)
    (palette : list PaletteColor) :
  (photo = None
   \/ (exists file, photo = Some file
         /\ (file_body file = Unreadable \/ file_body file = NotAnImage
             \/ (exists img, file_body file = Picture img)
                /\ context2d browser = false)) ->
   PaintLab.scanColor browser photo palette = palette)
  /\ (forall file img,
        photo = Some file -> file_body file = Picture img ->
        context2d browser = true ->
        0 < img_width img -> 0 < img_height img ->
        let rgb := mean_color img
                     (UtilsV1.sample_points img (img_width img / 2)
                                            (img_height img / 2) 5) in
        PaintLab.scanColor browser photo palette
        = palette ++ [mkColor (numeral (length palette + 1)) rgb (Some "")]
        /\ (channels_within 0 255 img -> rgb_within 0 255 rgb)).
Proof.
  split.
  - intros [-> | (file & -> & Hbody)]; [reflexivity |].
    unfold PaintLab.scanColor, UtilsV1.extractColorFromImage.
    destruct Hbody as [-> | [-> | [(img & ->) ->]]]; reflexivity.
  - intros file img -> Hbody Hctx Hw Hh rgb. split.
    + unfold PaintLab.scanColor.
      rewrite (extractColorFromImage_v1_mean browser file img None None
                 Hbody Hctx Hw Hh).
      reflexivity.
    + intros Himg.
      apply mean_color_within; [exact Himg | apply sample_points_nonempty |].
      now apply sample_points_inside.
Qed.

End Scan.

(** * The other endpoints ([analyzeImage], [downloadSVGTemplate],
      [checkAPIHealth]) *)

Section Endpoints.

Import Api.

(** One call of [analyzeImage] on arguments that pass its two checks. *)
Lemma analyze_run (api : Endpoints) (w : World) (f : File) (palette : loc)
    (colors : list PaletteColor) :
  palette_at (heap w) palette colors -> (2 <= length colors)%nat ->
  exists h', heap w ⊆ h' /\
    analyzeImage api (Some f) palette w
    = (match analyze api (mkAnalyzeForm f (palette_json (map with_note colors))) with
       | Posted data => Returned (map_analysis data)
       | PostFailed (Axios e) => Thrown (Error (analysis_detail e))
       | PostFailed e => Thrown e
       end, mkWorld h' (trace w)).
Proof.
  intros Hpal Hlen.
  destruct (formatPaletteForAPI_at w palette colors Hpal) as (h' & Hfmt & Hsub).
  exists h'. split; [assumption |].
  destruct Hpal as (elems & Hp & Hc). unfold analyzeImage.
  erewrite bind_returned by (apply read_array_at; exact Hp).
  assert (Hl : length elems = length colors) by (eapply Forall2_length; eassumption).
  destruct (Z.ltb_spec (Z.of_nat (length elems)) 2) as [Hlt | _]; [lia |].
  erewrite bind_returned by exact Hfmt.
  unfold Eff.try_catch, Eff.ret, Eff.throw.
  destruct (analyze api _) as [data | [m | e | | what]]; reflexivity.
Qed.

(** One call of [downloadSVGTemplate]. *)
Lemma download_run (api : Endpoints) (w : World) (f : File) (palette : loc)
    (colors : list PaletteColor) (complexity : option Z)
    (showNumbers fillRegions : option bool) :
  palette_at (heap w) palette colors ->
  exists h', heap w ⊆ h' /\
    downloadSVGTemplate api f palette complexity showNumbers fillRegions w
    = (match generate_svg api
               (mkSvgForm f (palette_json (map with_note colors))
                  (JS.int_toString (default 50 complexity))
                  (bool_toString (default true showNumbers))
                  (bool_toString (default false fillRegions))) with
       | BlobPosted svg => Returned svg
       | BlobFailed (Axios e) => Thrown (Error "SVG generation failed")
       | BlobFailed e => Thrown e
       end, mkWorld h' (trace w)).
Proof.
  intros Hpal.
  destruct (formatPaletteForAPI_at w palette colors Hpal) as (h' & Hfmt & Hsub).
  exists h'. split; [assumption |]. unfold downloadSVGTemplate.
  erewrite bind_returned by exact Hfmt.
  unfold Eff.try_catch, Eff.ret, Eff.throw.
  destruct (generate_svg api _) as [svg | [m | e | | what]]; reflexivity.
Qed.



Lemma optional_member_In (fields : list (string * JS.Json)) (key : string)
    (v : JS.Json) :
  NoDup (map fst fields) -> In (key, v) fields ->
  optional_member (JS.JObj fields) key = v.
Proof.
  unfold optional_member. induction fields as [| [k u] fields IH]; intros Hnd Hin.
  - destruct Hin.
  - cbn [map fst] in Hnd. apply NoDup_cons in Hnd as [Hk Hnd]. simpl.
    destruct (String.eqb_spec k key) as [-> | Hne].
    + destruct Hin as [Heq | Hin]; [now injection Heq |].
      exfalso. apply Hk. apply list_elem_of_In.
      exact (in_map fst fields (key, v) Hin).
    + destruct Hin as [Heq | Hin]; [injection Heq as -> _; now destruct Hne |].
      now apply IH.
Qed.

(** X20. What [analyzeImage] makes of the answer of the service, on arguments
    that pass its checks.  A body without [quality_metrics] (or with
    [null] there) gives three undefined metrics and no exception, a metric
    that is there is passed on, missing [recommendations] become the empty
    array; an error response shows its non-empty [detail], every other
    failure of the request shows "Analysis failed" (also one without a
    response), and what is not a failure of the request is thrown on as it
    is.  The trace is as it was. *)
Theorem analyzeImage_outcome (api : Endpoints) (w : World) (f : File)
    (palette : loc) (colors : list PaletteColor) :
  palette_at (heap w) palette colors -> (2 <= length colors)%nat ->
  let run := analyzeImage api (Some f) palette w in
  let reply :=
    analyze api (mkAnalyzeForm f (palette_json (map with_note colors))) in
  trace (snd run) = trace w
  /\ (forall data, reply = Posted data ->
        exists r, fst run = Returned r
          /\ imageDimensions r = JS.prop data "image_dimensions"
          /\ paletteCoverage r = JS.prop data "palette_coverage"
          /\ (data !! "quality_metrics" = None
              \/ data !! "quality_metrics" = Some JS.JNull ->
              qualityMetrics r
              = mkQualityMetrics JS.JUndefined JS.JUndefined JS.JUndefined)
          /\ (forall fields v,
                data !! "quality_metrics" = Some (JS.JObj fields) ->
                NoDup (map fst fields) ->
                In ("palette_fit_score", v) fields ->
                paletteFitScore (qualityMetrics r) = v)
          /\ (data !! "recommendations" = None ->
              recommendations r = JS.JArr [])
          /\ (forall items, data !! "recommendations" = Some (JS.JArr items) ->
              recommendations r = JS.JArr items))
  /\ (forall a, reply = PostFailed (Axios a) ->
        exists text, fst run = Thrown (Error text)
          /\ match response a with
             | Some r => shown_detail r "Analysis failed" text
             | None => text = "Analysis failed"
             end)
  /\ (forall e, reply = PostFailed e -> (forall a, e <> Axios a) ->
        fst run = Thrown e).
Proof.
  intros Hpal Hlen run reply.
  destruct (analyze_run api w f palette colors Hpal Hlen) as (h' & _ & Hrun).
  fold run reply in Hrun. split; [| split; [| split]].
  - rewrite Hrun. reflexivity.
  - intros data Hans. rewrite Hrun, Hans. eexists. split; [reflexivity |].
    unfold map_analysis, JS.prop. simpl.
    split; [reflexivity |]. split; [reflexivity |]. split; [| split; [| split]].
    + intros [-> | ->]; reflexivity.
    + intros fields v -> Hnd Hin. simpl. now apply optional_member_In.
    + intros ->. reflexivity.
    + intros items ->. reflexivity.
  - intros a Hans. rewrite Hrun, Hans. eexists. split; [reflexivity |].
    unfold analysis_detail. destruct (response a) as [r |]; [| reflexivity].
    unfold shown_detail. destruct (detail r) as [t |]; simpl.
    + destruct (String.eqb_spec t "") as [-> | Hne]; [right | left]; auto.
    + right. auto.
  - intros e Hans Hne. rewrite Hrun, Hans.
    destruct e; try reflexivity. now destruct (Hne e).
Qed.

(** The two sample colours and a service that is not reachable. *)
Lemma analyzeImage_outcome_witness :
  fst (analyzeImage
         (Sample.endpoints (PostFailed Sample.unreachable) (BlobPosted "")
            (Posted ∅))
         (Some Sample.photo) 5%positive Sample.world2)
  = Thrown (Error "Analysis failed").
Proof.
  destruct (proj1 (proj2 (proj2 (analyzeImage_outcome
              (Sample.endpoints (PostFailed Sample.unreachable) (BlobPosted "")
                 (Posted ∅))
              Sample.world2 Sample.photo 5%positive [Sample.red; Sample.blue]
              sample_palette_at (le_n 2))))
              (mkAxiosError None true) eq_refl) as (text & Hrun & Htext).
  simpl in Htext. rewrite Htext in Hrun. exact Hrun.
Defined.

(** X21. [downloadSVGTemplate] checks nothing: any palette that the heap holds,
    also an empty one, and any whole complexity below 2^53 in absolute
    value (where the text of a number is its decimal numeral), also one
    outside 1..100, are posted, the complexity and the two switches as
    their texts with 50, true and false for what the caller leaves out;
    every failure of the request shows "SVG generation failed", whatever
    the status and the detail of the response; the colours of the caller
    and the trace are as they were. *)
Theorem downloadSVGTemplate_unchecked (api : Endpoints) (w : World) (f : File)
    (palette : loc) (colors : list PaletteColor) (complexity : option Z)
    (showNumbers fillRegions : option bool) :
  palette_at (heap w) palette colors ->
  Z.abs (default 50 complexity) < 2 ^ 53 ->
  let run :=
    downloadSVGTemplate api f palette complexity showNumbers fillRegions w in
  exists form,
    svg_file form = f
    /\ svg_palette form = palette_json (map with_note colors)
    /\ svg_threshold form = JS.int_toString (default 50 complexity)
    /\ svg_show_numbers form
       = (if default true showNumbers then "true" else "false")
    /\ svg_fill_regions form
       = (if default false fillRegions then "true" else "false")
    /\ (forall svg, generate_svg api form = BlobPosted svg ->
          fst run = Returned svg)
    /\ (forall a, generate_svg api form = BlobFailed (Axios a) ->
          fst run = Thrown (Error "SVG generation failed"))
    /\ (forall e, generate_svg api form = BlobFailed e ->
          (forall a, e <> Axios a) -> fst run = Thrown e)
    /\ palette_at (heap (snd run)) palette colors
    /\ trace (snd run) = trace w.
Proof.
  intros Hpal _ run.
  destruct (download_run api w f palette colors complexity showNumbers
              fillRegions Hpal) as (h' & Hsub & Hrun).
  fold run in Hrun.
  exists (mkSvgForm f (palette_json (map with_note colors))
            (JS.int_toString (default 50 complexity))
            (bool_toString (default true showNumbers))
            (bool_toString (default false fillRegions))).
  split; [reflexivity |]. split; [reflexivity |]. split; [reflexivity |].
  split; [reflexivity |]. split; [reflexivity |].
  split; [| split; [| split; [| split]]].
  - intros svg Hans. rewrite Hrun, Hans. reflexivity.
  - intros a Hans. rewrite Hrun, Hans. reflexivity.
  - intros e Hans Hne. rewrite Hrun, Hans.
    destruct e; try reflexivity. now destruct (Hne e).
  - rewrite Hrun. simpl. destruct Hpal as (elems & Hp & Hc). exists elems. split.
    + apply (lookup_weaken (heap w)); assumption.
    + eapply colors_at_mono; eassumption.
  - rewrite Hrun. reflexivity.
Qed.

(** The empty palette with nothing else given, against a service that
    answers 413. *)
Lemma downloadSVGTemplate_unchecked_witness :
  fst (downloadSVGTemplate
         (Sample.endpoints (Posted ∅)
            (BlobFailed (Axios (mkAxiosError
                                  (Some (mkErrResponse 413 (Some "too large")))
                                  true)))
            (Posted ∅))
         Sample.photo 1%positive None None None Sample.world0)
  = Thrown (Error "SVG generation failed").
Proof.
  assert (Hpal : palette_at (heap Sample.world0) 1%positive [])
    by (exists []; split; [reflexivity | constructor]).
  destruct (downloadSVGTemplate_unchecked
              (Sample.endpoints (Posted ∅)
                 (BlobFailed (Axios (mkAxiosError
                                       (Some (mkErrResponse 413 (Some "too large")))
                                       true)))
                 (Posted ∅))
              Sample.world0 Sample.photo 1%positive [] None None None Hpal
              eq_refl)
    as (form & _ & _ & _ & _ & _ & _ & Hfail & _).
  exact (Hfail _ eq_refl).
Defined.

(** X22. A service that cannot be reached, as each function of utils.ts 2.0
    shows it: [generatePaintByNumber] asks to check the connection,
    [analyzeImage] says "Analysis failed", [downloadSVGTemplate] says
    "SVG generation failed", [checkAPIHealth] says "API is not
    available".  An exception that is not a failure of the request goes
    through the first three as it is, and [checkAPIHealth] replaces it
    too. *)
Theorem unreachable_service (server : Server) (api : Endpoints) (w : World)
    (f : File) (palette : loc) (colors : list PaletteColor) (complexity : Z)
    (e : Exception) :
  palette_at (heap w) palette colors ->
  (2 <= length colors)%nat -> 1 <= complexity <= 100 ->
  answer server (slider_form f colors complexity) = PostFailed e ->
  analyze api (mkAnalyzeForm f (palette_json (map with_note colors)))
  = PostFailed e ->
  generate_svg api
    (mkSvgForm f (palette_json (map with_note colors))
       (JS.int_toString complexity) "true" "false")
  = BlobFailed e ->
  health api = PostFailed e ->
  let generated :=
    fst (UtilsV2.generatePaintByNumber server (Some f) palette complexity w) in
  let analyzed := fst (analyzeImage api (Some f) palette w) in
  let downloaded :=
    fst (downloadSVGTemplate api f palette (Some complexity) None None w) in
  let checked := fst (checkAPIHealth api w) in
  checked = Thrown (Error "API is not available")
  /\ (e = Axios (mkAxiosError None true) ->
      generated
      = Thrown (Error "Could not connect to server. Please check your internet connection.")
      /\ analyzed = Thrown (Error "Analysis failed")
      /\ downloaded = Thrown (Error "SVG generation failed"))
  /\ ((forall a, e <> Axios a) ->
      generated = Thrown e /\ analyzed = Thrown e /\ downloaded = Thrown e).
Proof.
  intros Hpal Hlen Hcx Hgen Han Hsvg Hhealth generated analyzed downloaded checked.
  destruct (generate_v2_run server w f palette colors complexity Hpal Hlen Hcx)
    as (h1 & _ & Hrun1).
  destruct (analyze_run api w f palette colors Hpal Hlen) as (h2 & _ & Hrun2).
  destruct (download_run api w f palette colors (Some complexity) None None Hpal)
    as (h3 & _ & Hrun3).
  simpl in Hrun3. rewrite Hgen in Hrun1. rewrite Han in Hrun2.
  rewrite Hsvg in Hrun3.
  unfold generated, analyzed, downloaded, checked.
  rewrite Hrun1, Hrun2, Hrun3. split; [| split].
  - unfold checkAPIHealth, Eff.try_catch. rewrite Hhealth. reflexivity.
  - intros ->. repeat split; reflexivity.
  - intros Hne. destruct e; try (repeat split; reflexivity).
    now destruct (Hne e).
Qed.

(** The two sample colours and the middle of the slider. *)
Lemma unreachable_service_witness :
  fst (checkAPIHealth
         (Sample.endpoints (PostFailed Sample.unreachable)
            (BlobFailed Sample.unreachable) (PostFailed Sample.unreachable))
         Sample.world2)
  = Thrown (Error "API is not available")
  /\ fst (analyzeImage
            (Sample.endpoints (PostFailed Sample.unreachable)
               (BlobFailed Sample.unreachable) (PostFailed Sample.unreachable))
            (Some Sample.photo) 5%positive Sample.world2)
     = Thrown (Error "Analysis failed").
Proof.
  pose proof (unreachable_service
                (Sample.server [] (PostFailed Sample.unreachable))
                (Sample.endpoints (PostFailed Sample.unreachable)
                   (BlobFailed Sample.unreachable) (PostFailed Sample.unreachable))
                Sample.world2 Sample.photo 5%positive [Sample.red; Sample.blue]
                50 Sample.unreachable sample_palette_at (le_n 2)
                ltac:(lia)) as H.
  split; [exact (proj1 (H eq_refl eq_refl eq_refl eq_refl)) |].
  exact (proj1 (proj2 (proj1 (proj2 (H eq_refl eq_refl eq_refl eq_refl)) eq_refl))).
Defined.

End Endpoints.

(** * The colour picker ([rgbToHex] of the first utils.ts,
      [updateColorRgb]) *)

Section Picker.

Lemma to_int32_small (x : Z) : 0 <= x < 2 ^ 31 -> JS.to_int32 x = x.
Proof.
  intros Hx. unfold JS.to_int32.
  rewrite Z.mod_small by (change (2 ^ 32) with 4294967296;
                          change (2 ^ 31) with 2147483648 in Hx; lia).
  destruct (Z.ltb_spec x (2 ^ 31)); [reflexivity | lia].
Qed.

(** The sum that [rgbToHex] of the first utils.ts prints, for bytes. *)
Lemma shifted_sum (r g b : Z) :
  0 <= r <= 255 -> 0 <= g <= 255 -> 0 <= b <= 255 ->
  JS.shift_left 1 24 + JS.shift_left r 16 + JS.shift_left g 8 + b
  = 16777216 + r * 65536 + g * 256 + b.
Proof.
  intros Hr Hg Hb. unfold JS.shift_left.
  change (24 mod 32) with 24. change (16 mod 32) with 16.
  change (8 mod 32) with 8.
  assert (H31 : 2 ^ 31 = 2147483648) by reflexivity.
  rewrite (to_int32_small 1), (to_int32_small r), (to_int32_small g) by lia.
  rewrite !Z.shiftl_mul_pow2 by lia.
  change (2 ^ 24) with 16777216. change (2 ^ 16) with 65536.
  change (2 ^ 8) with 256.
  rewrite !to_int32_small by lia. lia.
Qed.

Lemma hex_digit_text (k : nat) (rest : Hexadecimal.uint) :
  HexadecimalString.NilEmpty.string_of_uint (hex_digit k rest)
  = HexadecimalString.NilEmpty.string_of_uint (hex_digit k Hexadecimal.Nil)
    +:+ HexadecimalString.NilEmpty.string_of_uint rest.
Proof. do 15 (destruct k as [| k]; [reflexivity |]). reflexivity. Qed.

Lemma string_append_assoc (s t u : string) : (s +:+ t) +:+ u = s +:+ (t +:+ u).
Proof.
  induction s as [| c s IH]; [reflexivity |].
  change (String c ((s +:+ t) +:+ u) = String c (s +:+ (t +:+ u))).
  now rewrite IH.
Qed.

Lemma byte_digits_text (c : Z) (rest : Hexadecimal.uint) :
  HexadecimalString.NilEmpty.string_of_uint (byte_digits c rest)
  = HexadecimalString.NilEmpty.string_of_uint (byte_digits c Hexadecimal.Nil)
    +:+ HexadecimalString.NilEmpty.string_of_uint rest.
Proof.
  unfold byte_digits.
  rewrite (hex_digit_text _ (hex_digit _ rest)), (hex_digit_text _ rest).
  rewrite (hex_digit_text _ (hex_digit _ Hexadecimal.Nil)).
  rewrite !string_append_assoc. reflexivity.
Qed.

Lemma hex_digit_value (k : nat) (rest : Hexadecimal.uint) (acc : positive) :
  (k < 16)%nat ->
  exists acc',
    Z.pos acc' = 16 * Z.pos acc + Z.of_nat k
    /\ Pos.of_hex_uint_acc (hex_digit k rest) acc = Pos.of_hex_uint_acc rest acc'.
Proof.
  intros Hk.
  do 16 (destruct k as [| k];
         [eexists; split; [| reflexivity]; lia |]).
  lia.
Qed.

Lemma byte_digits_value (c : Z) (rest : Hexadecimal.uint) (acc : positive) :
  0 <= c <= 255 ->
  exists acc',
    Z.pos acc' = 256 * Z.pos acc + c
    /\ Pos.of_hex_uint_acc (byte_digits c rest) acc
       = Pos.of_hex_uint_acc rest acc'.
Proof.
  intros Hc. unfold byte_digits.
  pose proof (Z.div_mod c 16 ltac:(lia)) as Hdm.
  pose proof (Z.mod_pos_bound c 16 ltac:(lia)) as Hm.
  assert (Hq : 0 <= c / 16 < 16).
  { split; [apply Z.div_pos; lia | apply Z.div_lt_upper_bound; lia]. }
  destruct (hex_digit_value (Z.to_nat (c / 16))
              (hex_digit (Z.to_nat (c mod 16)) rest) acc ltac:(lia))
    as (acc1 & H1 & ->).
  destruct (hex_digit_value (Z.to_nat (c mod 16)) rest acc1 ltac:(lia))
    as (acc2 & H2 & ->).
  exists acc2. split; [lia | reflexivity].
Qed.

(** The number that the first utils.ts prints, in hexadecimal: a 1 and the
    two digits of each byte. *)
Lemma int_toString16_rgb (r g b : Z) :
  0 <= r <= 255 -> 0 <= g <= 255 -> 0 <= b <= 255 ->
  JS.int_toString16 (16777216 + r * 65536 + g * 256 + b)
  = String "1"
      (HexadecimalString.NilEmpty.string_of_uint
         (byte_digits r (byte_digits g (byte_digits b Hexadecimal.Nil)))).
Proof.
  intros Hr Hg Hb. unfold JS.int_toString16.
  set (d := byte_digits r (byte_digits g (byte_digits b Hexadecimal.Nil))).
  assert (E : 16777216 + r * 65536 + g * 256 + b
              = Z.of_hex_int (Hexadecimal.Pos (Hexadecimal.D1 d))).
  { unfold Z.of_hex_int, Z.of_hex_uint. cbn [Pos.of_hex_uint]. unfold d.
    destruct (byte_digits_value r (byte_digits g (byte_digits b Hexadecimal.Nil))
                1 Hr) as (a1 & H1 & ->).
    destruct (byte_digits_value g (byte_digits b Hexadecimal.Nil) a1 Hg)
      as (a2 & H2 & ->).
    destruct (byte_digits_value b Hexadecimal.Nil a2 Hb) as (a3 & H3 & ->).
    cbn [Pos.of_hex_uint_acc Z.of_N]. lia. }
  rewrite E, HexadecimalZ.to_of. reflexivity.
Qed.

Lemma bytes_text_ok (c : Z) :
  0 <= c <= 255 ->
  JS.padStart 2 "0" (JS.int_toString16 c)
  = HexadecimalString.NilEmpty.string_of_uint (byte_digits c Hexadecimal.Nil).
Proof.
  intros Hc.
  assert (Hall : forallb byte_text_ok (Canvas.range 256) = true)
    by (vm_compute; reflexivity).
  rewrite forallb_forall in Hall. apply String.eqb_eq. apply Hall.
  unfold Canvas.range. apply in_map_iff. exists (Z.to_nat c).
  split; [lia | apply in_seq; lia].
Qed.

Lemma substring_all (s : string) : substring 0 (String.length s) s = s.
Proof. induction s as [| c s IH]; simpl; [reflexivity | now rewrite IH]. Qed.

(** The text of [rgbToHex] of the first utils.ts for bytes. *)
Lemma rgbToHex_v1_text (r g b : Z) :
  0 <= r <= 255 -> 0 <= g <= 255 -> 0 <= b <= 255 ->
  UtilsV1.rgbToHex (r, g, b)
  = String "#" (JS.padStart 2 "0" (JS.int_toString16 r)
                +:+ JS.padStart 2 "0" (JS.int_toString16 g)
                +:+ JS.padStart 2 "0" (JS.int_toString16 b)).
Proof.
  intros Hr Hg Hb. unfold UtilsV1.rgbToHex.
  rewrite shifted_sum, int_toString16_rgb by assumption.
  unfold JS.slice_from. cbn [String.length Nat.sub substring].
  rewrite Nat.sub_0_r, substring_all.
  rewrite (byte_digits_text r), (byte_digits_text g).
  rewrite !bytes_text_ok by assumption. reflexivity.
Qed.

(** X23. For bytes the two versions of [rgbToHex] give the same text; beyond
    255 they need not: the first one lets a channel of 256 run over into
    the digit that it cuts off. *)
Theorem rgbToHex_versions_agree :
  (forall r g b : Z,
     0 <= r <= 255 -> 0 <= g <= 255 -> 0 <= b <= 255 ->
     UtilsV1.rgbToHex (r, g, b) = UtilsV2.rgbToHex (r, g, b))
  /\ UtilsV1.rgbToHex (256, 0, 0) = "#000000"
  /\ UtilsV2.rgbToHex (256, 0, 0) = "#1000000".
Proof.
  split; [| split; vm_compute; reflexivity].
  intros r g b Hr Hg Hb. rewrite rgbToHex_v1_text by assumption.
  unfold UtilsV2.rgbToHex. reflexivity.
Qed.

Lemma pairs_parse_alike (a b : ascii) :
  hexadecimal a -> hexadecimal b ->
  PaintLab.parseInt16 (String a (String b EmptyString))
  = UtilsV2.parseInt16 (String a (String b EmptyString)).
Proof.
  intros Ha Hb.
  assert (Hall : forallb
            (fun a => forallb (pair_parses_alike a)
                        (list_ascii_of_string "0123456789abcdefABCDEF"))
            (list_ascii_of_string "0123456789abcdefABCDEF") = true)
    by (vm_compute; reflexivity).
  rewrite forallb_forall in Hall. specialize (Hall a Ha).
  rewrite forallb_forall in Hall. specialize (Hall b Hb).
  unfold pair_parses_alike in Hall.
  destruct (PaintLab.parseInt16 _) as [n |], (UtilsV2.parseInt16 _) as [m |];
    try discriminate; [| reflexivity].
  apply Z.eqb_eq in Hall. now subst.
Qed.

(** The colours of a palette after one of them was given the channels
    [rgb0]: the same ids and notes in the same places, the new channels
    for the entries with the id, the others as they were. *)
Lemma recolor_in_place (id0 : string) (rgb0 : Rgb) (palette : list PaletteColor) :
  let palette' :=
    map (fun c => if String.eqb (id c) id0
                  then mkColor (id c) rgb0 (note c) else c) palette in
  ids palette' = ids palette
  /\ map note palette' = map note palette
  /\ (forall i c, nth_error palette i = Some c ->
        exists c', nth_error palette' i = Some c'
                   /\ (id c = id0 -> rgb c' = rgb0)
                   /\ (id c <> id0 -> c' = c))
  /\ ((forall c, In c palette -> id c = id0 -> rgb c = rgb0) ->
      palette' = palette).
Proof.
  intros palette'. unfold palette', ids. rewrite !map_map.
  split; [| split; [| split]].
  - apply map_ext. intros c. now destruct (String.eqb (id c) id0).
  - apply map_ext. intros c. now destruct (String.eqb (id c) id0).
  - intros i c Hc. eexists. split; [rewrite nth_error_map, Hc; reflexivity |].
    destruct (String.eqb_spec (id c) id0); split; intros; try reflexivity;
      contradiction.
  - intros Hsame. rewrite <- (map_id palette) at 2. apply map_ext_in.
    intros c Hc. destruct (String.eqb_spec (id c) id0) as [E |]; [| reflexivity].
    rewrite <- (Hsame c Hc E). now destruct c.
Qed.

(** X24. [updateColorRgb] reads the six digits behind the first character of
    [hex], whatever that character is, as [hexToRgb] reads them behind a
    [#]; the colours with the id get these channels, and every id, every
    note and every other colour stays as it was and where it was. *)
Theorem updateColorRgb_reads_hex (x : ascii) (body id0 : string)
    (palette : list PaletteColor) :
  String.length body = 6%nat ->
  Forall hexadecimal (list_ascii_of_string body) ->
  exists r g b palette',
    UtilsV2.hexToRgb (String "#" body) = Returned (JS.Int r, JS.Int g, JS.Int b)
    /\ PaintLab.updateColorRgb id0 (String x body) palette = Some palette'
    /\ ids palette' = ids palette
    /\ map note palette' = map note palette
    /\ (forall i c, nth_error palette i = Some c ->
          exists c', nth_error palette' i = Some c'
                     /\ (id c = id0 -> rgb c' = (r, g, b))
                     /\ (id c <> id0 -> c' = c)).
Proof.
  intros Hlen Hall.
  destruct body as [| a [| b [| c [| d [| e [| f [| ? ?]]]]]]];
    try discriminate Hlen.
  simpl in Hall. rewrite !Forall_cons in Hall.
  destruct Hall as (Ha & Hb & Hc & Hd & He & Hf & _).
  destruct (pair_text a b Ha Hb) as (r & Pr & _).
  destruct (pair_text c d Hc Hd) as (g & Pg & _).
  destruct (pair_text e f He Hf) as (b' & Pb & _).
  exists r, g, b'. eexists. split; [| split].
  - unfold UtilsV2.hexToRgb, UtilsV2.hex_pattern_exec.
    cbn [list_ascii_of_string].
    assert (Hdig : forallb UtilsV2.is_hex_digit [a; b; c; d; e; f] = true).
    { cbn [forallb]. rewrite !(proj2 (is_hex_digit_spec _)) by assumption.
      reflexivity. }
    rewrite Hdig. cbn [string_of_list_ascii]. now rewrite Pr, Pg, Pb.
  - unfold PaintLab.updateColorRgb, JS.slice.
    cbn [Nat.sub substring].
    rewrite !pairs_parse_alike by assumption. rewrite Pr, Pg, Pb. reflexivity.
  - pose proof (recolor_in_place id0 (r, g, b') palette) as H. cbv zeta in H.
    destruct H as (H1 & H2 & H3 & _). auto.
Qed.

(** An upper-case colour behind a blank, for the one colour of a
    palette. *)
Lemma updateColorRgb_reads_hex_witness :
  PaintLab.updateColorRgb "1" " FFaa00" [Sample.red]
  = Some [mkColor "1" (255, 170, 0) None].
Proof.
  destruct (updateColorRgb_reads_hex " " "FFaa00" "1" [Sample.red] eq_refl)
    as (r & g & b & palette' & Hhex & Hrun & _).
  - repeat (constructor; [apply is_hex_digit_spec; reflexivity |]). constructor.
  - transitivity (Some palette'); [exact Hrun |].
    vm_compute in Hrun. symmetry. exact Hrun.
Defined.

(** X25. The colour input shows [rgbToHex(color.rgb)] and gives what the user
    picks to [updateColorRgb]: for bytes, giving back the text shown for
    [(r, g, b)] sets the colours with the id to [(r, g, b)], and leaves a
    palette whose colours with the id have these channels as it is. *)
Theorem updateColorRgb_rgbToHex (id0 : string) (r g b : Z)
    (palette : list PaletteColor) :
  0 <= r <= 255 -> 0 <= g <= 255 -> 0 <= b <= 255 ->
  exists palette',
    PaintLab.updateColorRgb id0 (UtilsV1.rgbToHex (r, g, b)) palette
    = Some palette'
    /\ (forall i c, nth_error palette i = Some c ->
          exists c', nth_error palette' i = Some c'
                     /\ (id c = id0 -> rgb c' = (r, g, b))
                     /\ (id c <> id0 -> c' = c))
    /\ ((forall c, In c palette -> id c = id0 -> rgb c = (r, g, b)) ->
        palette' = palette).
Proof.
  intros Hr Hg Hb. rewrite rgbToHex_v1_text by assumption.
  destruct (channel_text r Hr) as (r1 & r2 & Er & Hr1 & Hr2 & Pr).
  destruct (channel_text g Hg) as (g1 & g2 & Eg & Hg1 & Hg2 & Pg).
  destruct (channel_text b Hb) as (b1 & b2 & Eb & Hb1 & Hb2 & Pb).
  rewrite Er, Eg, Eb. eexists. split.
  - unfold PaintLab.updateColorRgb, JS.slice.
    change (String r1 (String r2 "") +:+ String g1 (String g2 "")
            +:+ String b1 (String b2 ""))
      with (String r1 (String r2 (String g1 (String g2
              (String b1 (String b2 "")))))).
    cbn [Nat.sub substring].
    rewrite !pairs_parse_alike by (now apply is_hex_digit_spec).
    rewrite Pr, Pg, Pb. reflexivity.
  - pose proof (recolor_in_place id0 (r, g, b) palette) as H. cbv zeta in H.
    destruct H as (_ & _ & H3 & H4). auto.
Qed.

(** The red of the samples, shown and picked again. *)
Lemma updateColorRgb_rgbToHex_witness :
  PaintLab.updateColorRgb "1" (UtilsV1.rgbToHex (255, 0, 0))
    [Sample.red; Sample.blue]
  = Some [Sample.red; Sample.blue].
Proof.
  destruct (updateColorRgb_rgbToHex "1" 255 0 0 [Sample.red; Sample.blue]
              ltac:(lia) ltac:(lia) ltac:(lia)) as (palette' & Hrun & _ & Hsame).
  rewrite Hrun. f_equal. apply Hsame.
  intros c [<- | [<- | []]]; [reflexivity | discriminate].
Defined.

(** X26. A text of fewer than six characters, such as the short form [#fff],
    leaves no digit for the blue channel: [updateColorRgb] reads [NaN]
    there. *)
Theorem updateColorRgb_short_hex (id0 hex : string)
    (palette : list PaletteColor) :
  (String.length hex <= 5)%nat ->
  PaintLab.parseInt16 (JS.slice 5 7 hex) = JS.NaN
  /\ PaintLab.updateColorRgb id0 hex palette = None.
Proof.
  intros Hlen.
  assert (E : JS.slice 5 7 hex = "").
  { destruct hex as [| c1 [| c2 [| c3 [| c4 [| c5 [| c6 rest]]]]]];
      try reflexivity.
    simpl in Hlen. lia. }
  unfold PaintLab.updateColorRgb. rewrite E.
  change (PaintLab.parseInt16 "") with JS.NaN. split; [reflexivity |].
  destruct (PaintLab.parseInt16 (JS.slice 1 3 hex)),
           (PaintLab.parseInt16 (JS.slice 3 5 hex)); reflexivity.
Qed.

(** The short form of white. *)
Lemma updateColorRgb_short_hex_witness :
  PaintLab.updateColorRgb "1" "#fff" [Sample.red] = None.
Proof.
  apply (updateColorRgb_short_hex "1" "#fff" [Sample.red]). simpl. lia.
Defined.

End Picker.

(** * Fresh identifiers ([generateColorId]) *)

Section FreshIds.

Import UtilsV2.

Lemma candidates_distinct : NoDup (numerals ++ letters).
Proof. apply (bool_decide_unpack _). vm_compute. exact I. Qed.

(** A list that holds every numeral and every letter has 125 entries at
    least. *)
Lemma candidates_count (existingIds : list string) :
  (forall c, In c numerals -> In c existingIds) ->
  (forall c, In c letters -> In c existingIds) ->
  (125 <= length existingIds)%nat.
Proof.
  intros Hn Hl.
  change 125%nat with (length (numerals ++ letters)).
  apply submseteq_length, NoDup_submseteq; [apply candidates_distinct |].
  intros c Hc. apply list_elem_of_In. apply list_elem_of_In in Hc.
  apply in_app_or in Hc as [Hc | Hc]; auto.
Qed.

(** X27. With fewer than 125 ids in use [generateColorId] returns an id that is
    not in use, the same whatever [Math.random] would give, so that ids
    that were pairwise different stay so with the new one.  At 125 this
    ends: on the numerals, the letters and the random text itself the
    result is that text, an id in use. *)
Theorem generateColorId_fresh :
  (forall (token : string) (existingIds : list string),
     (length existingIds < 125)%nat ->
     ~ In (generateColorId token existingIds) existingIds
     /\ (forall token', generateColorId token' existingIds
                        = generateColorId token existingIds)
     /\ (NoDup existingIds ->
         NoDup (existingIds ++ [generateColorId token existingIds])))
  /\ (forall token : string,
        generateColorId token (numerals ++ letters ++ [token]) = token
        /\ In token (numerals ++ letters ++ [token])
        /\ generateColorId "I" (numerals ++ letters) = "I"
        /\ length (numerals ++ letters) = 125%nat).
Proof.
  split.
  - intros token existingIds Hlen.
    assert (Hfree : ~ In (generateColorId token existingIds) existingIds
                    /\ forall token', generateColorId token' existingIds
                                      = generateColorId token existingIds).
    { unfold generateColorId.
      destruct (first_free existingIds numerals) as [c |] eqn:E1.
      - split; [now apply first_free_sound in E1 | reflexivity].
      - destruct (first_free existingIds letters) as [c |] eqn:E2.
        + split; [now apply first_free_sound in E2 | reflexivity].
        + exfalso.
          pose proof (candidates_count existingIds
                        (proj1 (first_free_none _ _) E1)
                        (proj1 (first_free_none _ _) E2)). lia. }
    destruct Hfree as [Hfree Hsame]. split; [exact Hfree |].
    split; [exact Hsame |].
    intros Hnd. apply NoDup_app. split; [exact Hnd |].
    split; [| apply NoDup_singleton].
    intros x Hx Hx'. apply list_elem_of_In in Hx.
    apply list_elem_of_In in Hx'. destruct Hx' as [<- | []]. now apply Hfree.
  - intros token. split; [| split; [| split; vm_compute; reflexivity]].
    + unfold generateColorId.
      rewrite (proj2 (first_free_none _ numerals))
        by (intros c Hc; apply in_or_app; now left).
      rewrite (proj2 (first_free_none _ letters))
        by (intros c Hc; apply in_or_app; right; apply in_or_app; now left).
      reflexivity.
    + apply in_or_app. right. apply in_or_app. right. now left.
Qed.

End FreshIds.

(** * A sample beside the image ([extractColorFromImage], utils.ts 2.0) *)

Section SamplingOutside.

(** The columns of a rectangle of negative width lie left of its origin. *)
Lemma In_rect_left (sx sy sw sh : Z) (p : Z * Z) :
  sw < 0 -> In p (Canvas.rect sx sy sw sh) -> sx + sw <= fst p < sx.
Proof.
  intros Hw. unfold Canvas.rect.
  destruct (Z.ltb_spec sw 0) as [_ | Hge]; [| lia].
  rewrite in_flat_map. intros (j & _ & Hp).
  apply in_map_iff in Hp as (i & <- & Hi). apply In_range in Hi. simpl. lia.
Qed.

(** Points beside the image add nothing to the totals. *)
Lemma sum_pixels_outside (img : Raster) (pts : list (Z * Z)) (r g b n : Z) :
  Forall (fun p => Canvas.inside img (fst p) (snd p) = false) pts ->
  UtilsV2.sum_pixels
    (flat_map (fun xy => Canvas.bytes_of (Canvas.pixel_at img (fst xy) (snd xy))) pts)
    (r, g, b, n)
  = (r, g, b, n + Z.of_nat (length pts)).
Proof.
  intros Hout. revert r g b n.
  induction Hout as [| p pts Hp _ IH]; intros r g b n.
  - simpl. f_equal. lia.
  - simpl flat_map. unfold Canvas.pixel_at at 1. rewrite Hp. simpl.
    rewrite IH. f_equal; [f_equal; [f_equal |] |]; lia.
Qed.

Lemma average_nothing (count : Z) : UtilsV2.average 0 count = 0.
Proof.
  unfold UtilsV2.average.
  rewrite (Math_round_Qeq _ 0%Q); [reflexivity |].
  unfold Qdiv. change (inject_Z 0) with 0%Q. ring.
Qed.

(** X28. A centre more than half the sample size beside the image, left or
    right of it, is no error for [extractColorFromImage] of utils.ts 2.0:
    the rectangle that it reads has a negative width and lies beside the
    image, and the colour is black whatever the image shows.  At exactly
    half the sample size beside the image the rectangle is empty and the
    promise is never settled. *)
Theorem extractColorFromImage_outside (browser : Browser) (file : File)
    (img : Raster) (cx : Z) (y : option Z) :
  file_body file = Picture img -> context2d browser = true ->
  0 <= img_width img ->
  0 <= default (img_height img / 2) y < img_height img ->
  (img_width img + 5 < cx \/ cx + 5 < 0 ->
   UtilsV2.extractColorFromImage browser file (Some cx) y 10
   = Resolved (0, 0, 0))
  /\ (cx = img_width img + 5 \/ cx = -5 ->
      UtilsV2.extractColorFromImage browser file (Some cx) y 10 = NeverSettles).
Proof.
  intros Hbody Hctx Hw Hy.
  unfold UtilsV2.extractColorFromImage. rewrite Hbody, Hctx. simpl negb. cbv iota.
  unfold UtilsV2.sample_window. change (10 / 2) with 5. simpl default.
  set (cy := default (img_height img / 2) y) in *.
  set (startX := Z.max 0 (cx - 5)). set (endX := Z.min (img_width img) (cx + 5)).
  set (startY := Z.max 0 (cy - 5)). set (endY := Z.min (img_height img) (cy + 5)).
  assert (Hsh : 0 < endY - startY) by (unfold startY, endY; lia).
  unfold Canvas.getImageData. split.
  - intros Hside.
    assert (Hsw : endX - startX < 0) by (unfold startX, endX; lia).
    destruct (Z.eqb_spec (endX - startX) 0) as [E | _]; [lia |].
    destruct (Z.eqb_spec (endY - startY) 0) as [E | _]; [lia |]. simpl orb.
    cbv iota. rewrite (sum_pixels_outside img _ 0 0 0 0).
    + now rewrite average_nothing.
    + apply List.Forall_forall. intros p Hp.
      apply In_rect_left in Hp; [| exact Hsw].
      unfold Canvas.inside.
      destruct (Z.leb_spec 0 (fst p)); [| reflexivity].
      destruct (Z.ltb_spec (fst p) (img_width img)); [| reflexivity].
      unfold startX, endX in Hp. lia.
  - intros Hedge.
    destruct (Z.eqb_spec (endX - startX) 0) as [_ | Hne]; [reflexivity |].
    unfold startX, endX in Hne. lia.
Qed.

(** The striped picture, sampled 30 columns right of it and at its right
    edge plus 5. *)
Lemma extractColorFromImage_outside_witness :
  UtilsV2.extractColorFromImage Sample.browser Sample.swatch (Some 50) None 10
  = Resolved (0, 0, 0)
  /\ UtilsV2.extractColorFromImage Sample.browser Sample.swatch (Some 25) None 10
     = NeverSettles.
Proof.
  split.
  - apply (extractColorFromImage_outside Sample.browser Sample.swatch
             Sample.striped 50 None eq_refl eq_refl); [simpl; lia | | ].
    + cbv. repeat split; solve [reflexivity | discriminate].
    + left. simpl. lia.
  - apply (extractColorFromImage_outside Sample.browser Sample.swatch
             Sample.striped 25 None eq_refl eq_refl); [simpl; lia | | ].
    + cbv. repeat split; solve [reflexivity | discriminate].
    + left. reflexivity.
Defined.

End SamplingOutside.
